(** * Akonadi2::Storage over unqlite (common/storage_unqlite.cpp)

    A shallow embedding of the storage layer of akonadi-next and the
    properties its specification states about it.

    The layer is a thin wrapper around the unqlite key/value engine.  The
    engine is not part of the sources: it is taken as a parameter, the class
    [Engine] below, whose fields carry the names and the shapes of the C
    functions the wrapper calls.  Every function of the wrapper is translated
    over an arbitrary engine; a small reference engine, [RefEngine], is given
    afterwards to run the wrapper on concrete stores.

    Conventions of the embedding.
    - A C pointer to bytes is a [pointer]: [None] is the null pointer and
      [Some s] points to an allocation whose bytes, from the pointer on, are
      [s].  Lengths travel separately, as in the source.
    - Integers are [Z]; the two narrowing conversions of the source
      ([size_t] to [uint], [unqlite_int64] to [int]) are written out.
    - Every function returns, next to its C result, the new state of the
      objects it may mutate and the list of the [event]s it caused, in order:
      calls into the engine, calls of the caller's handlers, allocation and
      release of the scan buffers, and lines written to the diagnostic
      streams.
    - The caller's handlers are closures: they are functions over a state
      [Client] of the caller's, which the wrapper threads without reading.
      In [Storage] a handler returns; the functions that call a handler are
      given a second time in [Unwinding], over handlers that may leave by an
      exception. *)

From Stdlib Require Import ZArith String Ascii List Bool Lia PeanoNat.
Import ListNotations.

Open Scope string_scope.
Open Scope list_scope.
Open Scope Z_scope.

(** ** Bytes, pointers and integer conversions *)

Definition pointer : Type := option string.

Definition is_null (p : pointer) : bool :=
  match p with
  | None => true
  | Some _ => false
  end.

(** The bytes an allocation holds from the pointer on; nothing at null. *)
Definition contents (p : pointer) : string :=
  match p with
  | None => EmptyString
  | Some s => s
  end.

Definition NUL : string := String Ascii.zero EmptyString.

(** [std::endl] *)
Definition endl : string := String (ascii_of_nat 10) EmptyString.

(** [std::string::size()] *)
Definition size (s : string) : Z := Z.of_nat (String.length s).

(** [std::string::data()]: the characters followed by the terminating NUL
    (C++11); the allocation ends there as far as the model knows. *)
Definition data (s : string) : pointer := Some (s ++ NUL)%string.

(** [std::string(ptr, n)]: the first [n] bytes at [ptr].  Meaningful when
    [0 <= n] and the allocation holds at least [n] bytes. *)
Definition std_string (p : pointer) (n : Z) : string :=
  substring 0 (Z.to_nat n) (contents p).

(** Conversion to [uint] (32 bits, unsigned). *)
Definition to_uint (z : Z) : Z := z mod 2 ^ 32.

(** Conversion to [int] (32 bits, two's complement). *)
Definition to_int (z : Z) : Z := (z + 2 ^ 31) mod 2 ^ 32 - 2 ^ 31.

(** [n] zero bytes: the model's choice for the indeterminate bytes of fresh
    memory.  No reader of the model looks at them before they are written. *)
Fixpoint zeros (n : nat) : string :=
  match n with
  | O => EmptyString
  | S n' => String Ascii.zero (zeros n')
  end.

(** [realloc(p, n)]: an allocation of [n] bytes that keeps the old bytes.
    Allocation is assumed to succeed. *)
Definition realloc (p : pointer) (n : Z) : pointer :=
  let old := contents p in
  let n' := Z.to_nat n in
  Some (substring 0 n' old ++ zeros (n' - String.length old))%string.

(** ** The engine interface (unqlite/unqlite.h)

    The header is not among the sources.  Its constants are fields, so that
    nothing below depends on their values; its functions are fields with the
    C signatures, out-parameters moved to the result.  A function that takes
    the [unqlite *] handle may change it and returns the new handle state.
    [filesystem] is what the engine persists between [unqlite_close] and the
    next [unqlite_open].

    A cursor walks a finite store: [cursor_remaining] bounds the number of
    entries still ahead, and [unqlite_kv_cursor_next_entry] lowers it while
    the cursor is valid.  This is the one assumption made on the engine. *)

Class Engine : Type := {
  UNQLITE_OK : Z;
  UNQLITE_OPEN_READONLY : Z;
  UNQLITE_OPEN_READWRITE : Z;
  UNQLITE_OPEN_CREATE : Z;
  UNQLITE_OPEN_MMAP : Z;
  UNQLITE_CURSOR_MATCH_EXACT : Z;

  filesystem : Type;
  unqlite : Type;
  unqlite_kv_cursor : Type;

  (* int unqlite_open(unqlite **ppDB, const char *zFilename, unsigned int iMode) *)
  unqlite_open : filesystem -> string -> Z -> Z * option unqlite * filesystem;
  (* int unqlite_close(unqlite *pDb) *)
  unqlite_close : option unqlite -> filesystem -> Z * filesystem;
  (* unqlite_config(pDb, UNQLITE_CONFIG_ERR_LOG, &zBuf, &iLen): the message and its length *)
  unqlite_config_err_log : unqlite -> string * Z;

  unqlite_begin : unqlite -> Z * unqlite;
  unqlite_commit : unqlite -> Z * unqlite;
  unqlite_rollback : unqlite -> Z * unqlite;

  (* int unqlite_kv_store(pDb, pKey, nKeyLen, pData, nDataLen) *)
  unqlite_kv_store : unqlite -> pointer -> Z -> pointer -> Z -> Z * unqlite;
  (* int unqlite_kv_delete(pDb, pKey, nKeyLen) *)
  unqlite_kv_delete : unqlite -> pointer -> Z -> Z * unqlite;

  (* int unqlite_kv_cursor_init(pDb, &pCursor) *)
  unqlite_kv_cursor_init : unqlite -> Z * unqlite_kv_cursor * unqlite;
  (* int unqlite_kv_cursor_release(pDb, pCursor) *)
  unqlite_kv_cursor_release : unqlite -> unqlite_kv_cursor -> Z * unqlite;
  unqlite_kv_cursor_first_entry : unqlite_kv_cursor -> Z * unqlite_kv_cursor;
  (* non-zero when the cursor points to an entry *)
  unqlite_kv_cursor_valid_entry : unqlite_kv_cursor -> bool;
  unqlite_kv_cursor_next_entry : unqlite_kv_cursor -> Z * unqlite_kv_cursor;
  (* int unqlite_kv_cursor_seek(pCursor, pKey, nKeyLen, iPos) *)
  unqlite_kv_cursor_seek : unqlite_kv_cursor -> pointer -> Z -> Z -> Z * unqlite_kv_cursor;
  (* int unqlite_kv_cursor_key(pCursor, pBuf, &nByte): status, the buffer
     after the call, and nByte after the call *)
  unqlite_kv_cursor_key : unqlite_kv_cursor -> pointer -> Z -> Z * pointer * Z;
  (* int unqlite_kv_cursor_data(pCursor, pBuf, &nByte) *)
  unqlite_kv_cursor_data : unqlite_kv_cursor -> pointer -> Z -> Z * pointer * Z;

  cursor_remaining : unqlite_kv_cursor -> nat;
  cursor_next_decreases : forall c,
    unqlite_kv_cursor_valid_entry c = true ->
    (cursor_remaining (snd (unqlite_kv_cursor_next_entry c)) < cursor_remaining c)%nat
}.

(** ** Observable events *)

(** A call into the engine, with the arguments that are data and the status
    the engine returned where the wrapper receives one. *)
Inductive call : Type :=
| call_open (path : string) (flags : Z) (rc : Z)
| call_close
| call_config_err_log
| call_begin (rc : Z)
| call_commit (rc : Z)
| call_rollback (rc : Z)
| call_kv_store (key : pointer) (keySize : Z) (value : pointer) (valueSize : Z) (rc : Z)
| call_kv_delete (key : pointer) (keySize : Z) (rc : Z)
| call_cursor_init (rc : Z)
| call_cursor_release
| call_cursor_first_entry
| call_cursor_valid_entry (valid : bool)
| call_cursor_next_entry
| call_cursor_seek (key : pointer) (keySize : Z) (rc : Z)
| call_cursor_key (buf : pointer) (rc : Z)
| call_cursor_data (buf : pointer) (rc : Z).

(** [Storage::Error]: store name, code, message. *)
Record Error : Type := mkError {
  store : string;
  code : Z;
  message : string
}.

(** The two buffers of a scan. *)
Inductive buffer_name : Type := KeyBuffer | DataBuffer.

Inductive event : Type :=
| ev_engine (c : call)
| ev_mkpath (path : string)
| ev_realloc (b : buffer_name) (n : Z)
| ev_free (b : buffer_name)
| ev_result (keyPtr : pointer) (keySize : Z) (valuePtr : pointer) (valueSize : Z)
            (continue : bool)
| ev_error (e : Error)
| ev_cerr (line : string)
| ev_cout (line : string).

Definition trace : Type := list event.

Inductive AccessMode : Type := ReadOnly | ReadWrite.

(** [static const char *s_unqliteDir] *)
Definition s_unqliteDir : string := "/unqlite/".

(** ** The wrapper *)

Section Storage.

Context {E : Engine}.
Context {Client : Type}.

(** [Storage::Private]. *)
Record Private : Type := mkPrivate {
  storageRoot : string;
  name : string;
  mode : AccessMode;
  db : option unqlite;
  allowDuplicates : bool;
  inTransaction : bool
}.

Definition set_db (d : Private) (h : option unqlite) : Private :=
  mkPrivate (storageRoot d) (name d) (mode d) h (allowDuplicates d) (inTransaction d).

Definition set_inTransaction (d : Private) (b : bool) : Private :=
  mkPrivate (storageRoot d) (name d) (mode d) (db d) (allowDuplicates d) b.

(** The handler types of storage.h, over the caller's state. *)
Definition ErrorHandler : Type := Client -> Error -> Client.
Definition ScanHandler : Type :=
  Client -> pointer -> Z -> pointer -> Z -> bool * Client.
Definition RawValueHandler : Type := Client -> pointer -> Z -> bool * Client.
Definition StringValueHandler : Type := Client -> string -> bool * Client.

(** [void Storage::Private::reportDbError(const char *functionName)] *)
Definition reportDbError (d : Private) (functionName : string) : trace :=
  match db d with
  | Some h =>
      let '(errorMessage, length) := unqlite_config_err_log h in
      let detail := if length >? 0 then (": " ++ errorMessage)%string else "" in
      [ev_engine call_config_err_log;
       ev_cerr ("ERROR: " ++ functionName ++ detail ++ endl)%string]
  | None => [ev_cerr ("ERROR: " ++ functionName ++ endl)%string]
  end.

(** [void Storage::Private::reportDbError(functionName, errorCode, errorHandler)] *)
Definition reportDbError_handler (d : Private) (functionName : string)
    (errorCode : Z) (errorHandler : ErrorHandler) (c : Client) : Client * trace :=
  let fallback (t : trace) :=
    let error := mkError (name d) errorCode functionName in
    (errorHandler c error, t ++ [ev_error error]) in
  match db d with
  | Some h =>
      let '(errorMessage, length) := unqlite_config_err_log h in
      if length >? 0 then
        let error := mkError (name d) errorCode errorMessage in
        (errorHandler c error, [ev_engine call_config_err_log; ev_error error])
      else fallback [ev_engine call_config_err_log]
  | None => fallback []
  end.

(** [Storage::Private::Private]: [db(0)], [inTransaction(false)], then
    [unqlite_open(&db, ...)]. *)
Definition Private_ctor (fs : filesystem) (s n : string) (m : AccessMode)
    (duplicates : bool) : Private * filesystem * trace :=
  let fullPath := (s ++ s_unqliteDir ++ n)%string in
  let openFlags := UNQLITE_OPEN_CREATE in
  let openFlags :=
    match m with
    | ReadOnly => Z.lor openFlags (Z.lor UNQLITE_OPEN_READONLY UNQLITE_OPEN_MMAP)
    | ReadWrite => Z.lor openFlags UNQLITE_OPEN_READWRITE
    end in
  let '(rc, h, fs') := unqlite_open fs fullPath openFlags in
  let d := mkPrivate s n m h duplicates false in
  (d, fs',
   [ev_mkpath (s ++ s_unqliteDir)%string; ev_engine (call_open fullPath openFlags rc)]
   ++ (if rc =? UNQLITE_OK then [] else reportDbError d "unqlite_open")).

(** [Storage::Private::~Private] *)
Definition Private_dtor (d : Private) (fs : filesystem) : filesystem * trace :=
  let '(_, fs') := unqlite_close (db d) fs in
  (fs', [ev_engine call_close]).

(** [Storage::Storage] *)
Definition Storage_ctor (fs : filesystem) (storageRoot name : string)
    (mode : AccessMode) (allowDuplicates : bool) : Private * filesystem * trace :=
  Private_ctor fs storageRoot name mode allowDuplicates.

(** [bool Storage::isInTransaction() const] *)
Definition isInTransaction (d : Private) : bool := inTransaction d.

(** [bool Storage::exists() const] *)
Definition exists_ (d : Private) : bool :=
  match db d with
  | Some _ => true
  | None => false
  end.

(** [bool Storage::startTransaction(AccessMode type)] *)
Definition startTransaction (d : Private) (type : AccessMode) : bool * Private * trace :=
  match db d with
  | None => (false, d, [])
  | Some h =>
      if inTransaction d then (true, d, [])
      else
        let '(rc, h') := unqlite_begin h in
        let d1 := set_inTransaction (set_db d (Some h')) (rc =? UNQLITE_OK) in
        (inTransaction d1, d1,
         ev_engine (call_begin rc)
         :: (if negb (inTransaction d1) then reportDbError d1 "unqlite_begin" else []))
  end.

(** [bool Storage::commitTransaction()] *)
Definition commitTransaction (d : Private) : bool * Private * trace :=
  match db d with
  | None => (false, d, [])
  | Some h =>
      if negb (inTransaction d) then (true, d, [])
      else
        let '(rc, h') := unqlite_commit h in
        let d1 := set_inTransaction (set_db d (Some h')) false in
        (rc =? UNQLITE_OK, d1,
         ev_engine (call_commit rc)
         :: (if negb (rc =? UNQLITE_OK) then reportDbError d1 "unqlite_commit" else []))
  end.

(** [void Storage::abortTransaction()] *)
Definition abortTransaction (d : Private) : Private * trace :=
  match db d with
  | None => (d, [])
  | Some h =>
      if negb (inTransaction d) then (d, [])
      else
        let '(rc, h') := unqlite_rollback h in
        (set_inTransaction (set_db d (Some h')) false, [ev_engine (call_rollback rc)])
  end.

(** [Storage::~Storage] *)
Definition Storage_dtor (d : Private) (fs : filesystem) : filesystem * trace :=
  let '(d1, t1) := if inTransaction d then abortTransaction d else (d, []) in
  let '(fs', t2) := Private_dtor d1 fs in
  (fs', t1 ++ t2).

(** [bool Storage::write(const void *key, size_t keySize, const void *value, size_t valueSize)] *)
Definition write (d : Private) (key : pointer) (keySize : Z) (value : pointer)
    (valueSize : Z) : bool * Private * trace :=
  match db d with
  | None => (false, d, [])
  | Some h =>
      let '(rc, h') := unqlite_kv_store h key keySize value valueSize in
      let d1 := set_db d (Some h') in
      (rc =? 0 (* return !rc *), d1,
       ev_engine (call_kv_store key keySize value valueSize rc)
       :: (if negb (rc =? UNQLITE_OK) then reportDbError d1 "unqlite_kv_store" else []))
  end.

(** [bool Storage::write(const std::string &sKey, const std::string &sValue)]:
    the fourth argument is [sKey.size()], as in the source. *)
Definition write_string (d : Private) (sKey sValue : string) : bool * Private * trace :=
  write d (data sKey) (size sKey) (data sValue) (size sKey).

(** [storage.h] declares [basicErrorHandler()], the handler [remove] uses
    when the caller gives none; its definition is not in this file of the
    sources, so it is a parameter. *)
Variable basicErrorHandler : ErrorHandler.

(** [void Storage::remove(const void *keyData, uint keySize, errorHandler)] *)
Definition remove (d : Private) (keyData : pointer) (keySize : Z)
    (errorHandler : ErrorHandler) (c : Client) : Private * Client * trace :=
  match db d with
  | None =>
      let error := mkError (name d) (-1) "Not open" in
      (d, errorHandler c error, [ev_error error])
  | Some h =>
      let '(rc, h') := unqlite_kv_delete h keyData keySize in
      (set_db d (Some h'), c, [ev_engine (call_kv_delete keyData keySize rc)])
  end.

(** [void Storage::remove(const void *keyData, uint keySize)] *)
Definition remove_default (d : Private) (keyData : pointer) (keySize : Z)
    (c : Client) : Private * Client * trace :=
  remove d keyData keySize basicErrorHandler c.

(** The locals of [scan] that [fetchCursorData] receives by address. *)
Record buffers : Type := mkBuffers {
  keyBuffer : pointer;
  keyBufferLength : Z;
  dataBuffer : pointer;
  dataBufferLength : Z
}.

(** [void fetchCursorData(cursor, keyBuffer, keyBufferLength, dataBuffer,
    dataBufferLength, resultHandler)].  The value the handler returns is
    dropped: the function is [void] and the call is an expression
    statement.  [valueSize] is the 64-bit length converted to [int]. *)
Definition fetchCursorData (cursor : unqlite_kv_cursor) (b : buffers)
    (resultHandler : ScanHandler) (c : Client) : buffers * Client * trace :=
  let keyLength := 0 in
  let dataLength := 0 in
  (* now fetch the data sizes *)
  let '(rc1, _, keyLength) := unqlite_kv_cursor_key cursor None keyLength in
  if negb (rc1 =? UNQLITE_OK) then (b, c, [ev_engine (call_cursor_key None rc1)])
  else
  let '(rc2, _, dataLength) := unqlite_kv_cursor_data cursor None dataLength in
  let sizes := [ev_engine (call_cursor_key None rc1); ev_engine (call_cursor_data None rc2)] in
  if negb (rc2 =? UNQLITE_OK) then (b, c, sizes)
  else
  let '(b1, grow_key) :=
    if keyLength >? keyBufferLength b then
      (mkBuffers (realloc (keyBuffer b) keyLength) keyLength
                 (dataBuffer b) (dataBufferLength b),
       [ev_realloc KeyBuffer keyLength])
    else (b, []) in
  let '(b2, grow_data) :=
    if dataLength >? dataBufferLength b1 then
      (mkBuffers (keyBuffer b1) (keyBufferLength b1)
                 (realloc (dataBuffer b1) dataLength) dataLength,
       [ev_realloc DataBuffer dataLength])
    else (b1, []) in
  let '(rc3, keyPtr, keyLength) := unqlite_kv_cursor_key cursor (keyBuffer b2) keyLength in
  let b3 := mkBuffers keyPtr (keyBufferLength b2) (dataBuffer b2) (dataBufferLength b2) in
  let copy_key := [ev_engine (call_cursor_key (keyBuffer b2) rc3)] in
  if negb (rc3 =? UNQLITE_OK) then (b3, c, sizes ++ grow_key ++ grow_data ++ copy_key)
  else
  let '(rc4, valuePtr, dataLength) := unqlite_kv_cursor_data cursor (dataBuffer b3) dataLength in
  let b4 := mkBuffers (keyBuffer b3) (keyBufferLength b3) valuePtr (dataBufferLength b3) in
  let copy_data := [ev_engine (call_cursor_data (dataBuffer b3) rc4)] in
  if negb (rc4 =? UNQLITE_OK) then
    (b4, c, sizes ++ grow_key ++ grow_data ++ copy_key ++ copy_data)
  else
  let '(continue, c') :=
    resultHandler c (keyBuffer b4) keyLength (dataBuffer b4) (to_int dataLength) in
  (b4, c',
   sizes ++ grow_key ++ grow_data ++ copy_key ++ copy_data
   ++ [ev_result (keyBuffer b4) keyLength (dataBuffer b4) (to_int dataLength) continue]).

(** The [for] loop of the full scan, entered after
    [unqlite_kv_cursor_first_entry]:
    [for (...; unqlite_kv_cursor_valid_entry(cursor); unqlite_kv_cursor_next_entry(cursor))
       fetchCursorData(...)].
    The recursion is on [fuel]; [scan] gives one more than
    [cursor_remaining], which the loop cannot use up. *)
Fixpoint scan_loop (fuel : nat) (cursor : unqlite_kv_cursor) (b : buffers)
    (resultHandler : ScanHandler) (c : Client)
    : unqlite_kv_cursor * buffers * Client * trace :=
  match fuel with
  | O => (cursor, b, c, [])
  | S fuel' =>
      if unqlite_kv_cursor_valid_entry cursor then
        let '(b1, c1, t1) := fetchCursorData cursor b resultHandler c in
        let '(_, cursor1) := unqlite_kv_cursor_next_entry cursor in
        let '(cursor2, b2, c2, t2) := scan_loop fuel' cursor1 b1 resultHandler c1 in
        (cursor2, b2, c2,
         ev_engine (call_cursor_valid_entry true) :: t1
         ++ ev_engine call_cursor_next_entry :: t2)
      else (cursor, b, c, [ev_engine (call_cursor_valid_entry false)])
  end.

(** [void Storage::scan(const char *keyData, uint keySize, resultHandler, errorHandler)] *)
Definition scan (d : Private) (keyData : pointer) (keySize : Z)
    (resultHandler : ScanHandler) (errorHandler : ErrorHandler) (c : Client)
    : Private * Client * trace :=
  match db d with
  | None =>
      let error := mkError (name d) (-1) "Not open" in
      (d, errorHandler c error, [ev_error error])
  | Some h =>
      let '(rc, cursor, h1) := unqlite_kv_cursor_init h in
      let d1 := set_db d (Some h1) in
      if negb (rc =? UNQLITE_OK) then
        let '(c', t) := reportDbError_handler d1 "unqlite_kv_cursor_init" rc errorHandler c in
        (d1, c', ev_engine (call_cursor_init rc) :: t)
      else
        let b := mkBuffers None 0 None 0 in
        let '(cursor', b', c', t) :=
          if is_null keyData || (keySize =? 0) then
            let '(_, cursor0) := unqlite_kv_cursor_first_entry cursor in
            let '(cursor1, b1, c1, t1) :=
              scan_loop (S (cursor_remaining cursor0)) cursor0 b resultHandler c in
            (cursor1, b1, c1, ev_engine call_cursor_first_entry :: t1)
          else
            let '(rc, cursor0) :=
              unqlite_kv_cursor_seek cursor keyData keySize UNQLITE_CURSOR_MATCH_EXACT in
            if rc =? UNQLITE_OK then
              let '(b1, c1, t1) := fetchCursorData cursor0 b resultHandler c in
              (cursor0, b1, c1, ev_engine (call_cursor_seek keyData keySize rc) :: t1)
            else
              (cursor0, b, c,
               [ev_engine (call_cursor_seek keyData keySize rc);
                ev_cout ("couldn't find value " ++ std_string keyData keySize ++ endl)%string])
        in
        let '(_, h2) := unqlite_kv_cursor_release h1 cursor' in
        (set_db d (Some h2), c',
         ev_engine (call_cursor_init rc) :: t
         ++ [ev_free KeyBuffer; ev_free DataBuffer; ev_engine call_cursor_release])
  end.

(** [void Storage::read(const std::string &sKey,
    const std::function<bool(void *ptr, int size)> &resultHandler, errorHandler)] *)
Definition read (d : Private) (sKey : string) (resultHandler : RawValueHandler)
    (errorHandler : ErrorHandler) (c : Client) : Private * Client * trace :=
  scan d (data sKey) (to_uint (size sKey))
       (fun c keyPtr keySize valuePtr valueSize => resultHandler c valuePtr valueSize)
       errorHandler c.

(** [void Storage::read(const std::string &sKey,
    const std::function<bool(const std::string &value)> &resultHandler, errorHandler)] *)
Definition read_string (d : Private) (sKey : string) (resultHandler : StringValueHandler)
    (errorHandler : ErrorHandler) (c : Client) : Private * Client * trace :=
  read d sKey
       (fun c ptr size =>
          if negb (is_null ptr) then
            let resultValue := std_string ptr size in
            resultHandler c resultValue
          else (true, c))
       errorHandler c.

End Storage.

(** ** Sequences of operations

    A caller's use of one [Storage] object between its construction and its
    destruction is a list of calls of its public functions.  [apply_op] runs
    one on the object and drops the C result; [run] runs a list. *)

Section Operations.

Context {E : Engine}.
Context {Client : Type}.
Variable basicErrorHandler : @ErrorHandler Client.

Inductive op : Type :=
| op_startTransaction (type : AccessMode)
| op_commitTransaction
| op_abortTransaction
| op_write (key : pointer) (keySize : Z) (value : pointer) (valueSize : Z)
| op_write_string (sKey sValue : string)
| op_read (sKey : string) (resultHandler : @RawValueHandler Client)
          (errorHandler : @ErrorHandler Client)
| op_read_string (sKey : string) (resultHandler : @StringValueHandler Client)
                 (errorHandler : @ErrorHandler Client)
| op_remove (keyData : pointer) (keySize : Z) (errorHandler : @ErrorHandler Client)
| op_remove_default (keyData : pointer) (keySize : Z)
| op_scan (keyData : pointer) (keySize : Z) (resultHandler : @ScanHandler Client)
          (errorHandler : @ErrorHandler Client)
| op_isInTransaction
| op_exists.

Definition apply_op (o : op) (d : Private) (c : Client) : Private * Client * trace :=
  match o with
  | op_startTransaction type =>
      let '(_, d', t) := startTransaction d type in (d', c, t)
  | op_commitTransaction =>
      let '(_, d', t) := commitTransaction d in (d', c, t)
  | op_abortTransaction =>
      let '(d', t) := abortTransaction d in (d', c, t)
  | op_write key keySize value valueSize =>
      let '(_, d', t) := write d key keySize value valueSize in (d', c, t)
  | op_write_string sKey sValue =>
      let '(_, d', t) := write_string d sKey sValue in (d', c, t)
  | op_read sKey resultHandler errorHandler =>
      read d sKey resultHandler errorHandler c
  | op_read_string sKey resultHandler errorHandler =>
      read_string d sKey resultHandler errorHandler c
  | op_remove keyData keySize errorHandler =>
      remove d keyData keySize errorHandler c
  | op_remove_default keyData keySize =>
      remove_default basicErrorHandler d keyData keySize c
  | op_scan keyData keySize resultHandler errorHandler =>
      scan d keyData keySize resultHandler errorHandler c
  | op_isInTransaction =>
      let _ := isInTransaction d in (d, c, [])
  | op_exists =>
      let _ := exists_ d in (d, c, [])
  end.

Fixpoint run (os : list op) (d : Private) (c : Client) : Private * Client * trace :=
  match os with
  | [] => (d, c, [])
  | o :: os' =>
      let '(d1, c1, t1) := apply_op o d c in
      let '(d2, c2, t2) := run os' d1 c1 in
      (d2, c2, t1 ++ t2)
  end.

(** The operations that begin or end a transaction. *)
Definition is_transaction_control (o : op) : bool :=
  match o with
  | op_startTransaction _ | op_commitTransaction | op_abortTransaction => true
  | _ => false
  end.

End Operations.

(** ** Reading traces *)

Definition is_transaction_end (e : event) : bool :=
  match e with
  | ev_engine (call_commit _) | ev_engine (call_rollback _) => true
  | _ => false
  end.

(** In the trace [t] the engine accepted a [begin] and was asked neither to
    commit nor to roll back afterwards. *)
Definition begun_not_ended (ok : Z) (t : trace) : Prop :=
  exists before after,
    t = before ++ ev_engine (call_begin ok) :: after
    /\ existsb is_transaction_end after = false.

(** The invariant of the transaction flag, for a store [d] and the events
    [history] of its life so far: the flag is set only if the handle is not
    null and the engine has a transaction begun and not ended. *)
Definition flag_invariant {E : Engine} (d : Private) (history : trace) : Prop :=
  inTransaction d = true ->
  db d <> None /\ begun_not_ended UNQLITE_OK history.

(** An operation that keeps the flag, keeps the handle open or null, and
    asks for no commit or rollback. *)
Definition keeps_flag {E : Engine} (d d' : Private) (t : trace) : Prop :=
  inTransaction d' = inTransaction d
  /\ (db d = None -> d' = d)
  /\ (db d <> None -> db d' <> None)
  /\ existsb is_transaction_end t = false.

(** What an operation does to the flag, on a store whose flag is set only
    with an open handle: a null handle leaves the store as it is; and if the
    flag is set afterwards, the handle is open and either the flag was set
    before and the operation asked for no commit or rollback, or the
    operation itself had a begin accepted with nothing ending it after. *)
Definition flag_step {E : Engine} (d d' : Private) (t : trace) : Prop :=
  (db d = None -> d' = d)
  /\ (inTransaction d' = true ->
      db d' <> None
      /\ ((inTransaction d = true /\ existsb is_transaction_end t = false)
          \/ begun_not_ended UNQLITE_OK t)).

Definition is_engine_call (e : event) : bool :=
  match e with
  | ev_engine _ => true
  | _ => false
  end.

Definition is_commit (e : event) : bool :=
  match e with
  | ev_engine (call_commit _) => true
  | _ => false
  end.

Definition is_result (e : event) : bool :=
  match e with
  | ev_result _ _ _ _ _ => true
  | _ => false
  end.

Definition is_error (e : event) : bool :=
  match e with
  | ev_error _ => true
  | _ => false
  end.

(** An entry is fetched by [unqlite_kv_cursor_key] / [unqlite_kv_cursor_data]
    and handed over by a call of the result handler. *)
Definition is_fetch (e : event) : bool :=
  match e with
  | ev_engine (call_cursor_key _ _) | ev_engine (call_cursor_data _ _) => true
  | ev_result _ _ _ _ _ => true
  | _ => false
  end.

(** What a caller can observe of a call: its handlers being called and the
    diagnostic streams. *)
Definition is_observable (e : event) : bool :=
  match e with
  | ev_result _ _ _ _ _ | ev_error _ | ev_cerr _ | ev_cout _ => true
  | _ => false
  end.

(** "When the handler returns false the scan stops": nothing is fetched or
    handed to the handler after the first call that returned [false]. *)
Fixpoint stops_at_first_false (t : trace) : bool :=
  match t with
  | [] => true
  | ev_result _ _ _ _ false :: t' => negb (existsb is_fetch t')
  | _ :: t' => stops_at_first_false t'
  end.

(** The events that end a scan: the buffers freed, the cursor released. *)
Definition is_release (e : event) : bool :=
  match e with
  | ev_free _ | ev_engine call_cursor_release => true
  | _ => false
  end.

(** The events a scan causes between the creation of its cursor and the
    release of its resources: positioning the cursor, fetching entries
    (sizes, buffer growth, copies), the calls of the result handler, and
    the not-found diagnostic. *)
Definition is_scan_body (e : event) : bool :=
  match e with
  | ev_engine call_cursor_first_entry
  | ev_engine (call_cursor_valid_entry _)
  | ev_engine call_cursor_next_entry
  | ev_engine (call_cursor_seek _ _ _)
  | ev_engine (call_cursor_key _ _)
  | ev_engine (call_cursor_data _ _) => true
  | ev_realloc _ _ | ev_result _ _ _ _ _ | ev_cout _ => true
  | _ => false
  end.

(** The error every operation reports on a store that is not open. *)
Definition NotOpen {E : Engine} (d : Private) : Error :=
  mkError (name d) (-1) "Not open".

(** The key is not present in the store behind [h]: a cursor on the store,
    sought to exactly this key, reports no match. *)
Definition key_not_found {E : Engine} (h : unqlite) (keyData : pointer) (keySize : Z)
    : Prop :=
  exists cursor h1,
    unqlite_kv_cursor_init h = (UNQLITE_OK, cursor, h1)
    /\ fst (unqlite_kv_cursor_seek cursor keyData keySize UNQLITE_CURSOR_MATCH_EXACT)
       <> UNQLITE_OK.

(** Two result handlers that act alike on the caller's state and may differ
    in the value they return. *)
Definition same_effect {Client : Type} (f g : @ScanHandler Client) : Prop :=
  forall c keyPtr keySize valuePtr valueSize,
    snd (f c keyPtr keySize valuePtr valueSize) = snd (g c keyPtr keySize valuePtr valueSize).

(** A trace with the results of the handler calls blanked. *)
Definition forget_continue (e : event) : event :=
  match e with
  | ev_result keyPtr keySize valuePtr valueSize _ =>
      ev_result keyPtr keySize valuePtr valueSize true
  | _ => e
  end.

(** The values handed to the result handler, in order: the first
    [valueSize] bytes at [valuePtr]. *)
Fixpoint values_of (t : trace) : list string :=
  match t with
  | [] => []
  | ev_result _ _ valuePtr valueSize _ :: t' => std_string valuePtr valueSize :: values_of t'
  | _ :: t' => values_of t'
  end.

(** ** A reference engine

    Modelled from the spec: the engine (unqlite), which the specification
    keeps out of scope and describes by the capability interface the wrapper
    consumes.  The model is the simplest store with that interface: a list
    of entries, the copy of it taken when a transaction begins, and the
    files of the storage directory. *)

Module RefEngine.

(** The entries of a store, in the engine's order (here: order of first
    insertion). *)
Definition table : Type := list (string * string).

Fixpoint lookup (k : string) (t : table) : option string :=
  match t with
  | [] => None
  | (k', v) :: t' => if String.eqb k k' then Some v else lookup k t'
  end.

Fixpoint insert (k v : string) (t : table) : table :=
  match t with
  | [] => [(k, v)]
  | (k', v') :: t' =>
      if String.eqb k k' then (k, v) :: t' else (k', v') :: insert k v t'
  end.

Fixpoint delete (k : string) (t : table) : table :=
  match t with
  | [] => []
  | (k', v') :: t' =>
      if String.eqb k k' then t' else (k', v') :: delete k t'
  end.

Fixpoint index_of (k : string) (t : table) : option nat :=
  match t with
  | [] => None
  | (k', _) :: t' =>
      if String.eqb k k' then Some O else option_map S (index_of k t')
  end.

(** The files of the storage directory: path and entries. *)
Definition disk : Type := list (string * table).

Fixpoint load (path : string) (fs : disk) : table :=
  match fs with
  | [] => []
  | (p, t) :: fs' => if String.eqb path p then t else load path fs'
  end.

Fixpoint save (path : string) (t : table) (fs : disk) : disk :=
  match fs with
  | [] => [(path, t)]
  | (p, t') :: fs' =>
      if String.eqb path p then (path, t) :: fs' else (p, t') :: save path t fs'
  end.

(** An open handle: the file it is bound to, the current entries, and the
    entries as they were when the open transaction began. *)
Record handle : Type := mkHandle {
  file : string;
  entries : table;
  saved : option table
}.

(** A cursor: the entries it walks and its position among them. *)
Record cursor : Type := mkCursor {
  items : table;
  pos : nat
}.

Definition OK : Z := 0.
Definition NOTFOUND : Z := -6.
Definition INVALID : Z := -9.
Definition CORRUPT : Z := -24.

(** The [n] bytes the engine reads at [p]. *)
Definition bytes_at (p : pointer) (n : Z) : string :=
  substring 0 (Z.to_nat n) (contents p).

(** The engine's convention for [unqlite_kv_cursor_key] and
    [unqlite_kv_cursor_data]: with no buffer, report the length; with a
    buffer, copy at most [nByte] bytes to its start and report how many. *)
Definition copy_out (src : string) (pBuf : pointer) (nByte : Z) : Z * pointer * Z :=
  match pBuf with
  | None => (OK, None, size src)
  | Some buf =>
      let n := Z.to_nat (Z.min nByte (size src)) in
      (OK,
       Some (substring 0 n src ++ substring n (String.length buf - n) buf)%string,
       Z.of_nat n)
  end.

Definition current (c : cursor) : option (string * string) := nth_error (items c) (pos c).

Definition open (fs : disk) (path : string) (flags : Z) : Z * option handle * disk :=
  (OK, Some (mkHandle path (load path fs) None), fs).

Definition close (h : option handle) (fs : disk) : Z * disk :=
  match h with
  | None => (CORRUPT, fs)
  | Some h => (OK, save (file h) (entries h) fs)
  end.

Definition begin (h : handle) : Z * handle :=
  match saved h with
  | None => (OK, mkHandle (file h) (entries h) (Some (entries h)))
  | Some _ => (OK, h)
  end.

Definition commit (h : handle) : Z * handle :=
  (OK, mkHandle (file h) (entries h) None).

Definition rollback (h : handle) : Z * handle :=
  match saved h with
  | None => (OK, h)
  | Some t => (OK, mkHandle (file h) t None)
  end.

Definition kv_store (h : handle) (pKey : pointer) (nKeyLen : Z) (pData : pointer)
    (nDataLen : Z) : Z * handle :=
  (OK, mkHandle (file h) (insert (bytes_at pKey nKeyLen) (bytes_at pData nDataLen) (entries h))
                (saved h)).

Definition kv_delete (h : handle) (pKey : pointer) (nKeyLen : Z) : Z * handle :=
  match lookup (bytes_at pKey nKeyLen) (entries h) with
  | None => (NOTFOUND, h)
  | Some _ => (OK, mkHandle (file h) (delete (bytes_at pKey nKeyLen) (entries h)) (saved h))
  end.

Definition cursor_init (h : handle) : Z * cursor * handle :=
  (OK, mkCursor (entries h) 0, h).

Definition cursor_release (h : handle) (c : cursor) : Z * handle := (OK, h).

Definition cursor_first_entry (c : cursor) : Z * cursor := (OK, mkCursor (items c) 0).

Definition cursor_valid_entry (c : cursor) : bool := (pos c <? List.length (items c))%nat.

Definition cursor_next_entry (c : cursor) : Z * cursor := (OK, mkCursor (items c) (S (pos c))).

Definition cursor_seek (c : cursor) (pKey : pointer) (nKeyLen : Z) (iPos : Z) : Z * cursor :=
  match index_of (bytes_at pKey nKeyLen) (items c) with
  | Some i => (OK, mkCursor (items c) i)
  | None => (NOTFOUND, mkCursor (items c) (List.length (items c)))
  end.

Definition cursor_key (c : cursor) (pBuf : pointer) (nByte : Z) : Z * pointer * Z :=
  match current c with
  | Some (k, _) => copy_out k pBuf nByte
  | None => (INVALID, pBuf, nByte)
  end.

Definition cursor_data (c : cursor) (pBuf : pointer) (nByte : Z) : Z * pointer * Z :=
  match current c with
  | Some (_, v) => copy_out v pBuf nByte
  | None => (INVALID, pBuf, nByte)
  end.

Definition remaining (c : cursor) : nat := (List.length (items c) - pos c)%nat.

(** Modelled from the spec: the engine itself (unqlite.c), which the
    specification keeps out of scope and describes by its capability
    interface: open and close, begin / commit / rollback, point store and
    delete, and a cursor with first / next / valid / exact seek / key / data.
    Stores hold byte keys mapped to byte values; a rollback discards what was
    written since the transaction began; what a store holds when it is closed
    is what the next open finds.  Every call succeeds, except a delete or an
    exact seek of a key that is absent and a read through a cursor that is
    not on an entry. *)
#[export] Instance engine : Engine.
Proof.
  refine {|
    UNQLITE_OK := OK;
    UNQLITE_OPEN_READONLY := 1;
    UNQLITE_OPEN_READWRITE := 2;
    UNQLITE_OPEN_CREATE := 4;
    UNQLITE_OPEN_MMAP := 256;
    UNQLITE_CURSOR_MATCH_EXACT := 1;
    filesystem := disk;
    unqlite := handle;
    unqlite_kv_cursor := cursor;
    unqlite_open := open;
    unqlite_close := close;
    unqlite_config_err_log := fun _ => (EmptyString, 0);
    unqlite_begin := begin;
    unqlite_commit := commit;
    unqlite_rollback := rollback;
    unqlite_kv_store := kv_store;
    unqlite_kv_delete := kv_delete;
    unqlite_kv_cursor_init := cursor_init;
    unqlite_kv_cursor_release := cursor_release;
    unqlite_kv_cursor_first_entry := cursor_first_entry;
    unqlite_kv_cursor_valid_entry := cursor_valid_entry;
    unqlite_kv_cursor_next_entry := cursor_next_entry;
    unqlite_kv_cursor_seek := cursor_seek;
    unqlite_kv_cursor_key := cursor_key;
    unqlite_kv_cursor_data := cursor_data;
    cursor_remaining := remaining;
    cursor_next_decreases := _
  |}.
  unfold cursor_valid_entry, cursor_next_entry, remaining; simpl.
  intros c Hvalid. apply Nat.ltb_lt in Hvalid. lia.
Defined.

Definition READ_ONLY : Z := -75.

(** The reference engine on a medium that cannot be written: begin, commit,
    store and delete are refused with [READ_ONLY] and an entry in the error
    log, and leave the store as it is.  The rest is [engine]'s.  It
    exercises the branches of the wrapper that handle a refusal. *)
Definition read_only_engine : Engine := {|
  UNQLITE_OK := OK;
  UNQLITE_OPEN_READONLY := 1;
  UNQLITE_OPEN_READWRITE := 2;
  UNQLITE_OPEN_CREATE := 4;
  UNQLITE_OPEN_MMAP := 256;
  UNQLITE_CURSOR_MATCH_EXACT := 1;
  filesystem := disk;
  unqlite := handle;
  unqlite_kv_cursor := cursor;
  unqlite_open := open;
  unqlite_close := close;
  unqlite_config_err_log := fun _ => ("Read-only database", 18);
  unqlite_begin := fun h => (READ_ONLY, h);
  unqlite_commit := fun h => (READ_ONLY, h);
  unqlite_rollback := rollback;
  unqlite_kv_store := fun h _ _ _ _ => (READ_ONLY, h);
  unqlite_kv_delete := fun h _ _ => (READ_ONLY, h);
  unqlite_kv_cursor_init := cursor_init;
  unqlite_kv_cursor_release := cursor_release;
  unqlite_kv_cursor_first_entry := cursor_first_entry;
  unqlite_kv_cursor_valid_entry := cursor_valid_entry;
  unqlite_kv_cursor_next_entry := cursor_next_entry;
  unqlite_kv_cursor_seek := cursor_seek;
  unqlite_kv_cursor_key := cursor_key;
  unqlite_kv_cursor_data := cursor_data;
  cursor_remaining := remaining;
  cursor_next_decreases := @cursor_next_decreases engine
|}.

(** An open store with the given entries and transaction state. *)
Definition store_of (name : string) (t : table) (tx : option table) : @Private engine :=
  mkPrivate "/var" name ReadWrite (Some (mkHandle ("/var/unqlite/" ++ name)%string t tx)) false
            (match tx with Some _ => true | None => false end).

(** A store whose open failed: the handle is null. *)
Definition closed_store (name : string) : @Private engine :=
  mkPrivate "/var" name ReadWrite None false false.

(** The store of entries [t], idle, on the medium that cannot be written. *)
Definition read_only_store (name : string) (t : table) : @Private read_only_engine :=
  @mkPrivate read_only_engine "/var" name ReadOnly
             (Some (mkHandle ("/var/unqlite/" ++ name)%string t None)) false false.

(** The entries a store holds; none when the handle is null. *)
Definition table_of (d : @Private engine) : table :=
  match db d with
  | Some h => entries h
  | None => []
  end.

(** A store bound to the file [path] whose engine transaction is [tx]
    (the entries saved at its begin, if one is open) and whose flag says the
    same. *)
Definition ref_state (path : string) (tx : option table) (d : @Private engine) : Prop :=
  exists h, db d = Some h /\ file h = path /\ saved h = tx
            /\ inTransaction d = match tx with Some _ => true | None => false end.

(** A caller that counts the calls of its result handler and of its error
    handler. *)
Definition counters : Type := nat * nat.

Definition count_result (continue : bool) : @ScanHandler counters :=
  fun c _ _ _ _ => (continue, (S (fst c), snd c)).

Definition count_error : @ErrorHandler counters :=
  fun c _ => (fst c, S (snd c)).

End RefEngine.

(** ** Example stores *)

Module Examples.

Import RefEngine.

(** The store "inbox" with two entries, idle. *)
Definition inbox_handle : handle :=
  mkHandle "/var/unqlite/inbox" [("a", "1"); ("b", "22")] None.
Definition inbox : @Private engine := store_of "inbox" [("a", "1"); ("b", "22")] None.

(** The same store inside a transaction begun when it was empty. *)
Definition inbox_active_handle : handle :=
  mkHandle "/var/unqlite/inbox" [("a", "1"); ("b", "22")] (Some []).
Definition inbox_active : @Private engine :=
  store_of "inbox" [("a", "1"); ("b", "22")] (Some []).

(** The store inside a transaction on a medium that has since become
    read-only, so that the engine refuses the commit. *)
Definition inbox_active_read_only : @Private read_only_engine :=
  @mkPrivate read_only_engine "/var" "inbox" ReadWrite (Some inbox_active_handle) false true.

(** The cursor the engine creates on it. *)
Definition inbox_cursor : cursor := mkCursor [("a", "1"); ("b", "22")] 0.

(** A caller that keeps the values its string handler receives, latest
    first. *)
Definition keep_value : @StringValueHandler (list string) :=
  fun c value => (true, value :: c).
Definition ignore_error : @ErrorHandler (list string) := fun c _ => c.

(** A life of the store "inbox": created empty, one write, then, inside a
    transaction, a write and a remove. *)
Definition fresh_inbox : @Private engine :=
  mkPrivate "/var" "inbox" ReadWrite (Some (mkHandle "/var/unqlite/inbox" [] None))
            false false.
(** The events of its construction on an empty disk. *)
Definition fresh_inbox_history : trace :=
  [ev_mkpath "/var/unqlite/"; ev_engine (call_open "/var/unqlite/inbox" 6 0)].
Definition inbox_with_a : @Private engine :=
  mkPrivate "/var" "inbox" ReadWrite
            (Some (mkHandle "/var/unqlite/inbox" [("a", "1")] None)) false false.
Definition before_transaction : list (@op unit) := [op_write_string "a" "1"].
Definition during_transaction : list (@op unit) :=
  [op_write (data "b") 1 (data "22") 2; op_remove (data "a") 1 (fun c _ => c)].

End Examples.

(** ** Further readings of traces and stores *)

(** The entries handed to the result handler, in order: for each call, the
    first [keySize] bytes at [keyPtr] and the first [valueSize] bytes at
    [valuePtr]. *)
Fixpoint entries_of (t : trace) : list (string * string) :=
  match t with
  | [] => []
  | ev_result keyPtr keySize valuePtr valueSize _ :: t' =>
      (std_string keyPtr keySize, std_string valuePtr valueSize) :: entries_of t'
  | _ :: t' => entries_of t'
  end.

(** The number of calls of the result handler. *)
Definition result_count (t : trace) : nat := List.length (filter is_result t).

(** A line on one of the diagnostic streams. *)
Definition is_diagnostic (e : event) : bool :=
  match e with
  | ev_cerr _ | ev_cout _ => true
  | _ => false
  end.

Definition is_close (e : event) : bool :=
  match e with
  | ev_engine call_close => true
  | _ => false
  end.

Definition is_rollback (e : event) : bool :=
  match e with
  | ev_engine (call_rollback _) => true
  | _ => false
  end.

Definition is_begin (e : event) : bool :=
  match e with
  | ev_engine (call_begin _) => true
  | _ => false
  end.

(** The value size of a handler call is an [int]. *)
Definition value_size_is_int (e : event) : bool :=
  match e with
  | ev_result _ _ _ valueSize _ => (- 2 ^ 31 <=? valueSize) && (valueSize <? 2 ^ 31)
  | _ => true
  end.

(** The only event an operation causes on a store that is not open. *)
Definition is_not_open_error {E : Engine} (d : Private) (e : event) : Prop :=
  e = ev_error (NotOpen d).

(** The capacities of [b'] are at least those of [b]. *)
Definition buffers_grown (b b' : buffers) : Prop :=
  keyBufferLength b <= keyBufferLength b' /\ dataBufferLength b <= dataBufferLength b'.

Definition set_allowDuplicates {E : Engine} (d : Private) (b : bool) : Private :=
  mkPrivate (storageRoot d) (name d) (mode d) (db d) b (inTransaction d).

(** What identifies a store and does not change after construction, and
    whether it holds a handle. *)
Definition same_store {E : Engine} (d d' : Private) : Prop :=
  storageRoot d' = storageRoot d /\ name d' = name d /\ mode d' = mode d
  /\ allowDuplicates d' = allowDuplicates d /\ exists_ d' = exists_ d.

(** The pointer a scan hands over for [s] when its buffer starts out null:
    the buffer is allocated only if [s] is not empty. *)
Definition fresh_pointer (s : string) : pointer :=
  if size s >? 0 then Some s else None.

(** A scan buffer and the capacity recorded for it agree. *)
Definition buffers_sized (b : buffers) : Prop :=
  keyBufferLength b = size (contents (keyBuffer b))
  /\ dataBufferLength b = size (contents (dataBuffer b)).

(** The sizes asked of [realloc] for the buffer [which], in order. *)
Fixpoint realloc_sizes (which : buffer_name) (t : trace) : list Z :=
  match t with
  | [] => []
  | ev_realloc b n :: t' =>
      match which, b with
      | KeyBuffer, KeyBuffer | DataBuffer, DataBuffer => n :: realloc_sizes which t'
      | _, _ => realloc_sizes which t'
      end
  | _ :: t' => realloc_sizes which t'
  end.

(** Each number is larger than the one before it, the first larger than
    [lo]. *)
Fixpoint ascending_from (lo : Z) (l : list Z) : Prop :=
  match l with
  | [] => True
  | n :: l' => lo < n /\ ascending_from n l'
  end.

(** ** Engines that fail *)

Module Faults.

Import RefEngine.

Definition NOMEM : Z := -1.
Definition IOERR : Z := -2.

(** The reference engine out of memory for cursors:
    [unqlite_kv_cursor_init] fails with [NOMEM] and the error log is
    empty. *)
Definition no_cursor_engine : Engine := {|
  UNQLITE_OK := OK;
  UNQLITE_OPEN_READONLY := 1;
  UNQLITE_OPEN_READWRITE := 2;
  UNQLITE_OPEN_CREATE := 4;
  UNQLITE_OPEN_MMAP := 256;
  UNQLITE_CURSOR_MATCH_EXACT := 1;
  filesystem := disk;
  unqlite := handle;
  unqlite_kv_cursor := cursor;
  unqlite_open := open;
  unqlite_close := close;
  unqlite_config_err_log := fun _ => (EmptyString, 0);
  unqlite_begin := begin;
  unqlite_commit := commit;
  unqlite_rollback := rollback;
  unqlite_kv_store := kv_store;
  unqlite_kv_delete := kv_delete;
  unqlite_kv_cursor_init := fun h => (NOMEM, mkCursor [] 0, h);
  unqlite_kv_cursor_release := cursor_release;
  unqlite_kv_cursor_first_entry := cursor_first_entry;
  unqlite_kv_cursor_valid_entry := cursor_valid_entry;
  unqlite_kv_cursor_next_entry := cursor_next_entry;
  unqlite_kv_cursor_seek := cursor_seek;
  unqlite_kv_cursor_key := cursor_key;
  unqlite_kv_cursor_data := cursor_data;
  cursor_remaining := remaining;
  cursor_next_decreases := @cursor_next_decreases engine
|}.

(** The reference engine on a medium that cannot be read: the cursor moves,
    and every [unqlite_kv_cursor_data] fails with [IOERR]. *)
Definition unreadable_engine : Engine := {|
  UNQLITE_OK := OK;
  UNQLITE_OPEN_READONLY := 1;
  UNQLITE_OPEN_READWRITE := 2;
  UNQLITE_OPEN_CREATE := 4;
  UNQLITE_OPEN_MMAP := 256;
  UNQLITE_CURSOR_MATCH_EXACT := 1;
  filesystem := disk;
  unqlite := handle;
  unqlite_kv_cursor := cursor;
  unqlite_open := open;
  unqlite_close := close;
  unqlite_config_err_log := fun _ => ("I/O error", 9);
  unqlite_begin := begin;
  unqlite_commit := commit;
  unqlite_rollback := rollback;
  unqlite_kv_store := kv_store;
  unqlite_kv_delete := kv_delete;
  unqlite_kv_cursor_init := cursor_init;
  unqlite_kv_cursor_release := cursor_release;
  unqlite_kv_cursor_first_entry := cursor_first_entry;
  unqlite_kv_cursor_valid_entry := cursor_valid_entry;
  unqlite_kv_cursor_next_entry := cursor_next_entry;
  unqlite_kv_cursor_seek := cursor_seek;
  unqlite_kv_cursor_key := cursor_key;
  unqlite_kv_cursor_data := fun _ pBuf nByte => (IOERR, pBuf, nByte);
  cursor_remaining := remaining;
  cursor_next_decreases := @cursor_next_decreases engine
|}.

(** The two-entry store "inbox" on each of them. *)
Definition inbox_no_cursor : @Private no_cursor_engine :=
  @mkPrivate no_cursor_engine "/var" "inbox" ReadWrite (Some Examples.inbox_handle)
             false false.

Definition inbox_unreadable : @Private unreadable_engine :=
  @mkPrivate unreadable_engine "/var" "inbox" ReadWrite (Some Examples.inbox_handle)
             false false.

End Faults.

(** ** More example callers *)

Module Callers.

Import RefEngine.

(** A caller that keeps the values its raw handler receives, latest
    first. *)
Definition keep_raw : @RawValueHandler (list string) :=
  fun c ptr n => (true, std_string ptr n :: c).

(** A caller that keeps the entries its scan handler receives, latest first,
    and asks to stop. *)
Definition keep_entry : @ScanHandler (list (string * string)) :=
  fun c keyPtr keySize valuePtr valueSize =>
    (false, (std_string keyPtr keySize, std_string valuePtr valueSize) :: c).

Definition drop_error {Client : Type} : @ErrorHandler Client := fun c _ => c.

(** A use of a store by a caller that counts: a write, a begin, a read, a
    remove, a scan and a commit. *)
Definition counted_use : list (@op counters) :=
  [op_write_string "a" "1";
   op_startTransaction ReadWrite;
   op_read "a" (fun c _ _ => (true, (S (fst c), snd c))) count_error;
   op_remove (data "a") 1 count_error;
   op_scan None 0 (count_result true) count_error;
   op_commitTransaction].

End Callers.

(** ** What the engine delivered *)

(** The cursor positions a loop reaches from [start]: [start] itself, and
    the position after each [unqlite_kv_cursor_next_entry] taken at a valid
    entry. *)
Inductive walked {E : Engine} (start : unqlite_kv_cursor) : unqlite_kv_cursor -> Prop :=
| walked_start : walked start start
| walked_next (cursor : unqlite_kv_cursor) :
    walked start cursor ->
    unqlite_kv_cursor_valid_entry cursor = true ->
    walked start (snd (unqlite_kv_cursor_next_entry cursor)).

(** The cursor positions of the scan of [d] for the key [keyData],
    [keySize]: on the cursor [unqlite_kv_cursor_init] gives for the handle
    of [d], the positions walked from the first entry in a full scan, the
    one position of the exact seek otherwise.  None on a null handle. *)
Definition scan_position {E : Engine} (d : Private) (keyData : pointer) (keySize : Z)
    (cursor : unqlite_kv_cursor) : Prop :=
  exists h : unqlite,
    db d = Some h
    /\ let created := snd (fst (unqlite_kv_cursor_init h)) in
       if is_null keyData || (keySize =? 0) then
         walked (snd (unqlite_kv_cursor_first_entry created)) cursor
       else
         cursor = snd (unqlite_kv_cursor_seek created keyData keySize
                                              UNQLITE_CURSOR_MATCH_EXACT).

(** The handler call [e] carries what the engine delivered at one of the
    cursor positions [position]: the key pointer and key size are the buffer
    and the length a successful [unqlite_kv_cursor_key] gave back there, the
    value pointer is the buffer a successful [unqlite_kv_cursor_data] gave
    back there, and the value size is the length that call reported,
    converted to [int]: a number between -2^31 and 2^31 - 1, equal to the
    reported length exactly when that lies in this range. *)
Definition handed_as_delivered {E : Engine} (position : unqlite_kv_cursor -> Prop)
    (e : event) : Prop :=
  match e with
  | ev_result keyPtr keySize valuePtr valueSize _ =>
      exists (cursor : unqlite_kv_cursor) (keyBuf valueBuf : pointer) (nKey nData : Z)
             (dataLength : Z),
        position cursor
        /\ unqlite_kv_cursor_key cursor keyBuf nKey = (UNQLITE_OK, keyPtr, keySize)
        /\ unqlite_kv_cursor_data cursor valueBuf nData = (UNQLITE_OK, valuePtr, dataLength)
        /\ valueSize = to_int dataLength
        /\ - 2 ^ 31 <= valueSize < 2 ^ 31
        /\ (valueSize = dataLength <-> - 2 ^ 31 <= dataLength < 2 ^ 31)
  | _ => True
  end.

(** ** Handlers that throw

    The handlers are [std::function] objects of the caller's: a call of one
    may leave by a C++ exception instead of returning.  The file has no
    [try] block and no object that owns the scan buffers or the cursor, so
    such an exception passes through [fetchCursorData], [scan] and [read] to
    the caller, and what these functions had left to do is skipped.

    [Unwinding] holds the functions of the source that call a handler,
    translated once more, over handlers that may throw.  Each returns, next
    to its state and its trace, how it was left: [returns] or [throws].  The
    trace holds the events up to the throw; the handler call that threw is
    not among them, since it gave no result.  Nothing but a handler throws
    in these functions, allocation being assumed to succeed.  Over handlers
    that return, these are the functions of [Storage] above. *)

Inductive exception : Type :=
| std_length_error                  (* thrown by [std::string(ptr, n)] *)
| thrown_by_caller (what : string). (* anything a handler of the caller's throws *)

Inductive outcome (A : Type) : Type :=
| returns (a : A)
| throws (e : exception).

Arguments returns {A} a.
Arguments throws {A} e.

Module Unwinding.

Section Storage.

Context {E : Engine}.
Context {Client : Type}.

(** The handler types of storage.h, over the caller's state; a handler may
    change that state before it throws. *)
Definition ErrorHandler : Type := Client -> Error -> outcome unit * Client.
Definition ScanHandler : Type :=
  Client -> pointer -> Z -> pointer -> Z -> outcome bool * Client.
Definition RawValueHandler : Type := Client -> pointer -> Z -> outcome bool * Client.
Definition StringValueHandler : Type := Client -> string -> outcome bool * Client.

(** [void Storage::Private::reportDbError(functionName, errorCode, errorHandler)] *)
Definition reportDbError_handler (d : Private) (functionName : string)
    (errorCode : Z) (errorHandler : ErrorHandler) (c : Client)
    : Client * trace * outcome unit :=
  let report (t : trace) (error : Error) :=
    match errorHandler c error with
    | (returns _, c') => (c', t ++ [ev_error error], returns tt)
    | (throws e, c') => (c', t, throws e)
    end in
  match db d with
  | Some h =>
      let '(errorMessage, length) := unqlite_config_err_log h in
      if length >? 0 then
        report [ev_engine call_config_err_log] (mkError (name d) errorCode errorMessage)
      else
        report [ev_engine call_config_err_log] (mkError (name d) errorCode functionName)
  | None => report [] (mkError (name d) errorCode functionName)
  end.

(** [void fetchCursorData(cursor, keyBuffer, keyBufferLength, dataBuffer,
    dataBufferLength, resultHandler)]: the call of the handler is the last
    statement, so a throw leaves the buffers as they are, grown and
    filled. *)
Definition fetchCursorData (cursor : unqlite_kv_cursor) (b : buffers)
    (resultHandler : ScanHandler) (c : Client)
    : buffers * Client * trace * outcome unit :=
  let keyLength := 0 in
  let dataLength := 0 in
  (* now fetch the data sizes *)
  let '(rc1, _, keyLength) := unqlite_kv_cursor_key cursor None keyLength in
  if negb (rc1 =? UNQLITE_OK) then
    (b, c, [ev_engine (call_cursor_key None rc1)], returns tt)
  else
  let '(rc2, _, dataLength) := unqlite_kv_cursor_data cursor None dataLength in
  let sizes := [ev_engine (call_cursor_key None rc1); ev_engine (call_cursor_data None rc2)] in
  if negb (rc2 =? UNQLITE_OK) then (b, c, sizes, returns tt)
  else
  let '(b1, grow_key) :=
    if keyLength >? keyBufferLength b then
      (mkBuffers (realloc (keyBuffer b) keyLength) keyLength
                 (dataBuffer b) (dataBufferLength b),
       [ev_realloc KeyBuffer keyLength])
    else (b, []) in
  let '(b2, grow_data) :=
    if dataLength >? dataBufferLength b1 then
      (mkBuffers (keyBuffer b1) (keyBufferLength b1)
                 (realloc (dataBuffer b1) dataLength) dataLength,
       [ev_realloc DataBuffer dataLength])
    else (b1, []) in
  let '(rc3, keyPtr, keyLength) := unqlite_kv_cursor_key cursor (keyBuffer b2) keyLength in
  let b3 := mkBuffers keyPtr (keyBufferLength b2) (dataBuffer b2) (dataBufferLength b2) in
  let copy_key := [ev_engine (call_cursor_key (keyBuffer b2) rc3)] in
  if negb (rc3 =? UNQLITE_OK) then
    (b3, c, sizes ++ grow_key ++ grow_data ++ copy_key, returns tt)
  else
  let '(rc4, valuePtr, dataLength) := unqlite_kv_cursor_data cursor (dataBuffer b3) dataLength in
  let b4 := mkBuffers (keyBuffer b3) (keyBufferLength b3) valuePtr (dataBufferLength b3) in
  let copy_data := [ev_engine (call_cursor_data (dataBuffer b3) rc4)] in
  let fetched := sizes ++ grow_key ++ grow_data ++ copy_key ++ copy_data in
  if negb (rc4 =? UNQLITE_OK) then (b4, c, fetched, returns tt)
  else
  match resultHandler c (keyBuffer b4) keyLength (dataBuffer b4) (to_int dataLength) with
  | (returns continue, c') =>
      (b4, c',
       fetched ++ [ev_result (keyBuffer b4) keyLength (dataBuffer b4) (to_int dataLength)
                             continue],
       returns tt)
  | (throws e, c') => (b4, c', fetched, throws e)
  end.

(** The [for] loop of the full scan, entered after
    [unqlite_kv_cursor_first_entry]; a throw in its body leaves the loop at
    once.  The recursion is on [fuel], as in [scan_loop] above. *)
Fixpoint scan_loop (fuel : nat) (cursor : unqlite_kv_cursor) (b : buffers)
    (resultHandler : ScanHandler) (c : Client)
    : unqlite_kv_cursor * buffers * Client * trace * outcome unit :=
  match fuel with
  | O => (cursor, b, c, [], returns tt)
  | S fuel' =>
      if unqlite_kv_cursor_valid_entry cursor then
        match fetchCursorData cursor b resultHandler c with
        | (b1, c1, t1, throws e) =>
            (cursor, b1, c1, ev_engine (call_cursor_valid_entry true) :: t1, throws e)
        | (b1, c1, t1, returns _) =>
            let '(_, cursor1) := unqlite_kv_cursor_next_entry cursor in
            let '(cursor2, b2, c2, t2, exit) :=
              scan_loop fuel' cursor1 b1 resultHandler c1 in
            (cursor2, b2, c2,
             ev_engine (call_cursor_valid_entry true) :: t1
             ++ ev_engine call_cursor_next_entry :: t2,
             exit)
        end
      else (cursor, b, c, [ev_engine (call_cursor_valid_entry false)], returns tt)
  end.

(** [void Storage::scan(const char *keyData, uint keySize, resultHandler, errorHandler)]:
    the two [free] and [unqlite_kv_cursor_release] are the last statements
    of the function, reached only when the body before them returned. *)
Definition scan (d : Private) (keyData : pointer) (keySize : Z)
    (resultHandler : ScanHandler) (errorHandler : ErrorHandler) (c : Client)
    : Private * Client * trace * outcome unit :=
  match db d with
  | None =>
      let error := mkError (name d) (-1) "Not open" in
      match errorHandler c error with
      | (returns _, c') => (d, c', [ev_error error], returns tt)
      | (throws e, c') => (d, c', [], throws e)
      end
  | Some h =>
      let '(rc, cursor, h1) := unqlite_kv_cursor_init h in
      let d1 := set_db d (Some h1) in
      if negb (rc =? UNQLITE_OK) then
        let '(c', t, exit) :=
          reportDbError_handler d1 "unqlite_kv_cursor_init" rc errorHandler c in
        (d1, c', ev_engine (call_cursor_init rc) :: t, exit)
      else
        let b := mkBuffers None 0 None 0 in
        let '(cursor', b', c', t, exit) :=
          if is_null keyData || (keySize =? 0) then
            let '(_, cursor0) := unqlite_kv_cursor_first_entry cursor in
            let '(cursor1, b1, c1, t1, exit) :=
              scan_loop (S (cursor_remaining cursor0)) cursor0 b resultHandler c in
            (cursor1, b1, c1, ev_engine call_cursor_first_entry :: t1, exit)
          else
            let '(rc, cursor0) :=
              unqlite_kv_cursor_seek cursor keyData keySize UNQLITE_CURSOR_MATCH_EXACT in
            if rc =? UNQLITE_OK then
              let '(b1, c1, t1, exit) := fetchCursorData cursor0 b resultHandler c in
              (cursor0, b1, c1, ev_engine (call_cursor_seek keyData keySize rc) :: t1, exit)
            else
              (cursor0, b, c,
               [ev_engine (call_cursor_seek keyData keySize rc);
                ev_cout ("couldn't find value " ++ std_string keyData keySize ++ endl)%string],
               returns tt)
        in
        match exit with
        | throws e => (d1, c', ev_engine (call_cursor_init rc) :: t, throws e)
        | returns _ =>
            let '(_, h2) := unqlite_kv_cursor_release h1 cursor' in
            (set_db d (Some h2), c',
             ev_engine (call_cursor_init rc) :: t
             ++ [ev_free KeyBuffer; ev_free DataBuffer; ev_engine call_cursor_release],
             returns tt)
        end
  end.

(** [void Storage::read(const std::string &sKey,
    const std::function<bool(void *ptr, int size)> &resultHandler, errorHandler)] *)
Definition read (d : Private) (sKey : string) (resultHandler : RawValueHandler)
    (errorHandler : ErrorHandler) (c : Client) : Private * Client * trace * outcome unit :=
  scan d (data sKey) (to_uint (size sKey))
       (fun c keyPtr keySize valuePtr valueSize => resultHandler c valuePtr valueSize)
       errorHandler c.

(** [void Storage::read(const std::string &sKey,
    const std::function<bool(const std::string &value)> &resultHandler, errorHandler)]:
    [std::string(ptr, size)] takes its length as [size_t]; a negative [int]
    converts to a length above [max_size()], and the constructor throws
    [std::length_error]. *)
Definition read_string (d : Private) (sKey : string) (resultHandler : StringValueHandler)
    (errorHandler : ErrorHandler) (c : Client) : Private * Client * trace * outcome unit :=
  read d sKey
       (fun c ptr size =>
          if negb (is_null ptr) then
            if size <? 0 then (throws std_length_error, c)
            else
              let resultValue := std_string ptr size in
              resultHandler c resultValue
          else (returns true, c))
       errorHandler c.

End Storage.

End Unwinding.

(** The handlers of [Storage] above, as handlers that never throw. *)
Definition returning_scan {Client : Type} (resultHandler : @ScanHandler Client)
    : @Unwinding.ScanHandler Client :=
  fun c keyPtr keySize valuePtr valueSize =>
    let '(continue, c') := resultHandler c keyPtr keySize valuePtr valueSize in
    (returns continue, c').

Definition returning_error {Client : Type} (errorHandler : @ErrorHandler Client)
    : @Unwinding.ErrorHandler Client :=
  fun c error => (returns tt, errorHandler c error).



Definition is_realloc (e : event) : bool :=
  match e with
  | ev_realloc _ _ => true
  | _ => false
  end.

(** Callers whose handlers throw. *)
Module Throwers.


Definition ignore_error : @Unwinding.ErrorHandler (list string) :=
  fun c _ => (returns tt, c).

(** A caller that keeps the strings it is handed, latest first. *)
Definition keep_string : @Unwinding.StringValueHandler (list string) :=
  fun c value => (returns true, value :: c).

(** A value of 2^31 bytes. *)
Definition huge_value : string := zeros (Z.to_nat (2 ^ 31)).

End Throwers.

(** * Properties *)

(** ** Transaction control *)

Section TransactionProperties.

Context {E : Engine}.

Lemma startTransaction_closed (d : Private) (type : AccessMode) :
  db d = None -> startTransaction d type = (false, d, []).
Proof. intros Hdb. unfold startTransaction. now rewrite Hdb. Qed.

Lemma startTransaction_active (d : Private) (h : unqlite) (type : AccessMode) :
  db d = Some h -> inTransaction d = true -> startTransaction d type = (true, d, []).
Proof. intros Hdb Htx. unfold startTransaction. now rewrite Hdb, Htx. Qed.

Lemma startTransaction_idle (d : Private) (h : unqlite) (type : AccessMode) :
  db d = Some h -> inTransaction d = false ->
  let rc := fst (unqlite_begin h) in
  let d1 := set_inTransaction (set_db d (Some (snd (unqlite_begin h)))) (rc =? UNQLITE_OK) in
  startTransaction d type
  = (rc =? UNQLITE_OK, d1,
     ev_engine (call_begin rc)
     :: (if rc =? UNQLITE_OK then [] else reportDbError d1 "unqlite_begin")).
Proof.
  intros Hdb Htx. unfold startTransaction. rewrite Hdb, Htx.
  destruct (unqlite_begin h) as [rc h']. simpl.
  now destruct (rc =? UNQLITE_OK).
Qed.

Lemma commitTransaction_closed (d : Private) :
  db d = None -> commitTransaction d = (false, d, []).
Proof. intros Hdb. unfold commitTransaction. now rewrite Hdb. Qed.

Lemma commitTransaction_idle (d : Private) (h : unqlite) :
  db d = Some h -> inTransaction d = false -> commitTransaction d = (true, d, []).
Proof. intros Hdb Htx. unfold commitTransaction. now rewrite Hdb, Htx. Qed.

Lemma abortTransaction_closed (d : Private) :
  db d = None -> abortTransaction d = (d, []).
Proof. intros Hdb. unfold abortTransaction. now rewrite Hdb. Qed.

Lemma abortTransaction_idle (d : Private) :
  inTransaction d = false -> abortTransaction d = (d, []).
Proof.
  intros Htx. unfold abortTransaction. rewrite Htx. now destruct (db d).
Qed.

Lemma abortTransaction_active (d : Private) (h : unqlite) :
  db d = Some h -> inTransaction d = true ->
  abortTransaction d
  = (set_inTransaction (set_db d (Some (snd (unqlite_rollback h)))) false,
     [ev_engine (call_rollback (fst (unqlite_rollback h)))]).
Proof.
  intros Hdb Htx. unfold abortTransaction. rewrite Hdb, Htx.
  now destruct (unqlite_rollback h).
Qed.

(** C2: on a store with an open handle and an active transaction,
    [commitTransaction] calls the engine's commit, leaves [isInTransaction()]
    false whatever the engine answers, and returns true exactly when the
    engine's commit reported [UNQLITE_OK]. *)
Theorem commitTransaction_active (d : Private) (h : unqlite) :
  db d = Some h -> inTransaction d = true ->
  let '(ok, d', t) := commitTransaction d in
  isInTransaction d' = false
  /\ (ok = true <-> fst (unqlite_commit h) = UNQLITE_OK)
  /\ hd_error t = Some (ev_engine (call_commit (fst (unqlite_commit h)))).
Proof.
  intros Hdb Htx. unfold commitTransaction. rewrite Hdb, Htx.
  destruct (unqlite_commit h) as [rc h']. simpl.
  repeat split; try reflexivity; intros H.
  - now apply Z.eqb_eq.
  - now apply Z.eqb_eq.
Qed.

(** C4, as amended: on an open store whose engine accepts the begin,
    [startTransaction] called twice in a row returns true both times, calls
    the engine only the first time, and leaves the store Active; while Idle,
    [commitTransaction] returns true and [abortTransaction] (which returns
    no value) returns, and both leave the store as it is without calling
    the engine. *)
Theorem startTransaction_twice_commit_abort_idle
    (d : Private) (h : unqlite) (type1 type2 : AccessMode) :
  db d = Some h ->
  (inTransaction d = false -> fst (unqlite_begin h) = UNQLITE_OK) ->
  (let '(r1, d1, t1) := startTransaction d type1 in
   let '(r2, d2, t2) := startTransaction d1 type2 in
   r1 = true /\ r2 = true /\ isInTransaction d2 = true /\ d2 = d1 /\ t2 = [])
  /\ (inTransaction d = false ->
      commitTransaction d = (true, d, []) /\ abortTransaction d = (d, [])).
Proof.
  intros Hdb Hbegin. split.
  - destruct (inTransaction d) eqn:Htx.
    + rewrite (startTransaction_active d h type1 Hdb Htx).
      rewrite (startTransaction_active d h type2 Hdb Htx).
      now repeat split.
    + specialize (Hbegin eq_refl).
      rewrite (startTransaction_idle d h type1 Hdb Htx).
      apply Z.eqb_eq in Hbegin. rewrite Hbegin.
      erewrite startTransaction_active; [now repeat split | reflexivity | reflexivity].
  - intros Htx. split.
    + now apply commitTransaction_idle with h.
    + now apply abortTransaction_idle.
Qed.

End TransactionProperties.

(** ** Point operations *)

Section PointProperties.

Context {E : Engine}.
Context {Client : Type}.
Variable basicErrorHandler : @ErrorHandler Client.

Lemma write_closed (d : Private) (key : pointer) (keySize : Z) (value : pointer)
    (valueSize : Z) :
  db d = None -> write d key keySize value valueSize = (false, d, []).
Proof. intros Hdb. unfold write. now rewrite Hdb. Qed.

Lemma scan_closed (d : Private) (keyData : pointer) (keySize : Z)
    (resultHandler : ScanHandler) (errorHandler : ErrorHandler) (c : Client) :
  db d = None ->
  scan d keyData keySize resultHandler errorHandler c
  = (d, errorHandler c (NotOpen d), [ev_error (NotOpen d)]).
Proof. intros Hdb. unfold scan. now rewrite Hdb. Qed.

Lemma remove_closed (d : Private) (keyData : pointer) (keySize : Z)
    (errorHandler : ErrorHandler) (c : Client) :
  db d = None ->
  remove d keyData keySize errorHandler c
  = (d, errorHandler c (NotOpen d), [ev_error (NotOpen d)]).
Proof. intros Hdb. unfold remove. now rewrite Hdb. Qed.

Lemma remove_open (d : Private) (h : unqlite) (keyData : pointer) (keySize : Z)
    (errorHandler : ErrorHandler) (c : Client) :
  db d = Some h ->
  remove d keyData keySize errorHandler c
  = (set_db d (Some (snd (unqlite_kv_delete h keyData keySize))), c,
     [ev_engine (call_kv_delete keyData keySize (fst (unqlite_kv_delete h keyData keySize)))]).
Proof.
  intros Hdb. unfold remove. rewrite Hdb.
  now destruct (unqlite_kv_delete h keyData keySize).
Qed.

(** C5: on a store whose engine handle is null, [write] (both overloads),
    [startTransaction] and [commitTransaction] return false, and [read] (both
    overloads), [remove] (both overloads) and [scan] call the error handler
    once, with the error of code -1 and message "Not open" under the store's
    name; none of them calls the engine, writes a diagnostic or changes the
    store, and [abortTransaction] does nothing. *)
Theorem closed_store_fails (d : Private) :
  db d = None ->
  (forall key keySize value valueSize,
      write d key keySize value valueSize = (false, d, []))
  /\ (forall sKey sValue, write_string d sKey sValue = (false, d, []))
  /\ (forall type, startTransaction d type = (false, d, []))
  /\ commitTransaction d = (false, d, [])
  /\ abortTransaction d = (d, [])
  /\ (forall sKey (resultHandler : RawValueHandler) (errorHandler : ErrorHandler) (c : Client),
         read d sKey resultHandler errorHandler c
         = (d, errorHandler c (NotOpen d), [ev_error (NotOpen d)]))
  /\ (forall sKey (resultHandler : StringValueHandler) (errorHandler : ErrorHandler) (c : Client),
         read_string d sKey resultHandler errorHandler c
         = (d, errorHandler c (NotOpen d), [ev_error (NotOpen d)]))
  /\ (forall keyData keySize (errorHandler : ErrorHandler) (c : Client),
         remove d keyData keySize errorHandler c
         = (d, errorHandler c (NotOpen d), [ev_error (NotOpen d)]))
  /\ (forall keyData keySize (c : Client),
         remove_default basicErrorHandler d keyData keySize c
         = (d, basicErrorHandler c (NotOpen d), [ev_error (NotOpen d)]))
  /\ (forall keyData keySize (resultHandler : ScanHandler) (errorHandler : ErrorHandler)
             (c : Client),
         scan d keyData keySize resultHandler errorHandler c
         = (d, errorHandler c (NotOpen d), [ev_error (NotOpen d)])).
Proof.
  intros Hdb. repeat split; intros.
  - now apply write_closed.
  - unfold write_string. now apply write_closed.
  - now apply startTransaction_closed.
  - now apply commitTransaction_closed.
  - now apply abortTransaction_closed.
  - unfold read. now apply scan_closed.
  - unfold read_string, read. now apply scan_closed.
  - now apply remove_closed.
  - unfold remove_default. now apply remove_closed.
  - now apply scan_closed.
Qed.

(** C8: [remove] calls the error handler exactly when the handle is null,
    then with the "Not open" error and without calling the engine; when the
    handle is open it calls the engine's delete once, with the caller's key,
    and does not call the error handler, whatever the delete returns. *)
Theorem remove_reports_only_not_open (d : Private) (keyData : pointer) (keySize : Z)
    (errorHandler : ErrorHandler) (c : Client) :
  let '(d', c', t) := remove d keyData keySize errorHandler c in
  (existsb is_error t = true <-> db d = None)
  /\ (db d = None ->
      t = [ev_error (NotOpen d)] /\ c' = errorHandler c (NotOpen d)
      /\ existsb is_engine_call t = false)
  /\ (forall h, db d = Some h ->
      t = [ev_engine (call_kv_delete keyData keySize
                        (fst (unqlite_kv_delete h keyData keySize)))]
      /\ c' = c).
Proof.
  destruct (db d) as [h|] eqn:Hdb.
  - rewrite (remove_open d h keyData keySize errorHandler c Hdb).
    split; [|split].
    + simpl. split; discriminate.
    + discriminate.
    + intros h' Hh'. injection Hh' as <-. now split.
  - rewrite (remove_closed d keyData keySize errorHandler c Hdb).
    split; [|split].
    + simpl. now split.
    + intros _. now repeat split.
    + discriminate.
Qed.

End PointProperties.

(** ** Scans *)

Ltac break_match :=
  match goal with
  | |- context [match ?x with _ => _ end] =>
      lazymatch x with
      | context [match _ with _ => _ end] => fail
      | _ => destruct x eqn:?
      end
  end.

Section ScanProperties.

Context {E : Engine}.
Context {Client : Type}.

Lemma scan_body_not_release (t : trace) :
  forallb is_scan_body t = true -> existsb is_release t = false.
Proof.
  induction t as [|e t IH]; simpl; [reflexivity|].
  intros H. apply andb_true_iff in H as [He Ht]. rewrite (IH Ht).
  destruct e as [[]| | | | | | |]; simpl in *; congruence.
Qed.

Lemma fetchCursorData_events (cursor : unqlite_kv_cursor) (b : buffers)
    (resultHandler : ScanHandler) (c : Client) :
  forallb is_scan_body (snd (fetchCursorData cursor b resultHandler c)) = true.
Proof.
  unfold fetchCursorData. repeat break_match; simpl;
    repeat (rewrite forallb_app; simpl);
    repeat match goal with
           | H : (_, _) = (_, _) |- _ => inversion H; subst; clear H
           end; reflexivity.
Qed.

Lemma fetchCursorData_same_effect (cursor : unqlite_kv_cursor) (b : buffers)
    (f g : ScanHandler) (c : Client) :
  same_effect f g ->
  let '(b1, c1, t1) := fetchCursorData cursor b f c in
  let '(b2, c2, t2) := fetchCursorData cursor b g c in
  b1 = b2 /\ c1 = c2 /\ map forget_continue t1 = map forget_continue t2.
Proof.
  intros Hfg. unfold fetchCursorData.
  destruct (unqlite_kv_cursor_key cursor None 0) as [[rc1 p1] keyLength].
  destruct (negb (rc1 =? UNQLITE_OK)); [now repeat split|].
  destruct (unqlite_kv_cursor_data cursor None 0) as [[rc2 p2] dataLength].
  destruct (negb (rc2 =? UNQLITE_OK)); [now repeat split|].
  destruct (keyLength >? keyBufferLength b);
  match goal with
  | |- context [dataLength >? ?n] => destruct (dataLength >? n)
  end;
  match goal with
  | |- context [unqlite_kv_cursor_key cursor ?p ?n] =>
      destruct (unqlite_kv_cursor_key cursor p n) as [[rc3 keyPtr] keyLength']
  end;
  (destruct (negb (rc3 =? UNQLITE_OK)); [now repeat split|]);
  match goal with
  | |- context [unqlite_kv_cursor_data cursor ?p ?n] =>
      destruct (unqlite_kv_cursor_data cursor p n) as [[rc4 valuePtr] dataLength']
  end;
  (destruct (negb (rc4 =? UNQLITE_OK)); [now repeat split|]);
  match goal with
  | |- context [f c ?kp ?ks ?vp ?vs] =>
      specialize (Hfg c kp ks vp vs);
      destruct (f c kp ks vp vs) as [r1 c1]; destruct (g c kp ks vp vs) as [r2 c2]
  end;
  simpl in Hfg; subst; repeat split;
  repeat (rewrite map_app; simpl); reflexivity.
Qed.

Lemma scan_loop_events (fuel : nat) : forall (cursor : unqlite_kv_cursor) (b : buffers)
    (resultHandler : ScanHandler) (c : Client),
  forallb is_scan_body (snd (scan_loop fuel cursor b resultHandler c)) = true.
Proof.
  induction fuel as [|fuel IH]; intros cursor b resultHandler c; simpl; [reflexivity|].
  destruct (unqlite_kv_cursor_valid_entry cursor); [|reflexivity].
  pose proof (fetchCursorData_events cursor b resultHandler c) as Hfetch.
  destruct (fetchCursorData cursor b resultHandler c) as [[b1 c1] t1].
  destruct (unqlite_kv_cursor_next_entry cursor) as [rc cursor1].
  specialize (IH cursor1 b1 resultHandler c1).
  destruct (scan_loop fuel cursor1 b1 resultHandler c1) as [[[cursor2 b2] c2] t2].
  simpl in *. rewrite forallb_app. simpl. now rewrite Hfetch, IH.
Qed.

(** With the fuel [scan] gives it, the loop ends because the engine reports
    the cursor invalid, never because the fuel is used up. *)
Lemma scan_loop_ends_invalid (fuel : nat) : forall (cursor : unqlite_kv_cursor)
    (b : buffers) (resultHandler : ScanHandler) (c : Client),
  (cursor_remaining cursor < fuel)%nat ->
  exists body,
    snd (scan_loop fuel cursor b resultHandler c)
    = body ++ [ev_engine (call_cursor_valid_entry false)].
Proof.
  induction fuel as [|fuel IH]; intros cursor b resultHandler c Hfuel; [lia|].
  simpl. destruct (unqlite_kv_cursor_valid_entry cursor) eqn:Hvalid.
  - destruct (fetchCursorData cursor b resultHandler c) as [[b1 c1] t1].
    pose proof (cursor_next_decreases cursor Hvalid) as Hdec.
    destruct (unqlite_kv_cursor_next_entry cursor) as [rc cursor1]. simpl in Hdec.
    destruct (IH cursor1 b1 resultHandler c1 ltac:(lia)) as [body Hbody].
    destruct (scan_loop fuel cursor1 b1 resultHandler c1) as [[[cursor2 b2] c2] t2].
    simpl in *. subst t2.
    exists (ev_engine (call_cursor_valid_entry true) :: t1
            ++ ev_engine call_cursor_next_entry :: body).
    simpl. now rewrite <- app_assoc.
  - now exists [].
Qed.

Lemma scan_loop_same_effect (fuel : nat) : forall (cursor : unqlite_kv_cursor)
    (b : buffers) (f g : ScanHandler) (c : Client),
  same_effect f g ->
  let '(cursor1, b1, c1, t1) := scan_loop fuel cursor b f c in
  let '(cursor2, b2, c2, t2) := scan_loop fuel cursor b g c in
  cursor1 = cursor2 /\ b1 = b2 /\ c1 = c2
  /\ map forget_continue t1 = map forget_continue t2.
Proof.
  induction fuel as [|fuel IH]; intros cursor b f g c Hfg; simpl; [now repeat split|].
  destruct (unqlite_kv_cursor_valid_entry cursor); [|now repeat split].
  pose proof (fetchCursorData_same_effect cursor b f g c Hfg) as Hfetch.
  destruct (fetchCursorData cursor b f c) as [[b1 c1] t1].
  destruct (fetchCursorData cursor b g c) as [[b1' c1'] t1'].
  destruct Hfetch as (-> & -> & Ht1).
  destruct (unqlite_kv_cursor_next_entry cursor) as [rc cursor1].
  specialize (IH cursor1 b1' f g c1' Hfg).
  destruct (scan_loop fuel cursor1 b1' f c1') as [[[cursor2 b2] c2] t2].
  destruct (scan_loop fuel cursor1 b1' g c1') as [[[cursor2' b2'] c2'] t2'].
  destruct IH as (-> & -> & -> & Ht2).
  repeat split. simpl. rewrite !map_app. simpl. now rewrite Ht1, Ht2.
Qed.

(** The shape of every scan that got its cursor: the cursor is created,
    then come the events of the body, then the two buffers are freed and the
    cursor is released on the handle. *)
Lemma scan_open_shape (d : Private) (h h1 : unqlite) (cursor : unqlite_kv_cursor)
    (keyData : pointer) (keySize : Z) (resultHandler : ScanHandler)
    (errorHandler : ErrorHandler) (c : Client) :
  db d = Some h ->
  unqlite_kv_cursor_init h = (UNQLITE_OK, cursor, h1) ->
  exists cursor' body,
    fst (fst (scan d keyData keySize resultHandler errorHandler c))
    = set_db d (Some (snd (unqlite_kv_cursor_release h1 cursor')))
    /\ snd (scan d keyData keySize resultHandler errorHandler c)
       = ev_engine (call_cursor_init UNQLITE_OK) :: body
         ++ [ev_free KeyBuffer; ev_free DataBuffer; ev_engine call_cursor_release]
    /\ forallb is_scan_body body = true.
Proof.
  intros Hdb Hinit. unfold scan. rewrite Hdb, Hinit, Z.eqb_refl. simpl negb. cbv iota.
  destruct (is_null keyData || (keySize =? 0)).
  - destruct (unqlite_kv_cursor_first_entry cursor) as [rc0 cursor0].
    pose proof (scan_loop_events (S (cursor_remaining cursor0)) cursor0
                  (mkBuffers None 0 None 0) resultHandler c) as Hloop.
    destruct (scan_loop (S (cursor_remaining cursor0)) cursor0
                (mkBuffers None 0 None 0) resultHandler c) as [[[cursor1 b1] c1] t1].
    destruct (unqlite_kv_cursor_release h1 cursor1) as [rc2 h2] eqn:Hrel.
    exists cursor1, (ev_engine call_cursor_first_entry :: t1).
    rewrite Hrel. simpl in *. now repeat split.
  - destruct (unqlite_kv_cursor_seek cursor keyData keySize UNQLITE_CURSOR_MATCH_EXACT)
      as [rc0 cursor0].
    destruct (rc0 =? UNQLITE_OK).
    + pose proof (fetchCursorData_events cursor0 (mkBuffers None 0 None 0)
                    resultHandler c) as Hfetch.
      destruct (fetchCursorData cursor0 (mkBuffers None 0 None 0) resultHandler c)
        as [[b1 c1] t1].
      destruct (unqlite_kv_cursor_release h1 cursor0) as [rc2 h2] eqn:Hrel.
      exists cursor0, (ev_engine (call_cursor_seek keyData keySize rc0) :: t1).
      rewrite Hrel. simpl in *. now repeat split.
    + destruct (unqlite_kv_cursor_release h1 cursor0) as [rc2 h2] eqn:Hrel.
      exists cursor0,
        [ev_engine (call_cursor_seek keyData keySize rc0);
         ev_cout ("couldn't find value " ++ std_string keyData keySize ++ endl)%string].
      rewrite Hrel. simpl. now repeat split.
Qed.

(** A scan that gets no cursor: the error handler is called once, with the
    engine's status and the engine's log entry if there is one (the name of
    the failed function otherwise); there is no buffer to free and no cursor
    to release. *)
Lemma scan_cursor_init_failure (d : Private) (h h1 : unqlite) (rc : Z)
    (cursor : unqlite_kv_cursor) (keyData : pointer) (keySize : Z)
    (resultHandler : ScanHandler) (errorHandler : ErrorHandler) (c : Client) :
  db d = Some h ->
  unqlite_kv_cursor_init h = (rc, cursor, h1) ->
  rc <> UNQLITE_OK ->
  let '(d', c', t) := scan d keyData keySize resultHandler errorHandler c in
  exists error,
    store error = name d /\ code error = rc
    /\ c' = errorHandler c error
    /\ filter is_observable t = [ev_error error]
    /\ existsb is_release t = false.
Proof.
  intros Hdb Hinit Hrc. unfold scan. rewrite Hdb, Hinit.
  apply Z.eqb_neq in Hrc. rewrite Hrc. simpl negb. cbv iota.
  unfold reportDbError_handler. cbn [db set_db name].
  destruct (unqlite_config_err_log h1) as [errorMessage length].
  destruct (length >? 0); eexists; simpl; now repeat split.
Qed.

(** A scan on an open store whose cursor was initialised and whose handlers
    return ends, on every path (full scan, exact seek that finds the key,
    exact seek that does not, engine errors while fetching), by freeing the
    key buffer, freeing the value buffer and releasing the cursor on the
    engine handle, in this order, as its last three events; none of the
    three happens earlier in the scan. *)
Theorem scan_releases_when_handlers_return (d : Private) (h h1 : unqlite)
    (cursor : unqlite_kv_cursor) (keyData : pointer) (keySize : Z)
    (resultHandler : ScanHandler) (errorHandler : ErrorHandler) (c : Client) :
  db d = Some h ->
  unqlite_kv_cursor_init h = (UNQLITE_OK, cursor, h1) ->
  let '(d', c', t) := scan d keyData keySize resultHandler errorHandler c in
  exists cursor' body,
    t = ev_engine (call_cursor_init UNQLITE_OK) :: body
        ++ [ev_free KeyBuffer; ev_free DataBuffer; ev_engine call_cursor_release]
    /\ existsb is_release body = false
    /\ db d' = Some (snd (unqlite_kv_cursor_release h1 cursor')).
Proof.
  intros Hdb Hinit.
  destruct (scan_open_shape d h h1 cursor keyData keySize resultHandler errorHandler c
              Hdb Hinit) as (cursor' & body & Hd & Ht & Hbody).
  destruct (scan d keyData keySize resultHandler errorHandler c) as [[d' c'] t].
  simpl in Hd, Ht. exists cursor', body. subst d' t.
  repeat split. now apply scan_body_not_release.
Qed.

(** C7: an exact-seek scan (key pointer not null, key size not zero) on an
    open store in which the key is not present (the engine's exact seek
    finds no match) calls neither the result handler nor the error handler
    and fetches nothing; the line "couldn't find value <key>" on the
    standard output is its only observable effect. *)
Theorem scan_absent_key_is_silent (d : Private) (h : unqlite)
    (keyData : pointer) (keySize : Z)
    (resultHandler : ScanHandler) (errorHandler : ErrorHandler) (c : Client) :
  db d = Some h ->
  is_null keyData = false -> keySize <> 0 ->
  key_not_found h keyData keySize ->
  let '(d', c', t) := scan d keyData keySize resultHandler errorHandler c in
  c' = c
  /\ existsb is_result t = false
  /\ existsb is_error t = false
  /\ existsb is_fetch t = false
  /\ filter is_observable t
     = [ev_cout ("couldn't find value " ++ std_string keyData keySize ++ endl)%string].
Proof.
  intros Hdb Hnull Hsize (cursor & h1 & Hinit & Hseek). unfold scan.
  rewrite Hdb, Hinit, Z.eqb_refl, Hnull. simpl negb. cbv iota.
  apply Z.eqb_neq in Hsize. rewrite Hsize. simpl orb. cbv iota.
  destruct (unqlite_kv_cursor_seek cursor keyData keySize UNQLITE_CURSOR_MATCH_EXACT)
    as [rc0 cursor0].
  simpl in Hseek. apply Z.eqb_neq in Hseek. rewrite Hseek.
  destruct (unqlite_kv_cursor_release h1 cursor0) as [rc2 h2].
  now repeat split.
Qed.

(** C1, as amended: in full-scan mode (key pointer null or key size zero)
    the value the result handler returns is ignored.  The loop fetches
    entry after entry and leaves only when the engine reports the cursor
    invalid; the two buffers are then freed and the cursor released.  Two
    handlers that act alike on the caller and differ in what they return
    lead to the same store, the same caller state and the same events. *)
Theorem full_scan_ignores_handler_result (d : Private) (h h1 : unqlite)
    (cursor : unqlite_kv_cursor) (keyData : pointer) (keySize : Z)
    (resultHandler : ScanHandler) (errorHandler : ErrorHandler) (c : Client) :
  db d = Some h ->
  unqlite_kv_cursor_init h = (UNQLITE_OK, cursor, h1) ->
  is_null keyData || (keySize =? 0) = true ->
  (exists body,
      snd (scan d keyData keySize resultHandler errorHandler c)
      = ev_engine (call_cursor_init UNQLITE_OK) :: ev_engine call_cursor_first_entry
        :: body
        ++ [ev_engine (call_cursor_valid_entry false);
            ev_free KeyBuffer; ev_free DataBuffer; ev_engine call_cursor_release])
  /\ (forall resultHandler' : ScanHandler,
         same_effect resultHandler resultHandler' ->
         let '(d1, c1, t1) := scan d keyData keySize resultHandler errorHandler c in
         let '(d2, c2, t2) := scan d keyData keySize resultHandler' errorHandler c in
         d1 = d2 /\ c1 = c2 /\ map forget_continue t1 = map forget_continue t2).
Proof.
  intros Hdb Hinit Hfull. split.
  - unfold scan. rewrite Hdb, Hinit, Z.eqb_refl, Hfull. simpl negb. cbv iota.
    destruct (unqlite_kv_cursor_first_entry cursor) as [rc0 cursor0].
    destruct (scan_loop_ends_invalid (S (cursor_remaining cursor0)) cursor0
                (mkBuffers None 0 None 0) resultHandler c (Nat.lt_succ_diag_r _))
      as [body Hbody].
    destruct (scan_loop (S (cursor_remaining cursor0)) cursor0
                (mkBuffers None 0 None 0) resultHandler c) as [[[cursor1 b1] c1] t1].
    destruct (unqlite_kv_cursor_release h1 cursor1) as [rc2 h2].
    simpl in *. subst t1. exists body. now rewrite <- app_assoc.
  - intros resultHandler' Hsame. unfold scan.
    rewrite Hdb, Hinit, Z.eqb_refl, Hfull. simpl negb. cbv iota.
    destruct (unqlite_kv_cursor_first_entry cursor) as [rc0 cursor0].
    pose proof (scan_loop_same_effect (S (cursor_remaining cursor0)) cursor0
                  (mkBuffers None 0 None 0) resultHandler resultHandler' c Hsame) as Hloop.
    destruct (scan_loop (S (cursor_remaining cursor0)) cursor0
                (mkBuffers None 0 None 0) resultHandler c) as [[[cursor1 b1] c1] t1].
    destruct (scan_loop (S (cursor_remaining cursor0)) cursor0
                (mkBuffers None 0 None 0) resultHandler' c) as [[[cursor2 b2] c2] t2].
    destruct Hloop as (-> & -> & -> & Ht).
    destruct (unqlite_kv_cursor_release h1 cursor2) as [rc2 h2].
    repeat split. simpl. rewrite !map_app. simpl. now rewrite Ht.
Qed.

End ScanProperties.

(** ** The transaction flag *)

Section FlagInvariant.

Context {E : Engine}.
Context {Client : Type}.
Variable basicErrorHandler : @ErrorHandler Client.

Lemma forallb_excludes (p q : event -> bool) (t : trace) :
  (forall e, p e = true -> q e = false) ->
  forallb p t = true -> existsb q t = false.
Proof.
  intros Hpq. induction t as [|e t IH]; simpl; [reflexivity|].
  intros H. apply andb_true_iff in H as [He Ht].
  now rewrite (Hpq e He), (IH Ht).
Qed.

Lemma scan_body_not_transaction_end (e : event) :
  is_scan_body e = true -> is_transaction_end e = false.
Proof. destruct e as [[]| | | | | | |]; simpl; congruence. Qed.

Lemma reportDbError_quiet (d : Private) (functionName : string) :
  existsb is_transaction_end (reportDbError d functionName) = false.
Proof.
  unfold reportDbError. destruct (db d); [|reflexivity].
  now destruct (unqlite_config_err_log u).
Qed.

Lemma begun_extend (ok : Z) (t t' : trace) :
  begun_not_ended ok t -> existsb is_transaction_end t' = false ->
  begun_not_ended ok (t ++ t').
Proof.
  intros (before & after & -> & Hafter) Ht'.
  exists before, (after ++ t'). split.
  - now rewrite <- app_assoc.
  - rewrite existsb_app. now rewrite Hafter, Ht'.
Qed.

Lemma begun_prefix (ok : Z) (t t' : trace) :
  begun_not_ended ok t' -> begun_not_ended ok (t ++ t').
Proof.
  intros (before & after & -> & Hafter).
  exists (t ++ before), after. split; [now rewrite <- app_assoc | assumption].
Qed.

(** What a scan does to the store: the flag is untouched, a null handle
    stays null and an open one stays open, and the engine is asked neither
    to commit nor to roll back. *)
Lemma scan_keeps_flag (d : Private) (keyData : pointer) (keySize : Z)
    (resultHandler : ScanHandler) (errorHandler : ErrorHandler) (c : Client) :
  let '(d', c', t) := scan d keyData keySize resultHandler errorHandler c in
  inTransaction d' = inTransaction d
  /\ (db d = None -> d' = d)
  /\ (db d <> None -> db d' <> None)
  /\ existsb is_transaction_end t = false.
Proof.
  destruct (db d) as [h|] eqn:Hdb.
  - destruct (unqlite_kv_cursor_init h) as [[rc cursor] h1] eqn:Hinit.
    destruct (rc =? UNQLITE_OK) eqn:Hrc.
    + apply Z.eqb_eq in Hrc. subst rc.
      destruct (scan_open_shape d h h1 cursor keyData keySize resultHandler errorHandler c
                  Hdb Hinit) as (cursor' & body & Hd & Ht & Hbody).
      destruct (scan d keyData keySize resultHandler errorHandler c) as [[d' c'] t].
      simpl in Hd, Ht. subst d' t. repeat split; try discriminate.
      simpl. rewrite existsb_app. simpl.
      now rewrite (forallb_excludes _ _ body scan_body_not_transaction_end Hbody).
    + unfold scan. rewrite Hdb, Hinit, Hrc. simpl negb. cbv iota.
      unfold reportDbError_handler. cbn [db set_db].
      destruct (unqlite_config_err_log h1) as [errorMessage length].
      destruct (length >? 0); simpl; repeat split; discriminate.
  - rewrite (scan_closed d keyData keySize resultHandler errorHandler c Hdb).
    repeat split; congruence.
Qed.

Lemma write_keeps_flag (d : Private) (key : pointer) (keySize : Z) (value : pointer)
    (valueSize : Z) :
  let '(ok, d', t) := write d key keySize value valueSize in
  inTransaction d' = inTransaction d
  /\ (db d = None -> d' = d)
  /\ (db d <> None -> db d' <> None)
  /\ existsb is_transaction_end t = false.
Proof.
  unfold write. destruct (db d) as [h|] eqn:Hdb.
  - destruct (unqlite_kv_store h key keySize value valueSize) as [rc h'].
    simpl. repeat split; try discriminate.
    destruct (negb (rc =? UNQLITE_OK)); [apply reportDbError_quiet | reflexivity].
  - repeat split; congruence.
Qed.

Lemma remove_keeps_flag (d : Private) (keyData : pointer) (keySize : Z)
    (errorHandler : ErrorHandler) (c : Client) :
  let '(d', c', t) := remove d keyData keySize errorHandler c in
  inTransaction d' = inTransaction d
  /\ (db d = None -> d' = d)
  /\ (db d <> None -> db d' <> None)
  /\ existsb is_transaction_end t = false.
Proof.
  unfold remove. destruct (db d) as [h|] eqn:Hdb.
  - destruct (unqlite_kv_delete h keyData keySize) as [rc h'].
    simpl. repeat split; discriminate.
  - repeat split; congruence.
Qed.

Lemma keeps_flag_step (d d' : Private) (t : trace) :
  (inTransaction d = true -> db d <> None) ->
  keeps_flag d d' t -> flag_step d d' t.
Proof.
  intros Hpre (Hflag & Hnull & Hopen & Hquiet). split; [assumption|].
  intros Htx. rewrite Hflag in Htx. split.
  - apply Hopen. now apply Hpre.
  - left. now split.
Qed.

Lemma apply_op_flag (o : op) (d : Private) (c : Client) :
  (inTransaction d = true -> db d <> None) ->
  let '(d', c', t) := apply_op basicErrorHandler o d c in
  flag_step d d' t.
Proof.
  intros Hpre. destruct o; simpl.
  - (* startTransaction *)
    unfold startTransaction, flag_step. destruct (db d) as [h|] eqn:Hdb.
    + destruct (inTransaction d) eqn:Htx.
      * split; [discriminate|]. intros _. rewrite Hdb. split; [discriminate|]. now left.
      * destruct (unqlite_begin h) as [rc h']. simpl.
        split; [discriminate|]. intros Hrc. split; [discriminate|]. right.
        apply Z.eqb_eq in Hrc. subst rc. rewrite Z.eqb_refl. simpl.
        exists [], []. now split.
    + split; [reflexivity|]. intros Htx. now destruct (Hpre Htx).
  - (* commitTransaction *)
    unfold commitTransaction, flag_step. destruct (db d) as [h|] eqn:Hdb.
    + destruct (inTransaction d) eqn:Htx; simpl.
      * destruct (unqlite_commit h) as [rc h']. simpl.
        split; discriminate.
      * split; [discriminate|]. congruence.
    + split; [reflexivity|]. intros Htx. now destruct (Hpre Htx).
  - (* abortTransaction *)
    unfold abortTransaction, flag_step. destruct (db d) as [h|] eqn:Hdb.
    + destruct (inTransaction d) eqn:Htx; simpl.
      * destruct (unqlite_rollback h) as [rc h']. simpl.
        split; discriminate.
      * split; [discriminate|]. congruence.
    + split; [reflexivity|]. intros Htx. now destruct (Hpre Htx).
  - (* write *)
    pose proof (write_keeps_flag d key keySize value valueSize) as H.
    destruct (write d key keySize value valueSize) as [[ok d'] t].
    now apply keeps_flag_step.
  - (* write, strings *)
    unfold write_string.
    pose proof (write_keeps_flag d (data sKey) (size sKey) (data sValue) (size sKey)) as H.
    destruct (write d (data sKey) (size sKey) (data sValue) (size sKey)) as [[ok d'] t].
    now apply keeps_flag_step.
  - (* read *)
    unfold read.
    match goal with
    | |- context [scan d ?k ?n ?f ?g c] =>
        pose proof (scan_keeps_flag d k n f g c) as H;
        destruct (scan d k n f g c) as [[d' c'] t]
    end.
    now apply keeps_flag_step.
  - (* read, strings *)
    unfold read_string, read.
    match goal with
    | |- context [scan d ?k ?n ?f ?g c] =>
        pose proof (scan_keeps_flag d k n f g c) as H;
        destruct (scan d k n f g c) as [[d' c'] t]
    end.
    now apply keeps_flag_step.
  - (* remove *)
    pose proof (remove_keeps_flag d keyData keySize errorHandler c) as H.
    destruct (remove d keyData keySize errorHandler c) as [[d' c'] t].
    now apply keeps_flag_step.
  - (* remove, default handler *)
    unfold remove_default.
    pose proof (remove_keeps_flag d keyData keySize basicErrorHandler c) as H.
    destruct (remove d keyData keySize basicErrorHandler c) as [[d' c'] t].
    now apply keeps_flag_step.
  - (* scan *)
    pose proof (scan_keeps_flag d keyData keySize resultHandler errorHandler c) as H.
    destruct (scan d keyData keySize resultHandler errorHandler c) as [[d' c'] t].
    now apply keeps_flag_step.
  - (* isInTransaction *)
    apply keeps_flag_step; [assumption | now repeat split].
  - (* exists *)
    apply keeps_flag_step; [assumption | now repeat split].
Qed.

Lemma apply_op_preserves (o : op) (d : Private) (c : Client) (history : trace) :
  flag_invariant d history ->
  let '(d', c', t) := apply_op basicErrorHandler o d c in
  flag_invariant d' (history ++ t).
Proof.
  intros Hinv.
  pose proof (apply_op_flag o d c (fun Htx => proj1 (Hinv Htx))) as Hstep.
  destruct (apply_op basicErrorHandler o d c) as [[d' c'] t].
  destruct Hstep as [_ Hstep]. intros Htx'.
  destruct (Hstep Htx') as [Hopen [[Htx Hquiet] | Hbegun]].
  - split; [assumption|]. apply begun_extend; [|assumption]. now apply Hinv.
  - split; [assumption|]. now apply begun_prefix.
Qed.

Lemma Storage_ctor_flag (fs : filesystem) (storageRoot name : string) (mode : AccessMode)
    (allowDuplicates : bool) :
  inTransaction (fst (fst (Storage_ctor fs storageRoot name mode allowDuplicates))) = false.
Proof.
  unfold Storage_ctor, Private_ctor.
  now destruct (unqlite_open _ _ _) as [[rc h] fs'].
Qed.

(** C10: the transaction flag is set only on a store whose handle is not
    null and in whose history the engine accepted a begin with no commit or
    rollback asked after it.  The constructor establishes this, every
    operation preserves it, and on a null handle no operation changes the
    store at all, so none sets the flag there. *)
Theorem inTransaction_invariant :
  (forall fs storageRoot name mode allowDuplicates,
      let '(d, fs', t) := Storage_ctor fs storageRoot name mode allowDuplicates in
      flag_invariant d t)
  /\ (forall (o : op) (d : Private) (c : Client) (history : trace),
         flag_invariant d history ->
         let '(d', c', t) := apply_op basicErrorHandler o d c in
         flag_invariant d' (history ++ t))
  /\ (forall (o : op) (d : Private) (c : Client),
         db d = None -> inTransaction d = false ->
         let '(d', c', t) := apply_op basicErrorHandler o d c in
         d' = d /\ inTransaction d' = false).
Proof.
  split; [|split].
  - intros fs storageRoot name mode allowDuplicates.
    pose proof (Storage_ctor_flag fs storageRoot name mode allowDuplicates) as Hflag.
    destruct (Storage_ctor fs storageRoot name mode allowDuplicates) as [[d fs'] t].
    simpl in Hflag. intros Htx. congruence.
  - intros o d c history. apply apply_op_preserves.
  - intros o d c Hdb Htx.
    pose proof (apply_op_flag o d c ltac:(congruence)) as Hstep.
    destruct (apply_op basicErrorHandler o d c) as [[d' c'] t].
    destruct Hstep as [Hnull _]. rewrite (Hnull Hdb). now split.
Qed.

(** The invariant along a whole life: after the constructor and any list of
    operations. *)
Lemma run_flag_invariant (os : list op) : forall (d : Private) (c : Client) (history : trace),
  flag_invariant d history ->
  let '(d', c', t) := run basicErrorHandler os d c in
  flag_invariant d' (history ++ t).
Proof.
  induction os as [|o os IH]; intros d c history Hinv; simpl.
  - now rewrite app_nil_r.
  - pose proof (apply_op_preserves o d c history Hinv) as Hstep.
    destruct (apply_op basicErrorHandler o d c) as [[d1 c1] t1].
    specialize (IH d1 c1 (history ++ t1) Hstep).
    destruct (run basicErrorHandler os d1 c1) as [[d2 c2] t2].
    now rewrite app_assoc.
Qed.

End FlagInvariant.

(** ** Destruction *)

Section Destruction.

Context {E : Engine}.

(** Destroying a store whose transaction is active: the engine is asked to
    roll back, then to close the handle, and nothing else. *)
Lemma Storage_dtor_active (d : Private) (h : unqlite) (fs : filesystem) :
  db d = Some h -> inTransaction d = true ->
  Storage_dtor d fs
  = (snd (unqlite_close (Some (snd (unqlite_rollback h))) fs),
     [ev_engine (call_rollback (fst (unqlite_rollback h))); ev_engine call_close]).
Proof.
  intros Hdb Htx. unfold Storage_dtor. rewrite Htx.
  rewrite (abortTransaction_active d h Hdb Htx).
  unfold Private_dtor. simpl.
  now destruct (unqlite_close (Some (snd (unqlite_rollback h))) fs).
Qed.

Lemma Storage_dtor_idle (d : Private) (fs : filesystem) :
  inTransaction d = false ->
  Storage_dtor d fs = (snd (unqlite_close (db d) fs), [ev_engine call_close]).
Proof.
  intros Htx. unfold Storage_dtor. rewrite Htx. unfold Private_dtor.
  now destruct (unqlite_close (db d) fs).
Qed.

End Destruction.

(** ** Stores on the reference engine *)

Import RefEngine.

Section ReferenceStores.

Context {Client : Type}.
Variable basicErrorHandler : @ErrorHandler Client.

Lemma load_save (path : string) (t : table) (fs : disk) :
  load path (save path t fs) = t.
Proof.
  induction fs as [|[p t'] fs IH]; simpl.
  - now rewrite String.eqb_refl.
  - destruct (String.eqb path p) eqn:Hp; simpl.
    + now rewrite String.eqb_refl.
    + now rewrite Hp.
Qed.

Lemma Storage_ctor_ref (fs : disk) (storageRoot name : string) (mode : AccessMode)
    (allowDuplicates : bool) :
  let path := (storageRoot ++ s_unqliteDir ++ name)%string in
  exists d t,
    Storage_ctor fs storageRoot name mode allowDuplicates = (d, fs, t)
    /\ ref_state path None d
    /\ table_of d = load path fs.
Proof.
  unfold Storage_ctor, Private_ctor. simpl.
  eexists. eexists. split; [reflexivity|]. split.
  - eexists. simpl. now repeat split.
  - reflexivity.
Qed.

(** On the reference engine a scan leaves the store as it found it. *)
Lemma scan_ref_store (d : Private) (h : handle) (keyData : pointer) (keySize : Z)
    (resultHandler : ScanHandler) (errorHandler : ErrorHandler) (c : Client) :
  db d = Some h ->
  fst (fst (scan d keyData keySize resultHandler errorHandler c)) = d.
Proof.
  intros Hdb.
  destruct (scan_open_shape d h h (mkCursor (entries h) 0) keyData keySize
              resultHandler errorHandler c Hdb eq_refl) as (cursor' & body & Hd & _).
  rewrite Hd. simpl. destruct d. simpl in *. now subst.
Qed.

Lemma apply_op_ref (o : op) (d : Private) (c : Client) (path : string) (tx : option table) :
  ref_state path tx d ->
  let '(d', c', t) := apply_op basicErrorHandler o d c in
  (is_transaction_control o = false -> ref_state path tx d')
  /\ exists tx', ref_state path tx' d'.
Proof.
  intros (h & Hdb & Hfile & Hsaved & Hflag).
  assert (Hsame : ref_state path tx d) by (exists h; now repeat split).
  assert (Hquiet : forall d' : Private,
             inTransaction d' = inTransaction d ->
             (exists h', db d' = Some h' /\ file h' = file h /\ saved h' = saved h) ->
             ref_state path tx d').
  { intros d' Hflag' (h' & Hdb' & Hfile' & Hsaved').
    exists h'. repeat split; congruence. }
  destruct o; simpl.
  - (* startTransaction *)
    unfold startTransaction. rewrite Hdb. destruct (inTransaction d) eqn:Htx.
    + split; [discriminate | now exists tx].
    + simpl. unfold begin. destruct tx as [t|]; [discriminate|].
      rewrite Hsaved. simpl. split; [discriminate|].
      exists (Some (entries h)), (mkHandle (file h) (entries h) (Some (entries h))).
      now repeat split.
  - (* commitTransaction *)
    unfold commitTransaction. rewrite Hdb. destruct (inTransaction d) eqn:Htx; simpl.
    + split; [discriminate|].
      exists None, (mkHandle (file h) (entries h) None). now repeat split.
    + split; [discriminate | now exists tx].
  - (* abortTransaction *)
    unfold abortTransaction. rewrite Hdb. destruct (inTransaction d) eqn:Htx; simpl.
    + unfold rollback. destruct tx as [t|]; [|discriminate].
      rewrite Hsaved. simpl. split; [discriminate|].
      exists None, (mkHandle (file h) t None). now repeat split.
    + split; [discriminate | now exists tx].
  - (* write *)
    assert (ref_state path tx
              (set_db d (Some (snd (kv_store h key keySize value valueSize))))) as H.
    { apply Hquiet; [reflexivity|]. eexists. simpl. now repeat split. }
    unfold write. rewrite Hdb. simpl.
    split; [intros _; exact H | now exists tx].
  - (* write, strings *)
    assert (ref_state path tx
              (set_db d (Some (snd (kv_store h (data sKey) (size sKey) (data sValue)
                                             (size sKey)))))) as H.
    { apply Hquiet; [reflexivity|]. eexists. simpl. now repeat split. }
    unfold write_string, write. rewrite Hdb. simpl.
    split; [intros _; exact H | now exists tx].
  - (* read *)
    unfold read.
    match goal with
    | |- context [scan d ?k ?n ?f ?g c] =>
        pose proof (scan_ref_store d h k n f g c Hdb) as H;
        destruct (scan d k n f g c) as [[d' c'] t]
    end.
    simpl in H. subst d'. split; [intros _; exact Hsame | now exists tx].
  - (* read, strings *)
    unfold read_string, read.
    match goal with
    | |- context [scan d ?k ?n ?f ?g c] =>
        pose proof (scan_ref_store d h k n f g c Hdb) as H;
        destruct (scan d k n f g c) as [[d' c'] t]
    end.
    simpl in H. subst d'. split; [intros _; exact Hsame | now exists tx].
  - (* remove *)
    assert (ref_state path tx (set_db d (Some (snd (kv_delete h keyData keySize))))) as H.
    { apply Hquiet; [reflexivity|]. eexists. split; [reflexivity|].
      unfold kv_delete. now destruct (lookup _ _). }
    unfold remove. rewrite Hdb. simpl.
    destruct (kv_delete h keyData keySize) as [rc h'].
    split; [intros _; exact H | now exists tx].
  - (* remove, default handler *)
    assert (ref_state path tx (set_db d (Some (snd (kv_delete h keyData keySize))))) as H.
    { apply Hquiet; [reflexivity|]. eexists. split; [reflexivity|].
      unfold kv_delete. now destruct (lookup _ _). }
    unfold remove_default, remove. rewrite Hdb. simpl.
    destruct (kv_delete h keyData keySize) as [rc h'].
    split; [intros _; exact H | now exists tx].
  - (* scan *)
    pose proof (scan_ref_store d h keyData keySize resultHandler errorHandler c Hdb) as H.
    destruct (scan d keyData keySize resultHandler errorHandler c) as [[d' c'] t].
    simpl in H. subst d'. split; [intros _; exact Hsame | now exists tx].
  - (* isInTransaction *)
    split; [intros _; exact Hsame | now exists tx].
  - (* exists *)
    split; [intros _; exact Hsame | now exists tx].
Qed.

Lemma run_ref (os : list op) : forall (d : Private) (c : Client) (path : string)
    (tx : option table),
  ref_state path tx d ->
  let '(d', c', t) := run basicErrorHandler os d c in
  (forallb (fun o => negb (is_transaction_control o)) os = true -> ref_state path tx d')
  /\ exists tx', ref_state path tx' d'.
Proof.
  induction os as [|o os IH]; intros d c path tx Hstate; simpl.
  - split; [now intros _ | now exists tx].
  - pose proof (apply_op_ref o d c path tx Hstate) as Hstep.
    destruct (apply_op basicErrorHandler o d c) as [[d1 c1] t1].
    destruct Hstep as [Hquiet [tx1 Hstate1]].
    pose proof (IH d1 c1 path tx1 Hstate1) as Hany.
    pose proof (fun H => IH d1 c1 path tx (Hquiet H)) as Hsame.
    destruct (run basicErrorHandler os d1 c1) as [[d2 c2] t2].
    split; [|exact (proj2 Hany)].
    intros Hos. apply andb_true_iff in Hos as [Ho Hos].
    apply negb_true_iff in Ho. exact (proj1 (Hsame Ho) Hos).
Qed.

(** C6: on the reference engine, a store is constructed, used in any way
    ([before]) and idle; a transaction is started and the store is used
    further without committing or aborting ([during]: writes, removes, reads,
    scans); the store is then destroyed.  The destructor asks the engine to
    roll back and then to close the handle, and never to commit; the store
    constructed next on the same file holds the entries it held when the
    transaction started, so nothing written since is observable. *)
Theorem destroy_active_rolls_back
    (fs : disk) (storageRoot name : string) (mode : AccessMode) (allowDuplicates : bool)
    (before during : list op) (c : Client)
    (d0 : Private) (fs0 : disk) (t0 : trace) (d1 : Private) (c1 : Client) (t1 : trace) :
  Storage_ctor fs storageRoot name mode allowDuplicates = (d0, fs0, t0) ->
  run basicErrorHandler before d0 c = (d1, c1, t1) ->
  inTransaction d1 = false ->
  forallb (fun o => negb (is_transaction_control o)) during = true ->
  let '(started, d2, _) := startTransaction d1 ReadWrite in
  let '(d3, c3, _) := run basicErrorHandler during d2 c1 in
  let '(fs', t) := Storage_dtor d3 fs0 in
  let '(d4, _, _) := Storage_ctor fs' storageRoot name mode allowDuplicates in
  started = true
  /\ isInTransaction d3 = true
  /\ t = [ev_engine (call_rollback UNQLITE_OK); ev_engine call_close]
  /\ existsb is_commit t = false
  /\ table_of d4 = table_of d1.
Proof.
  intros Hctor Hrun Hidle Hduring.
  set (path := (storageRoot ++ s_unqliteDir ++ name)%string).
  destruct (Storage_ctor_ref fs storageRoot name mode allowDuplicates)
    as (d0' & t0' & Hctor' & Hstate0 & _).
  rewrite Hctor in Hctor'. injection Hctor' as <- <- <-.
  fold path in Hstate0.
  pose proof (run_ref before d0 c path None Hstate0) as Hbefore.
  rewrite Hrun in Hbefore. destruct Hbefore as [_ [tx1 (h1 & Hdb1 & Hfile1 & Hsaved1 & Hflag1)]].
  destruct tx1 as [tx1|]; [congruence|].
  (* the transaction starts *)
  set (d2 := set_inTransaction
               (set_db d1 (Some (mkHandle (file h1) (entries h1) (Some (entries h1)))))
               true).
  assert (Hstart : startTransaction d1 ReadWrite
                   = (true, d2, [ev_engine (call_begin UNQLITE_OK)])).
  { unfold startTransaction. rewrite Hdb1, Hidle. simpl. unfold begin.
    now rewrite Hsaved1. }
  rewrite Hstart. cbv beta iota.
  assert (Hstate2 : ref_state path (Some (entries h1)) d2).
  { exists (mkHandle (file h1) (entries h1) (Some (entries h1))). now repeat split. }
  pose proof (run_ref during d2 c1 path (Some (entries h1)) Hstate2) as Hrun2.
  destruct (run basicErrorHandler during d2 c1) as [[d3 c3] t3].
  destruct Hrun2 as [Hquiet _].
  destruct (Hquiet Hduring) as (h3 & Hdb3 & Hfile3 & Hsaved3 & Hflag3).
  (* the store is destroyed *)
  rewrite (Storage_dtor_active d3 h3 fs0 Hdb3 Hflag3). cbv beta iota.
  assert (Hrollback : @unqlite_rollback engine h3 = (OK, mkHandle path (entries h1) None)).
  { simpl. unfold rollback. now rewrite Hsaved3, Hfile3. }
  rewrite Hrollback. cbn [fst snd].
  change (@unqlite_close engine (Some (mkHandle path (entries h1) None)) fs0)
    with (OK, save path (entries h1) fs0).
  cbn [fst snd].
  (* and constructed again *)
  destruct (Storage_ctor_ref (save path (entries h1) fs0) storageRoot name mode
              allowDuplicates) as (d4 & t4 & Hctor4 & _ & Htable4).
  fold path in Htable4. rewrite Hctor4.
  repeat split.
  - exact Hflag3.
  - rewrite Htable4, load_save. unfold table_of. now rewrite Hdb1.
Qed.

End ReferenceStores.

(** ** Write, then read, on the reference engine *)

Lemma substring_prefix (s t : string) : substring 0 (String.length s) (s ++ t) = s.
Proof. induction s as [|a s IH]; simpl; [now destruct t | now rewrite IH]. Qed.

Lemma append_empty_r (s : string) : (s ++ "")%string = s.
Proof. induction s as [|a s IH]; simpl; [reflexivity | now rewrite IH]. Qed.

Lemma length_append (s t : string) :
  String.length (s ++ t) = (String.length s + String.length t)%nat.
Proof. induction s as [|a s IH]; simpl; [reflexivity | now rewrite IH]. Qed.

Lemma length_substring (n : nat) : forall s : string,
  String.length (substring 0 n s) = Nat.min n (String.length s).
Proof.
  induction n as [|n IH]; intros s; [now destruct s|].
  destruct s as [|a s]; simpl; [reflexivity | now rewrite IH].
Qed.

Lemma substring_all (s : string) : substring 0 (String.length s) s = s.
Proof. rewrite <- (append_empty_r s) at 2. apply substring_prefix. Qed.

Lemma length_zeros (n : nat) : String.length (zeros n) = n.
Proof. induction n; simpl; congruence. Qed.

Lemma substring_zeros_end (n : nat) : substring n 0 (zeros n) = "".
Proof. induction n; simpl; [reflexivity | assumption]. Qed.

Lemma substring_empty (n m : nat) : substring n m "" = "".
Proof. destruct n, m; reflexivity. Qed.

Lemma copy_out_size (src : string) (nByte : Z) : copy_out src None nByte = (OK, None, size src).
Proof. reflexivity. Qed.

Lemma copy_out_fresh (src : string) :
  copy_out src (realloc None (size src)) (size src) = (OK, Some src, size src).
Proof.
  unfold copy_out, realloc, size. simpl contents.
  rewrite Z.min_id, Nat2Z.id, substring_empty, Nat.sub_0_r. simpl append.
  rewrite length_zeros, Nat.sub_diag, substring_zeros_end, substring_all, append_empty_r.
  reflexivity.
Qed.

Lemma to_int_small (z : Z) : 0 <= z < 2 ^ 31 -> to_int z = z.
Proof. intros H. unfold to_int. rewrite Z.mod_small; lia. Qed.

Lemma size_nonneg (s : string) : 0 <= size s.
Proof. unfold size. lia. Qed.

Lemma size_zero (s : string) : size s = 0 -> s = "".
Proof. unfold size. destruct s; simpl; [reflexivity | lia]. Qed.

Lemma bytes_at_data (s : string) : bytes_at (data s) (size s) = s.
Proof. unfold bytes_at, data, size. simpl contents. rewrite Nat2Z.id. apply substring_prefix. Qed.

Lemma index_of_insert (k v : string) (t : table) :
  exists i, index_of k (insert k v t) = Some i /\ nth_error (insert k v t) i = Some (k, v).
Proof.
  induction t as [|[k' v'] t IH]; simpl.
  - rewrite String.eqb_refl. now exists O.
  - destruct (String.eqb k k') eqn:Hk; simpl.
    + rewrite String.eqb_refl. now exists O.
    + rewrite Hk. destruct IH as (i & Hi & Hnth). rewrite Hi. now exists (S i).
Qed.

Lemma values_of_app (t1 t2 : trace) : values_of (t1 ++ t2) = values_of t1 ++ values_of t2.
Proof.
  induction t1 as [|e t1 IH]; simpl; [reflexivity|].
  destruct e; simpl; now rewrite ?IH.
Qed.

Section RoundTrip.

Context {Client : Type}.

Lemma fetchCursorData_ref (items : table) (i : nat) (k v : string) (rh : ScanHandler)
    (c : Client) :
  nth_error items i = Some (k, v) ->
  size v < 2 ^ 31 ->
  values_of (snd (fetchCursorData (mkCursor items i) (mkBuffers None 0 None 0) rh c)) = [v].
Proof.
  intros Hnth Hv. unfold fetchCursorData.
  simpl. unfold cursor_key, cursor_data, current. simpl. rewrite Hnth.
  change (OK =? OK) with true. simpl negb. cbv iota.
  pose proof (size_nonneg v) as Hv0.
  destruct (size k >? 0); cbv iota beta; simpl dataBufferLength; simpl keyBuffer;
    destruct (size v >? 0) eqn:Hpos; cbv iota beta; simpl keyBuffer; simpl dataBuffer;
    rewrite ?copy_out_fresh, ?copy_out_size; change (OK =? OK) with true; simpl negb;
    cbv iota; rewrite ?copy_out_fresh, ?copy_out_size; change (OK =? OK) with true;
    simpl negb; cbv iota;
    match goal with
    | |- context [rh c ?kp ?ks ?vp ?vs] => destruct (rh c kp ks vp vs) as [continue c']
    end; simpl; unfold std_string; simpl contents; rewrite to_int_small by lia.
  all: try (unfold size; rewrite Nat2Z.id, substring_all; reflexivity).
  all: rewrite substring_empty; rewrite (size_zero v); [reflexivity | lia].
Qed.

Lemma scan_ref_found (d : Private) (h : handle) (keyData : pointer) (keySize : Z)
    (i : nat) (k v : string) (rh : ScanHandler) (eh : ErrorHandler) (c : Client) :
  db d = Some h ->
  is_null keyData = false -> keySize <> 0 ->
  index_of (bytes_at keyData keySize) (entries h) = Some i ->
  nth_error (entries h) i = Some (k, v) ->
  size v < 2 ^ 31 ->
  values_of (snd (scan d keyData keySize rh eh c)) = [v].
Proof.
  intros Hdb Hnull Hsize Hindex Hnth Hv. unfold scan. rewrite Hdb.
  change (@unqlite_kv_cursor_init engine h) with (OK, mkCursor (entries h) 0, h).
  cbv beta iota. change (OK =? @UNQLITE_OK engine) with true. simpl negb. cbv iota.
  rewrite Hnull. apply Z.eqb_neq in Hsize. rewrite Hsize. simpl orb. cbv iota.
  change (@unqlite_kv_cursor_seek engine (mkCursor (entries h) 0) keyData keySize
            (@UNQLITE_CURSOR_MATCH_EXACT engine))
    with (cursor_seek (mkCursor (entries h) 0) keyData keySize 1).
  unfold cursor_seek. simpl items. rewrite Hindex. cbv beta iota.
  change (OK =? @UNQLITE_OK engine) with true. cbv iota.
  pose proof (fetchCursorData_ref (entries h) i k v rh c Hnth Hv) as Hfetch.
  destruct (fetchCursorData _ _ rh c) as [[b1 c1] t1].
  simpl in Hfetch. simpl. rewrite values_of_app, Hfetch. reflexivity.
Qed.

(** What the engine was asked to store under a key is what a read of the
    key hands to the result handler. *)
Lemma store_then_read (d : Private) (h : handle) (K : string) (value : pointer)
    (valueSize : Z) (rh : RawValueHandler) (eh : ErrorHandler) (c : Client) :
  db d = Some h ->
  K <> "" -> size K < 2 ^ 32 ->
  size (bytes_at value valueSize) < 2 ^ 31 ->
  let '(ok, d1, _) := write d (data K) (size K) value valueSize in
  ok = true
  /\ values_of (snd (read d1 K rh eh c)) = [bytes_at value valueSize].
Proof.
  intros Hdb HK HsizeK Hv. unfold write. rewrite Hdb.
  change (@unqlite_kv_store engine h (data K) (size K) value valueSize)
    with (kv_store h (data K) (size K) value valueSize).
  unfold kv_store. cbv beta iota. split; [reflexivity|].
  rewrite bytes_at_data.
  destruct (index_of_insert K (bytes_at value valueSize) (entries h)) as (i & Hi & Hnth).
  unfold read.
  assert (Hsize : to_uint (size K) = size K).
  { unfold to_uint. apply Z.mod_small. pose proof (size_nonneg K). lia. }
  rewrite Hsize.
  eapply scan_ref_found with (i := i) (k := K).
  - reflexivity.
  - reflexivity.
  - intros H0. apply HK. now apply size_zero.
  - simpl entries. now rewrite bytes_at_data.
  - exact Hnth.
  - exact Hv.
Qed.

(** X17: on the reference engine the raw overload gives the value back:
    after [write(key, keySize, value, valueSize)] with the sizes of the two
    strings (key not empty, value shorter than 2^31 bytes), the read of the
    key hands the value to the result handler, once, unchanged in content
    and length. *)
Theorem write_then_read (d : Private) (h : handle) (K V : string)
    (rh : RawValueHandler) (eh : ErrorHandler) (c : Client) :
  db d = Some h ->
  K <> "" -> size K < 2 ^ 32 -> size V < 2 ^ 31 ->
  let '(ok, d1, _) := write d (data K) (size K) (data V) (size V) in
  ok = true /\ values_of (snd (read d1 K rh eh c)) = [V].
Proof.
  intros Hdb HK HsizeK HsizeV.
  pose proof (store_then_read d h K (data V) (size V) rh eh c Hdb HK HsizeK) as H.
  rewrite bytes_at_data in H. exact (H HsizeV).
Qed.

(** X18: on the reference engine, what the string overload of [write]
    stores and what a read of the key then hands over.  On an open store the
    overload succeeds with one call of the engine, which asks it to store
    [sKey.size()] bytes read at the value's buffer, whatever the length of
    the value; that buffer holds [sValue.size()] bytes and the terminating
    NUL, so a key more than one byte longer than the value makes the engine
    read past its end (what is stored then is outside this model of
    memory).  For a key that is not empty, is shorter than 2^31 bytes and is
    at most one byte longer than the value, the read hands over exactly the
    first [sKey.size()] bytes of the value's buffer: the value cut short
    when the key is shorter, the value and its NUL when the key is one byte
    longer.  They are the value that was written exactly when key and value
    have the same length. *)
Theorem write_string_then_read (d : Private) (h : handle) (K V : string)
    (rh : RawValueHandler) (eh : ErrorHandler) (c : Client) :
  db d = Some h ->
  let stored := substring 0 (String.length K) (V ++ NUL) in
  let '(ok, d1, t) := write_string d K V in
  ok = true
  /\ t = [ev_engine (call_kv_store (data K) (size K) (data V) (size K) OK)]
  /\ size (contents (data V)) = size V + 1
  /\ (K <> "" -> size K < 2 ^ 31 -> size K <= size V + 1 ->
      values_of (snd (read d1 K rh eh c)) = [stored]
      /\ (stored = V <-> String.length K = String.length V)).
Proof.
  intros Hdb stored.
  assert (Hstored : bytes_at (data V) (size K) = stored).
  { unfold bytes_at, data, size. simpl contents. now rewrite Nat2Z.id. }
  assert (Hbuffer : size (contents (data V)) = size V + 1).
  { unfold data, size. simpl contents. rewrite length_append. simpl. lia. }
  pose proof (store_then_read d h K (data V) (size K) rh eh c Hdb) as H.
  rewrite Hstored in H. unfold write_string.
  assert (Hwrite : write d (data K) (size K) (data V) (size K)
                   = (true, snd (fst (write d (data K) (size K) (data V) (size K))),
                      [ev_engine (call_kv_store (data K) (size K) (data V) (size K) OK)])).
  { unfold write. rewrite Hdb. reflexivity. }
  rewrite Hwrite in *.
  split; [reflexivity|]. split; [reflexivity|]. split; [exact Hbuffer|].
  intros HK HsizeK Hbound.
  assert (Hlen : String.length stored = String.length K).
  { unfold stored. rewrite length_substring, length_append. simpl.
    unfold size in Hbound. lia. }
  destruct H as [_ Hvalues];
    [exact HK | lia | unfold size; rewrite Hlen; exact HsizeK |].
  split; [exact Hvalues|]. split.
  - intros HV. rewrite <- Hlen. now rewrite HV.
  - intros HKV. unfold stored. rewrite HKV. apply substring_prefix.
Qed.

End RoundTrip.

(** ** The properties on concrete stores *)

Section ConcreteStores.

Import Examples.

Lemma commitTransaction_active_witness :
  db inbox_active = Some inbox_active_handle
  /\ inTransaction inbox_active = true
  /\ let '(ok, d', t) := commitTransaction inbox_active in
     isInTransaction d' = false
     /\ (ok = true <-> fst (unqlite_commit inbox_active_handle) = UNQLITE_OK)
     /\ hd_error t = Some (ev_engine (call_commit (fst (unqlite_commit inbox_active_handle)))).
Proof.
  split; [reflexivity|]. split; [reflexivity|].
  apply (commitTransaction_active inbox_active inbox_active_handle); reflexivity.
Defined.

(** A commit the engine refuses: [commitTransaction] returns false and
    reports on the diagnostic stream, and the flag is cleared all the same. *)
Lemma commitTransaction_refused :
  commitTransaction inbox_active_read_only
  = (false, set_inTransaction inbox_active_read_only false,
     [ev_engine (call_commit READ_ONLY); ev_engine call_config_err_log;
      ev_cerr ("ERROR: unqlite_commit: Read-only database" ++ endl)%string]).
Proof. reflexivity. Qed.

(** The claim of C4 as the specification words it, "on an open store
    startTransaction returns true both times", fails on a store whose engine
    refuses the begin: both calls return false and the store stays Idle. *)
Lemma startTransaction_refused_twice :
  let d := read_only_store "inbox" [("a", "1")] in
  let '(r1, d1, t1) := startTransaction d ReadWrite in
  let '(r2, d2, t2) := startTransaction d1 ReadWrite in
  db d <> None /\ r1 = false /\ r2 = false /\ isInTransaction d2 = false.
Proof. vm_compute. repeat split. discriminate. Qed.

Lemma startTransaction_twice_commit_abort_idle_witness :
  db inbox = Some inbox_handle
  /\ (inTransaction inbox = false -> fst (unqlite_begin inbox_handle) = UNQLITE_OK)
  /\ (let '(r1, d1, t1) := startTransaction inbox ReadWrite in
      let '(r2, d2, t2) := startTransaction d1 ReadOnly in
      r1 = true /\ r2 = true /\ isInTransaction d2 = true /\ d2 = d1 /\ t2 = [])
  /\ (inTransaction inbox = false ->
      commitTransaction inbox = (true, inbox, []) /\ abortTransaction inbox = (inbox, [])).
Proof.
  split; [reflexivity|]. split; [intros _; reflexivity|].
  apply (startTransaction_twice_commit_abort_idle inbox inbox_handle ReadWrite ReadOnly).
  - reflexivity.
  - intros _. reflexivity.
Defined.

Lemma closed_store_fails_witness :
  db (closed_store "inbox") = None
  /\ write_string (closed_store "inbox") "msg1" "hello" = (false, closed_store "inbox", [])
  /\ scan (closed_store "inbox") None 0 (count_result true) count_error (0, 0)%nat
     = (closed_store "inbox", (0, 1)%nat,
        [ev_error (mkError "inbox" (-1) "Not open")]).
Proof.
  split; [reflexivity|].
  pose proof (closed_store_fails (Client := counters) count_error (closed_store "inbox")
                eq_refl) as H.
  split.
  - exact (proj1 (proj2 H) "msg1" "hello").
  - exact (proj2 (proj2 (proj2 (proj2 (proj2 (proj2 (proj2 (proj2 (proj2 H))))))))
             None 0 (count_result true) count_error (0, 0)%nat).
Defined.

Lemma scan_releases_when_handlers_return_example :
  db inbox = Some inbox_handle
  /\ unqlite_kv_cursor_init inbox_handle = (UNQLITE_OK, inbox_cursor, inbox_handle)
  /\ let '(d', c', t) := scan inbox (data "b") 1 (count_result true) count_error (0, 0)%nat in
     exists cursor' body,
       t = ev_engine (call_cursor_init UNQLITE_OK) :: body
           ++ [ev_free KeyBuffer; ev_free DataBuffer; ev_engine call_cursor_release]
       /\ existsb is_release body = false
       /\ db d' = Some (snd (unqlite_kv_cursor_release inbox_handle cursor')).
Proof.
  split; [reflexivity|]. split; [reflexivity|].
  apply (scan_releases_when_handlers_return inbox inbox_handle inbox_handle inbox_cursor);
    reflexivity.
Defined.

Lemma scan_absent_key_is_silent_witness :
  db inbox = Some inbox_handle
  /\ is_null (data "zz") = false /\ 2 <> 0
  /\ key_not_found inbox_handle (data "zz") 2
  /\ let '(d', c', t) := scan inbox (data "zz") 2 (count_result true) count_error (0, 0)%nat in
     c' = (0, 0)%nat
     /\ existsb is_result t = false
     /\ existsb is_error t = false
     /\ existsb is_fetch t = false
     /\ filter is_observable t
        = [ev_cout ("couldn't find value " ++ std_string (data "zz") 2 ++ endl)%string].
Proof.
  assert (Habsent : key_not_found inbox_handle (data "zz") 2).
  { exists inbox_cursor, inbox_handle. split; [reflexivity | discriminate]. }
  split; [reflexivity|]. split; [reflexivity|]. split; [discriminate|].
  split; [exact Habsent|].
  apply (scan_absent_key_is_silent inbox inbox_handle);
    [reflexivity | reflexivity | discriminate | exact Habsent].
Defined.

(** The claim of C1 as the specification words it fails on the two-entry
    store: the handler returns false at the first entry, and the second
    entry is fetched and handed to it all the same. *)
Lemma full_scan_goes_on_after_false :
  let '(d', c', t) := scan inbox None 0 (count_result false) count_error (0, 0)%nat in
  fst c' = 2%nat
  /\ stops_at_first_false t = false
  /\ values_of t = ["1"; "22"].
Proof. vm_compute. now repeat split. Qed.

Lemma full_scan_ignores_handler_result_witness :
  db inbox = Some inbox_handle
  /\ unqlite_kv_cursor_init inbox_handle = (UNQLITE_OK, inbox_cursor, inbox_handle)
  /\ is_null None || (0 =? 0) = true
  /\ (exists body,
         snd (scan inbox None 0 (count_result false) count_error (0, 0)%nat)
         = ev_engine (call_cursor_init UNQLITE_OK) :: ev_engine call_cursor_first_entry
           :: body
           ++ [ev_engine (call_cursor_valid_entry false);
               ev_free KeyBuffer; ev_free DataBuffer; ev_engine call_cursor_release])
  /\ (forall resultHandler' : ScanHandler,
         same_effect (count_result false) resultHandler' ->
         let '(d1, c1, t1) :=
           scan inbox None 0 (count_result false) count_error (0, 0)%nat in
         let '(d2, c2, t2) := scan inbox None 0 resultHandler' count_error (0, 0)%nat in
         d1 = d2 /\ c1 = c2 /\ map forget_continue t1 = map forget_continue t2).
Proof.
  split; [reflexivity|]. split; [reflexivity|]. split; [reflexivity|].
  apply (full_scan_ignores_handler_result inbox inbox_handle inbox_handle inbox_cursor);
    reflexivity.
Defined.

(** C3: the specification's own scenario.  On the open ReadWrite store
    "inbox", [write("msg1", "hello")] asks the engine to store 4 bytes, the
    size of the key, and the read of "msg1" hands "hell" to the result
    handler: the value comes back one byte short. *)
Theorem write_string_msg1_hello_reads_hell :
  let '(ok, d', t) := write_string (store_of "inbox" [] None) "msg1" "hello" in
  ok = true
  /\ t = [ev_engine (call_kv_store (data "msg1") 4 (data "hello") 4 UNQLITE_OK)]
  /\ snd (fst (read_string d' "msg1" keep_value ignore_error [])) = ["hell"]
  /\ values_of (snd (read_string d' "msg1" keep_value ignore_error [])) = ["hell"].
Proof. vm_compute. now repeat split. Qed.

Lemma destroy_active_rolls_back_witness :
  Storage_ctor [] "/var" "inbox" ReadWrite false = (fresh_inbox, [], fresh_inbox_history)
  /\ run (fun c _ => c) before_transaction fresh_inbox tt
     = (inbox_with_a, tt, [ev_engine (call_kv_store (data "a") 1 (data "1") 1 0)])
  /\ inTransaction inbox_with_a = false
  /\ forallb (fun o => negb (is_transaction_control o)) during_transaction = true
  /\ let '(started, d2, _) := startTransaction inbox_with_a ReadWrite in
     let '(d3, c3, _) := run (fun c _ => c) during_transaction d2 tt in
     let '(fs', t) := Storage_dtor d3 [] in
     let '(d4, _, _) := Storage_ctor fs' "/var" "inbox" ReadWrite false in
     started = true
     /\ isInTransaction d3 = true
     /\ t = [ev_engine (call_rollback UNQLITE_OK); ev_engine call_close]
     /\ existsb is_commit t = false
     /\ table_of d4 = table_of inbox_with_a.
Proof.
  split; [reflexivity|]. split; [reflexivity|]. split; [reflexivity|].
  split; [reflexivity|].
  apply (destroy_active_rolls_back (fun c _ => c) [] "/var" "inbox" ReadWrite false
           before_transaction during_transaction tt fresh_inbox [] fresh_inbox_history
           inbox_with_a tt [ev_engine (call_kv_store (data "a") 1 (data "1") 1 0)]);
    reflexivity.
Defined.

Lemma remove_reports_only_not_open_witness :
  let '(d', c', t) := remove inbox (data "zz") 2 count_error (0, 0)%nat in
  (existsb is_error t = true <-> db inbox = None)
  /\ (db inbox = None ->
      t = [ev_error (NotOpen inbox)] /\ c' = count_error (0, 0)%nat (NotOpen inbox)
      /\ existsb is_engine_call t = false)
  /\ (forall h, db inbox = Some h ->
      t = [ev_engine (call_kv_delete (data "zz") 2
                        (fst (unqlite_kv_delete h (data "zz") 2)))]
      /\ c' = (0, 0)%nat).
Proof.
  exact (remove_reports_only_not_open inbox (data "zz") 2 count_error (0, 0)%nat).
Defined.

(** On the store above the engine's delete of the absent key "zz" fails,
    and the error handler is not called. *)
Lemma remove_absent_key_is_silent :
  remove inbox (data "zz") 2 count_error (0, 0)%nat
  = (inbox, (0, 0)%nat, [ev_engine (call_kv_delete (data "zz") 2 NOTFOUND)]).
Proof. reflexivity. Qed.

Lemma inTransaction_invariant_witness :
  let '(d', c', t) :=
    apply_op (fun c _ => c) (op_startTransaction ReadWrite) fresh_inbox tt in
  flag_invariant fresh_inbox fresh_inbox_history
  /\ flag_invariant d' (fresh_inbox_history ++ t)
  /\ inTransaction d' = true.
Proof.
  pose proof (@inTransaction_invariant engine unit (fun c _ => c)) as (Hctor & Hop & _).
  specialize (Hctor [] "/var" "inbox" ReadWrite false).
  specialize (Hop (op_startTransaction ReadWrite) fresh_inbox tt fresh_inbox_history
                Hctor).
  split; [exact Hctor|]. split; [exact Hop | reflexivity].
Defined.

End ConcreteStores.

(** * Further properties of the wrapper *)

(** ** Scans, on every engine *)

Section MoreScanProperties.

Context {E : Engine}.
Context {Client : Type}.

(** X1: when the engine cannot create the cursor, a scan on an open store
    calls the error handler exactly once, with the store's name, the
    engine's status and the engine's log entry (the name of the failed
    function when the log is empty); it calls no cursor function, hands over
    no entry, and frees and releases nothing. *)
Theorem scan_without_cursor (d : Private) (h h1 : unqlite) (rc : Z)
    (cursor : unqlite_kv_cursor) (keyData : pointer) (keySize : Z)
    (resultHandler : ScanHandler) (errorHandler : ErrorHandler) (c : Client) :
  db d = Some h ->
  unqlite_kv_cursor_init h = (rc, cursor, h1) ->
  rc <> UNQLITE_OK ->
  let logged := unqlite_config_err_log h1 in
  let error :=
    mkError (name d) rc
            (if snd logged >? 0 then fst logged else "unqlite_kv_cursor_init") in
  scan d keyData keySize resultHandler errorHandler c
  = (set_db d (Some h1), errorHandler c error,
     [ev_engine (call_cursor_init rc); ev_engine call_config_err_log; ev_error error]).
Proof.
  intros Hdb Hinit Hrc. unfold scan. rewrite Hdb, Hinit.
  apply Z.eqb_neq in Hrc. rewrite Hrc. simpl negb. cbv iota.
  unfold reportDbError_handler. cbn [db set_db name].
  destruct (unqlite_config_err_log h1) as [errorMessage length]. cbn [fst snd].
  now destruct (length >? 0).
Qed.

Lemma fetchCursorData_result_count (cursor : unqlite_kv_cursor) (b : buffers)
    (resultHandler : ScanHandler) (c : Client) :
  (result_count (snd (fetchCursorData cursor b resultHandler c)) <= 1)%nat.
Proof.
  unfold fetchCursorData, result_count. repeat break_match; simpl;
    repeat match goal with
           | H : (_, _) = (_, _) |- _ => inversion H; subst; clear H
           end;
    repeat (rewrite filter_app; simpl); rewrite ?app_nil_r; simpl; lia.
Qed.

(** X2: an exact-seek scan (key pointer not null, key size not zero), on any
    store and any engine, calls the result handler at most once, and what
    the handler returns changes nothing: two handlers that act alike on the
    caller lead to the same store, caller state and events. *)
Theorem exact_seek_hands_at_most_one (d : Private) (keyData : pointer) (keySize : Z)
    (resultHandler : ScanHandler) (errorHandler : ErrorHandler) (c : Client) :
  is_null keyData = false -> keySize <> 0 ->
  (result_count (snd (scan d keyData keySize resultHandler errorHandler c)) <= 1)%nat
  /\ (forall resultHandler' : ScanHandler,
         same_effect resultHandler resultHandler' ->
         let '(d1, c1, t1) := scan d keyData keySize resultHandler errorHandler c in
         let '(d2, c2, t2) := scan d keyData keySize resultHandler' errorHandler c in
         d1 = d2 /\ c1 = c2 /\ map forget_continue t1 = map forget_continue t2).
Proof.
  intros Hnull Hsize. apply Z.eqb_neq in Hsize. unfold scan, result_count.
  destruct (db d) as [h|]; [|split; [simpl; lia | now intros]].
  destruct (unqlite_kv_cursor_init h) as [[rc cursor] h1].
  destruct (negb (rc =? UNQLITE_OK)).
  - destruct (reportDbError_handler _ _ _ _ _) as [c' t] eqn:Hreport.
    split; [|now intros].
    unfold reportDbError_handler in Hreport.
    repeat match type of Hreport with
           | context [match ?x with _ => _ end] => destruct x
           end; inversion Hreport; subst; simpl; lia.
  - rewrite Hnull, Hsize. simpl orb. cbv iota.
    destruct (unqlite_kv_cursor_seek cursor keyData keySize UNQLITE_CURSOR_MATCH_EXACT)
      as [rc0 cursor0].
    destruct (rc0 =? UNQLITE_OK).
    + split.
      * pose proof (fetchCursorData_result_count cursor0 (mkBuffers None 0 None 0)
                      resultHandler c) as Hcount.
        destruct (fetchCursorData cursor0 (mkBuffers None 0 None 0) resultHandler c)
          as [[b1 c1] t1].
        destruct (unqlite_kv_cursor_release h1 cursor0) as [rc2 h2].
        unfold result_count in *. simpl in *. rewrite filter_app. simpl.
        now rewrite app_nil_r.
      * intros resultHandler' Hsame.
        pose proof (fetchCursorData_same_effect cursor0 (mkBuffers None 0 None 0)
                      resultHandler resultHandler' c Hsame) as Hfetch.
        destruct (fetchCursorData cursor0 (mkBuffers None 0 None 0) resultHandler c)
          as [[b1 c1] t1].
        destruct (fetchCursorData cursor0 (mkBuffers None 0 None 0) resultHandler' c)
          as [[b2 c2] t2].
        destruct Hfetch as (_ & -> & Ht).
        destruct (unqlite_kv_cursor_release h1 cursor0) as [rc2 h2].
        repeat split. simpl. rewrite !map_app. now rewrite Ht.
    + destruct (unqlite_kv_cursor_release h1 cursor0) as [rc2 h2].
      split; [simpl; lia | now intros].
Qed.

Lemma scan_body_not_error (e : event) : is_scan_body e = true -> is_error e = false.
Proof. destruct e as [[]| | | | | | |]; simpl; congruence. Qed.

Lemma scan_body_not_cerr (e : event) :
  is_scan_body e = true -> (match e with ev_cerr _ => true | _ => false end) = false.
Proof. destruct e as [[]| | | | | | |]; simpl; congruence. Qed.

Lemma scan_open_no_error (d : Private) (h h1 : unqlite)
    (cursor : unqlite_kv_cursor) (keyData : pointer) (keySize : Z)
    (resultHandler : ScanHandler) (errorHandler : ErrorHandler) (c : Client) :
  db d = Some h ->
  unqlite_kv_cursor_init h = (UNQLITE_OK, cursor, h1) ->
  existsb is_error (snd (scan d keyData keySize resultHandler errorHandler c)) = false.
Proof.
  intros Hdb Hinit.
  destruct (scan_open_shape d h h1 cursor keyData keySize resultHandler errorHandler c
              Hdb Hinit) as (cursor' & body & _ & Ht & Hbody).
  rewrite Ht. simpl. rewrite existsb_app. simpl.
  now rewrite (forallb_excludes _ _ body scan_body_not_error Hbody).
Qed.

(** X3: once its cursor is created, a scan never calls the error handler
    and writes nothing to the error stream, whatever the engine answers to
    the cursor calls that follow: an entry the engine fails to deliver is
    skipped without a report. *)
Theorem scan_reports_nothing_after_init (d : Private) (h h1 : unqlite)
    (cursor : unqlite_kv_cursor) (keyData : pointer) (keySize : Z)
    (resultHandler : ScanHandler) (errorHandler : ErrorHandler) (c : Client) :
  db d = Some h ->
  unqlite_kv_cursor_init h = (UNQLITE_OK, cursor, h1) ->
  let t := snd (scan d keyData keySize resultHandler errorHandler c) in
  existsb is_error t = false
  /\ existsb (fun e => match e with ev_cerr _ => true | _ => false end) t = false.
Proof.
  intros Hdb Hinit.
  destruct (scan_open_shape d h h1 cursor keyData keySize resultHandler errorHandler c
              Hdb Hinit) as (cursor' & body & _ & Ht & Hbody).
  cbv zeta. rewrite Ht. simpl. rewrite !existsb_app. simpl.
  rewrite (forallb_excludes _ _ body scan_body_not_error Hbody).
  now rewrite (forallb_excludes _ _ body scan_body_not_cerr Hbody).
Qed.

End MoreScanProperties.

(** ** Stores over their whole life, on every engine *)

Section LifeProperties.

Context {E : Engine}.
Context {Client : Type}.
Variable basicErrorHandler : @ErrorHandler Client.

Lemma apply_op_closed (o : op) (d : Private) (c : Client) :
  db d = None ->
  let '(d', c', t) := apply_op basicErrorHandler o d c in
  d' = d /\ Forall (is_not_open_error d) t.
Proof.
  intros Hdb. unfold is_not_open_error. destruct o; simpl.
  - now rewrite (startTransaction_closed d type Hdb).
  - now rewrite (commitTransaction_closed d Hdb).
  - now rewrite (abortTransaction_closed d Hdb).
  - now rewrite (write_closed d key keySize value valueSize Hdb).
  - unfold write_string. now rewrite (write_closed d _ _ _ _ Hdb).
  - unfold read. rewrite (scan_closed d _ _ _ errorHandler c Hdb).
    split; [reflexivity | now repeat constructor].
  - unfold read_string, read. rewrite (scan_closed d _ _ _ errorHandler c Hdb).
    split; [reflexivity | now repeat constructor].
  - rewrite (remove_closed d keyData keySize errorHandler c Hdb).
    split; [reflexivity | now repeat constructor].
  - unfold remove_default. rewrite (remove_closed d keyData keySize _ c Hdb).
    split; [reflexivity | now repeat constructor].
  - rewrite (scan_closed d keyData keySize resultHandler errorHandler c Hdb).
    split; [reflexivity | now repeat constructor].
  - now split.
  - now split.
Qed.

(** X4: a store whose handle is null stays as it is for the rest of its
    life.  Whatever operations follow, in any number and order, the store is
    unchanged (no operation opens it), the engine is never called, and the
    only events are "Not open" errors handed to error handlers. *)
Theorem closed_store_stays_closed (os : list op) : forall (d : Private) (c : Client),
  db d = None ->
  let '(d', c', t) := run basicErrorHandler os d c in
  d' = d
  /\ Forall (is_not_open_error d) t
  /\ existsb is_engine_call t = false.
Proof.
  induction os as [|o os IH]; intros d c Hdb; simpl.
  - now repeat split.
  - pose proof (apply_op_closed o d c Hdb) as Hstep.
    destruct (apply_op basicErrorHandler o d c) as [[d1 c1] t1].
    destruct Hstep as [-> Ht1].
    specialize (IH d c1 Hdb).
    destruct (run basicErrorHandler os d c1) as [[d2 c2] t2].
    destruct IH as (-> & Ht2 & Hquiet).
    assert (Hall : Forall (is_not_open_error d) (t1 ++ t2)).
    { apply Forall_app. now split. }
    repeat split; [assumption|].
    clear - Hall. induction Hall as [|e t He _ IH]; [reflexivity|].
    unfold is_not_open_error in He. subst e. exact IH.
Qed.

Lemma scan_same_store (d : Private) (keyData : pointer) (keySize : Z)
    (resultHandler : ScanHandler) (errorHandler : ErrorHandler) (c : Client) :
  same_store d (fst (fst (scan d keyData keySize resultHandler errorHandler c))).
Proof.
  unfold scan, same_store, exists_. destruct (db d) eqn:Hdb.
  - repeat break_match; simpl; now rewrite ?Hdb.
  - simpl. now rewrite Hdb.
Qed.

Lemma apply_op_same_store (o : op) (d : Private) (c : Client) :
  same_store d (fst (fst (apply_op basicErrorHandler o d c))).
Proof.
  destruct o; simpl;
    try (unfold read_string, read; apply scan_same_store);
    try apply scan_same_store;
    unfold same_store, exists_, startTransaction, commitTransaction, abortTransaction,
      write_string, write, remove_default, remove;
    destruct (db d) eqn:Hdb; repeat break_match; simpl in *; repeat split; congruence.
Qed.

(** X5: no operation changes what identifies a store or whether it holds a
    handle: after any list of operations the storage root, the name, the
    access mode and the duplicates flag are those given at construction, and
    [exists()] answers as it did at the start. *)
Theorem operations_keep_the_store (os : list op) : forall (d : Private) (c : Client),
  same_store d (fst (fst (run basicErrorHandler os d c))).
Proof.
  induction os as [|o os IH]; intros d c; simpl.
  - now repeat split.
  - pose proof (apply_op_same_store o d c) as Hstep.
    destruct (apply_op basicErrorHandler o d c) as [[d1 c1] t1].
    specialize (IH d1 c1).
    destruct (run basicErrorHandler os d1 c1) as [[d2 c2] t2].
    simpl in *. unfold same_store in *.
    destruct Hstep as (H1 & H2 & H3 & H4 & H5), IH as (I1 & I2 & I3 & I4 & I5).
    repeat split; congruence.
Qed.

(** X6: the destructor, on any store: it calls [unqlite_close] exactly once,
    as its last engine call, also when the handle is null; before that it
    asks the engine to roll back exactly when the flag is set and the handle
    is open; it never asks for a commit or a begin. *)
Theorem Storage_dtor_calls (d : Private) (fs : filesystem) :
  let t := snd (Storage_dtor d fs) in
  exists before,
    t = before ++ [ev_engine call_close]
    /\ existsb is_close before = false
    /\ existsb is_commit t = false
    /\ existsb is_begin t = false
    /\ (existsb is_rollback t = inTransaction d && exists_ d)
    /\ (List.length before <= 1)%nat.
Proof.
  cbv zeta. unfold Storage_dtor, abortTransaction, Private_dtor, exists_.
  destruct (inTransaction d) eqn:Htx; simpl.
  - destruct (db d) as [h|] eqn:Hdb; simpl.
    + destruct (unqlite_rollback h) as [rc h']. simpl.
      destruct (unqlite_close (Some h') fs) as [rc' fs'].
      exists [ev_engine (call_rollback rc)]. simpl. now repeat split.
    + rewrite Hdb. destruct (unqlite_close None fs) as [rc' fs'].
      exists []. simpl. repeat split. lia.
  - destruct (unqlite_close (db d) fs) as [rc' fs'].
    exists []. simpl. repeat split. lia.
Qed.

(** X7: after [commitTransaction] on an active store the destructor does not
    roll back, whether or not the engine accepted the commit: it only closes
    the handle.  A commit the engine refused is therefore never undone by
    the wrapper. *)
Theorem commit_then_destroy_only_closes (d : Private) (h : unqlite) (fs : filesystem) :
  db d = Some h -> inTransaction d = true ->
  let '(ok, d1, t1) := commitTransaction d in
  snd (Storage_dtor d1 fs) = [ev_engine call_close]
  /\ existsb is_rollback t1 = false.
Proof.
  intros Hdb Htx. unfold commitTransaction. rewrite Hdb, Htx. simpl.
  destruct (unqlite_commit h) as [rc h']. split.
  - now rewrite Storage_dtor_idle.
  - simpl. destruct (negb (rc =? UNQLITE_OK)); [|reflexivity].
    unfold reportDbError. cbn [db set_db set_inTransaction].
    now destruct (unqlite_config_err_log h').
Qed.

End LifeProperties.

(** ** The scan buffers, on every engine *)

Section BufferProperties.

Context {E : Engine}.
Context {Client : Type}.

Lemma realloc_sizes_app (which : buffer_name) (t1 t2 : trace) :
  realloc_sizes which (t1 ++ t2) = realloc_sizes which t1 ++ realloc_sizes which t2.
Proof.
  induction t1 as [|e t1 IH]; simpl; [reflexivity|].
  destruct e; try exact IH. destruct which, b; simpl; now rewrite ?IH.
Qed.

Lemma last_cons (l : list Z) : forall n lo : Z, last (n :: l) lo = last l n.
Proof.
  induction l as [|m l IH]; intros n lo; [reflexivity|].
  change (last (n :: m :: l) lo) with (last (m :: l) lo).
  now rewrite (IH m lo), (IH m n).
Qed.

Lemma last_app_default (l1 l2 : list Z) : forall lo : Z,
  last (l1 ++ l2) lo = last l2 (last l1 lo).
Proof.
  induction l1 as [|n l1 IH]; intros lo; [reflexivity|].
  rewrite <- app_comm_cons, !last_cons. apply IH.
Qed.

Lemma ascending_from_app (l1 l2 : list Z) : forall lo : Z,
  ascending_from lo l1 -> ascending_from (last l1 lo) l2 -> ascending_from lo (l1 ++ l2).
Proof.
  induction l1 as [|n l1 IH]; intros lo H1 H2; simpl in *; [assumption|].
  destruct H1 as [Hlo H1]. split; [assumption|]. apply IH; [assumption|].
  now rewrite <- (last_cons l1 n lo).
Qed.

(** One fetch: each buffer is reallocated at most once, to more than its
    capacity, and its capacity afterwards is the last size asked. *)
Lemma fetchCursorData_reallocs (cursor : unqlite_kv_cursor) (b : buffers)
    (resultHandler : ScanHandler) (c : Client) :
  let '(b', c', t) := fetchCursorData cursor b resultHandler c in
  ascending_from (keyBufferLength b) (realloc_sizes KeyBuffer t)
  /\ keyBufferLength b' = last (realloc_sizes KeyBuffer t) (keyBufferLength b)
  /\ ascending_from (dataBufferLength b) (realloc_sizes DataBuffer t)
  /\ dataBufferLength b' = last (realloc_sizes DataBuffer t) (dataBufferLength b).
Proof.
  unfold fetchCursorData. repeat break_match;
    repeat match goal with
           | H : (_, _) = (_, _) |- _ => inversion H; subst; clear H
           end;
    simpl; rewrite ?realloc_sizes_app; simpl;
    repeat match goal with
           | H : (_ >? _) = true |- _ => apply Z.gtb_lt in H
           end;
    repeat split; simpl in *; lia.
Qed.

Lemma scan_loop_reallocs (fuel : nat) : forall (cursor : unqlite_kv_cursor) (b : buffers)
    (resultHandler : ScanHandler) (c : Client),
  let '(cursor', b', c', t) := scan_loop fuel cursor b resultHandler c in
  ascending_from (keyBufferLength b) (realloc_sizes KeyBuffer t)
  /\ keyBufferLength b' = last (realloc_sizes KeyBuffer t) (keyBufferLength b)
  /\ ascending_from (dataBufferLength b) (realloc_sizes DataBuffer t)
  /\ dataBufferLength b' = last (realloc_sizes DataBuffer t) (dataBufferLength b).
Proof.
  induction fuel as [|fuel IH]; intros cursor b resultHandler c; simpl;
    [now repeat split|].
  destruct (unqlite_kv_cursor_valid_entry cursor); [|now repeat split].
  pose proof (fetchCursorData_reallocs cursor b resultHandler c) as Hfetch.
  destruct (fetchCursorData cursor b resultHandler c) as [[b1 c1] t1].
  destruct (unqlite_kv_cursor_next_entry cursor) as [rc cursor1].
  specialize (IH cursor1 b1 resultHandler c1).
  destruct (scan_loop fuel cursor1 b1 resultHandler c1) as [[[cursor2 b2] c2] t2].
  destruct Hfetch as (Hk1 & Hkl1 & Hd1 & Hdl1), IH as (Hk2 & Hkl2 & Hd2 & Hdl2).
  simpl. rewrite !realloc_sizes_app. simpl.
  rewrite Hkl1 in Hk2, Hkl2. rewrite Hdl1 in Hd2, Hdl2.
  repeat split.
  - now apply ascending_from_app.
  - now rewrite last_app_default.
  - now apply ascending_from_app.
  - now rewrite last_app_default.
Qed.

(** X8: within one scan each buffer only grows.  On any store and engine,
    the sizes the scan asks of [realloc] for the key buffer are strictly
    increasing from zero, and so are those for the value buffer: a buffer is
    reallocated only for an entry larger than its capacity, never to shrink
    it or to keep it. *)
Theorem scan_buffers_only_grow (d : Private) (keyData : pointer) (keySize : Z)
    (resultHandler : ScanHandler) (errorHandler : ErrorHandler) (c : Client) :
  let t := snd (scan d keyData keySize resultHandler errorHandler c) in
  ascending_from 0 (realloc_sizes KeyBuffer t)
  /\ ascending_from 0 (realloc_sizes DataBuffer t).
Proof.
  cbv zeta. unfold scan.
  destruct (db d) as [h|]; [|now split].
  destruct (unqlite_kv_cursor_init h) as [[rc cursor] h1].
  destruct (negb (rc =? UNQLITE_OK)).
  - unfold reportDbError_handler. repeat break_match; simpl; now split.
  - destruct (is_null keyData || (keySize =? 0)).
    + destruct (unqlite_kv_cursor_first_entry cursor) as [rc0 cursor0].
      pose proof (scan_loop_reallocs (S (cursor_remaining cursor0)) cursor0
                    (mkBuffers None 0 None 0) resultHandler c) as Hloop.
      destruct (scan_loop (S (cursor_remaining cursor0)) cursor0
                  (mkBuffers None 0 None 0) resultHandler c) as [[[cursor1 b1] c1] t1].
      destruct (unqlite_kv_cursor_release h1 cursor1) as [rc2 h2].
      destruct Hloop as (Hk & _ & Hd & _). simpl in *.
      rewrite !realloc_sizes_app. simpl. rewrite !app_nil_r. now split.
    + destruct (unqlite_kv_cursor_seek cursor keyData keySize UNQLITE_CURSOR_MATCH_EXACT)
        as [rc0 cursor0].
      destruct (rc0 =? UNQLITE_OK).
      * pose proof (fetchCursorData_reallocs cursor0 (mkBuffers None 0 None 0)
                      resultHandler c) as Hfetch.
        destruct (fetchCursorData cursor0 (mkBuffers None 0 None 0) resultHandler c)
          as [[b1 c1] t1].
        destruct (unqlite_kv_cursor_release h1 cursor0) as [rc2 h2].
        destruct Hfetch as (Hk & _ & Hd & _). simpl in *.
        rewrite !realloc_sizes_app. simpl. rewrite !app_nil_r. now split.
      * destruct (unqlite_kv_cursor_release h1 cursor0) as [rc2 h2]. now split.
Qed.

Lemma to_int_range (z : Z) : - 2 ^ 31 <= to_int z < 2 ^ 31.
Proof.
  unfold to_int. pose proof (Z.mod_pos_bound (z + 2 ^ 31) (2 ^ 32) ltac:(lia)). lia.
Qed.

Lemma to_int_exact (z : Z) : to_int z = z <-> - 2 ^ 31 <= z < 2 ^ 31.
Proof.
  split.
  - intros H. rewrite <- H. apply to_int_range.
  - intros H. unfold to_int. rewrite Z.mod_small; lia.
Qed.

Lemma fetchCursorData_delivered (position : unqlite_kv_cursor -> Prop)
    (cursor : unqlite_kv_cursor) (b : buffers) (resultHandler : ScanHandler) (c : Client) :
  position cursor ->
  Forall (handed_as_delivered position) (snd (fetchCursorData cursor b resultHandler c)).
Proof.
  intros Hposition. unfold fetchCursorData.
  destruct (unqlite_kv_cursor_key cursor None 0) as [[rc1 p1] keyLength].
  destruct (negb (rc1 =? UNQLITE_OK)); [now repeat constructor|].
  destruct (unqlite_kv_cursor_data cursor None 0) as [[rc2 p2] dataLength].
  destruct (negb (rc2 =? UNQLITE_OK)); [now repeat constructor|].
  destruct (keyLength >? keyBufferLength b);
  match goal with
  | |- context [dataLength >? ?n] => destruct (dataLength >? n)
  end;
  match goal with
  | |- context [unqlite_kv_cursor_key cursor ?p ?n] =>
      destruct (unqlite_kv_cursor_key cursor p n) as [[rc3 keyPtr] keyLength'] eqn:Hkey
  end;
  (destruct (rc3 =? UNQLITE_OK) eqn:Hrc3; simpl negb; cbv iota;
   [|simpl; rewrite ?Forall_app; now repeat constructor]);
  match goal with
  | |- context [unqlite_kv_cursor_data cursor ?p ?n] =>
      destruct (unqlite_kv_cursor_data cursor p n) as [[rc4 valuePtr] dataLength'] eqn:Hdata
  end;
  (destruct (rc4 =? UNQLITE_OK) eqn:Hrc4; simpl negb; cbv iota;
   [|simpl; rewrite ?Forall_app; now repeat constructor]);
  match goal with
  | |- context [resultHandler c ?kp ?ks ?vp ?vs] =>
      destruct (resultHandler c kp ks vp vs) as [continue c']
  end;
  apply Z.eqb_eq in Hrc3, Hrc4; subst rc3 rc4;
  simpl; repeat (apply Forall_cons; [exact I|]);
  (apply Forall_cons; [|constructor]);
  simpl; eexists cursor, _, _, _, _, dataLength';
  (split; [exact Hposition|]);
  (split; [exact Hkey|]); (split; [exact Hdata|]); (split; [reflexivity|]);
  (split; [apply to_int_range | apply to_int_exact]).
Qed.

Lemma scan_loop_delivered (fuel : nat) : forall (start cursor : unqlite_kv_cursor)
    (b : buffers) (resultHandler : ScanHandler) (c : Client),
  walked start cursor ->
  Forall (handed_as_delivered (walked start))
         (snd (scan_loop fuel cursor b resultHandler c)).
Proof.
  induction fuel as [|fuel IH]; intros start cursor b resultHandler c Hwalked; simpl;
    [constructor|].
  destruct (unqlite_kv_cursor_valid_entry cursor) eqn:Hvalid;
    [|now repeat constructor].
  pose proof (fetchCursorData_delivered (walked start) cursor b resultHandler c Hwalked)
    as Hfetch.
  destruct (fetchCursorData cursor b resultHandler c) as [[b1 c1] t1].
  pose proof (walked_next start cursor Hwalked Hvalid) as Hnext.
  destruct (unqlite_kv_cursor_next_entry cursor) as [rc cursor1].
  specialize (IH start cursor1 b1 resultHandler c1 Hnext).
  destruct (scan_loop fuel cursor1 b1 resultHandler c1) as [[[cursor2 b2] c2] t2].
  simpl in *. apply Forall_cons; [exact I|]. apply Forall_app. split; [exact Hfetch|].
  apply Forall_cons; [exact I | exact IH].
Qed.

Lemma delivered_value_size_is_int (position : unqlite_kv_cursor -> Prop) (t : trace) :
  Forall (handed_as_delivered position) t -> forallb value_size_is_int t = true.
Proof.
  induction 1 as [|e t He _ IH]; simpl; [reflexivity|]. rewrite IH, andb_true_r.
  destruct e; try reflexivity. simpl in *.
  destruct He as (cursor & kb & vb & nk & nd & len & _ & _ & _ & _ & Hrange & _).
  apply andb_true_iff. split; [apply Z.leb_le | apply Z.ltb_lt]; lia.
Qed.

(** X9: every call of the result handler in a scan carries what the engine
    delivered at a cursor position of that scan (a position walked from the
    first entry in a full scan, the position of the exact seek otherwise):
    the key buffer and key length of a successful [unqlite_kv_cursor_key]
    there, the value buffer of a successful [unqlite_kv_cursor_data] there,
    and, as value size, the 64-bit length that call reported converted to
    [int].  The size handed over is therefore always between -2^31 and
    2^31 - 1, and it is the reported length exactly when that lies in this
    range: a value of 2^31 bytes or more is handed over with a wrong
    size. *)
Theorem scan_value_sizes_are_int (d : Private) (keyData : pointer) (keySize : Z)
    (resultHandler : ScanHandler) (errorHandler : ErrorHandler) (c : Client) :
  let t := snd (scan d keyData keySize resultHandler errorHandler c) in
  Forall (handed_as_delivered (scan_position d keyData keySize)) t
  /\ forallb value_size_is_int t = true.
Proof.
  cbv zeta.
  assert (Hdelivered : Forall (handed_as_delivered (scan_position d keyData keySize))
                         (snd (scan d keyData keySize resultHandler errorHandler c))).
  { unfold scan.
    destruct (db d) as [h|] eqn:Hdb; [|now repeat constructor].
    destruct (unqlite_kv_cursor_init h) as [[rc cursor] h1] eqn:Hinit.
    destruct (negb (rc =? UNQLITE_OK)).
    - unfold reportDbError_handler. repeat break_match; simpl; now repeat constructor.
    - destruct (is_null keyData || (keySize =? 0)) eqn:Hfull.
      + destruct (unqlite_kv_cursor_first_entry cursor) as [rc0 cursor0] eqn:Hfirst.
        pose proof (scan_loop_delivered (S (cursor_remaining cursor0)) cursor0 cursor0
                      (mkBuffers None 0 None 0) resultHandler c (walked_start cursor0))
          as Hloop.
        destruct (scan_loop (S (cursor_remaining cursor0)) cursor0
                    (mkBuffers None 0 None 0) resultHandler c)
          as [[[cursor1 b1] c1] t1].
        destruct (unqlite_kv_cursor_release h1 cursor1) as [rc2 h2].
        simpl in *. apply Forall_cons; [exact I|]. apply Forall_cons; [exact I|].
        apply Forall_app. split; [|now repeat constructor].
        eapply Forall_impl; [|exact Hloop].
        intros [] He; try exact I. simpl in *.
        destruct He as (cur & kb & vb & nk & nd & len & Hpos & Hrest).
        exists cur, kb, vb, nk, nd, len. split; [|exact Hrest].
        exists h. split; [exact Hdb|]. rewrite Hinit, Hfull. cbn [fst snd].
        rewrite Hfirst. exact Hpos.
      + destruct (unqlite_kv_cursor_seek cursor keyData keySize UNQLITE_CURSOR_MATCH_EXACT)
          as [rc0 cursor0] eqn:Hseek.
        destruct (rc0 =? UNQLITE_OK).
        * pose proof (fetchCursorData_delivered (eq cursor0) cursor0
                        (mkBuffers None 0 None 0) resultHandler c eq_refl) as Hfetch.
          destruct (fetchCursorData cursor0 (mkBuffers None 0 None 0) resultHandler c)
            as [[b1 c1] t1].
          destruct (unqlite_kv_cursor_release h1 cursor0) as [rc2 h2].
          simpl in *. apply Forall_cons; [exact I|]. apply Forall_cons; [exact I|].
          apply Forall_app. split; [|now repeat constructor].
          eapply Forall_impl; [|exact Hfetch].
          intros [] He; try exact I. simpl in *.
          destruct He as (cur & kb & vb & nk & nd & len & Hpos & Hrest).
          exists cur, kb, vb, nk, nd, len. split; [|exact Hrest].
          exists h. split; [exact Hdb|]. rewrite Hinit, Hfull. cbn [fst snd].
          rewrite Hseek. now subst cur.
        * destruct (unqlite_kv_cursor_release h1 cursor0). now repeat constructor. }
  split; [exact Hdelivered|]. now apply (delivered_value_size_is_int _ _ Hdelivered).
Qed.

End BufferProperties.

(** ** The duplicates flag, on every engine *)

Section DuplicatesFlag.

Context {E : Engine}.
Context {Client : Type}.
Variable basicErrorHandler : @ErrorHandler Client.

Ltac same_but_flag :=
  cbn [db name inTransaction storageRoot mode allowDuplicates
       set_allowDuplicates set_db set_inTransaction];
  repeat break_match;
  repeat match goal with
         | H : (_, _) = (_, _) |- _ => inversion H; subst; clear H
         end;
  try reflexivity; try congruence.

Lemma scan_ignores_allowDuplicates (d : Private) (flag : bool) (keyData : pointer)
    (keySize : Z) (resultHandler : ScanHandler) (errorHandler : ErrorHandler)
    (c : Client) :
  scan (set_allowDuplicates d flag) keyData keySize resultHandler errorHandler c
  = let '(d', c', t) := scan d keyData keySize resultHandler errorHandler c in
    (set_allowDuplicates d' flag, c', t).
Proof.
  unfold scan, reportDbError_handler. same_but_flag.
Qed.

Lemma apply_op_ignores_allowDuplicates (o : op) (d : Private) (flag : bool) (c : Client) :
  apply_op basicErrorHandler o (set_allowDuplicates d flag) c
  = let '(d', c', t) := apply_op basicErrorHandler o d c in
    (set_allowDuplicates d' flag, c', t).
Proof.
  destruct o; cbn [apply_op];
    try (unfold read_string, read; apply scan_ignores_allowDuplicates);
    try apply scan_ignores_allowDuplicates;
    unfold startTransaction, commitTransaction, abortTransaction, write_string, write,
      remove_default, remove, reportDbError, isInTransaction, exists_;
    same_but_flag.
Qed.

(** X10: the duplicates flag given at construction has no effect on any
    operation.  Two stores that differ in this flag only go through any list
    of operations with the same events and the same caller state, and end as
    the same store but for the flag. *)
Theorem allowDuplicates_has_no_effect (os : list op) :
  forall (d : Private) (flag : bool) (c : Client),
  run basicErrorHandler os (set_allowDuplicates d flag) c
  = let '(d', c', t) := run basicErrorHandler os d c in
    (set_allowDuplicates d' flag, c', t).
Proof.
  induction os as [|o os IH]; intros d flag c; simpl; [reflexivity|].
  rewrite apply_op_ignores_allowDuplicates.
  destruct (apply_op basicErrorHandler o d c) as [[d1 c1] t1].
  rewrite IH.
  now destruct (run basicErrorHandler os d1 c1) as [[d2 c2] t2].
Qed.

End DuplicatesFlag.

(** ** Scans on the reference engine *)

Lemma length_substring_from (n : nat) : forall (m : nat) (s : string),
  String.length (substring n m s) = Nat.min m (String.length s - n).
Proof.
  induction n as [|n IH]; intros m s.
  - rewrite length_substring. now rewrite Nat.sub_0_r.
  - destruct s as [|a s]; simpl; [now rewrite Nat.min_0_r | apply IH].
Qed.

Lemma length_realloc (p : pointer) (n : Z) :
  String.length (contents (realloc p n)) = Z.to_nat n.
Proof.
  unfold realloc. simpl contents.
  rewrite length_append, length_substring, length_zeros. lia.
Qed.

Lemma to_nat_size (s : string) : Z.to_nat (size s) = String.length s.
Proof. unfold size. apply Nat2Z.id. Qed.

Lemma copy_in_place (src : string) (p : pointer) :
  size src <= size (contents p) ->
  exists p2,
    copy_out src p (size src) = (OK, p2, size src)
    /\ std_string p2 (size src) = src
    /\ size (contents p2) = size (contents p).
Proof.
  intros Hfit. destruct p as [buf|]; simpl in *.
  - eexists. unfold copy_out. rewrite Z.min_id, to_nat_size, substring_all.
    split; [reflexivity|]. split.
    + unfold std_string. simpl contents. rewrite to_nat_size. apply substring_prefix.
    + unfold size in *. simpl contents.
      rewrite length_append, length_substring_from. lia.
  - exists None. split; [reflexivity|]. split; [|reflexivity].
    unfold std_string. simpl contents. rewrite substring_empty.
    symmetry. apply size_zero. pose proof (size_nonneg src). unfold size in *. simpl in *. lia.
Qed.

Lemma copy_after_grow (src : string) (p : pointer) :
  exists p2,
    copy_out src (realloc p (size src)) (size src) = (OK, p2, size src)
    /\ std_string p2 (size src) = src
    /\ size (contents p2) = size src.
Proof.
  destruct (copy_in_place src (realloc p (size src))) as (p2 & Hcopy & Hstr & Hsize).
  - unfold size at 2. rewrite length_realloc. unfold size. lia.
  - exists p2. repeat split; try assumption.
    rewrite Hsize. unfold size at 1. rewrite length_realloc. unfold size. lia.
Qed.

Section ReferenceScans.

Context {Client : Type}.

Lemma fetchCursorData_ref_reuse (items : table) (i : nat) (k v : string) (b : buffers)
    (rh : ScanHandler) (c : Client) :
  nth_error items i = Some (k, v) ->
  size v < 2 ^ 31 ->
  buffers_sized b ->
  let '(b', c', t) := fetchCursorData (mkCursor items i) b rh c in
  buffers_sized b' /\ entries_of t = [(k, v)].
Proof.
  intros Hnth Hv [Hkb Hdb]. unfold fetchCursorData.
  change (@unqlite_kv_cursor_key engine) with cursor_key.
  change (@unqlite_kv_cursor_data engine) with cursor_data.
  change (@UNQLITE_OK engine) with OK.
  unfold cursor_key, cursor_data, current. cbn [RefEngine.items RefEngine.pos]. rewrite Hnth.
  rewrite !copy_out_size. change (OK =? OK) with true. cbn [negb]. cbv iota.
  pose proof (size_nonneg v) as Hv0.
  destruct (Z.gtb_spec (size k) (keyBufferLength b)) as [Hk|Hk]; cbv iota beta;
    cbn [keyBuffer keyBufferLength dataBuffer dataBufferLength];
    destruct (Z.gtb_spec (size v) (dataBufferLength b)) as [Hd|Hd]; cbv iota beta;
    cbn [keyBuffer keyBufferLength dataBuffer dataBufferLength].
  all: repeat
         (match goal with
          | |- context [copy_out ?s (realloc ?p _) _] =>
              let H := fresh "Hcopy" in
              destruct (copy_after_grow s p) as (? & H & ? & ?); rewrite H; clear H
          | |- context [copy_out ?s ?p _] =>
              let H := fresh "Hcopy" in
              let Hfit := fresh "Hfit" in
              assert (Hfit : size s <= size (contents p)) by lia;
              destruct (copy_in_place s p Hfit) as (? & H & ? & ?); rewrite H; clear H
          end;
          cbv iota beta; change (OK =? OK) with true; cbn [negb]; cbv iota).
  all: match goal with
       | |- context [let '(_, _) := ?call in _] =>
           match type of call with
           | (bool * _)%type => destruct call as [continue c']
           end
       end;
    cbv beta iota;
    (split;
     [ unfold buffers_sized; cbn [keyBuffer keyBufferLength dataBuffer dataBufferLength];
       lia
     | simpl; rewrite to_int_small by lia;
       repeat match goal with
              | H : std_string _ _ = _ |- _ => rewrite H; clear H
              end; reflexivity ]).
Qed.

Lemma skipn_nth (A : Type) (l : list A) : forall (n : nat) (x : A),
  nth_error l n = Some x -> skipn n l = x :: skipn (S n) l.
Proof.
  induction l as [|y l IH]; intros [|n] x H; simpl in *; try discriminate.
  - now injection H as ->.
  - now apply IH.
Qed.

Lemma entries_of_app (t1 t2 : trace) : entries_of (t1 ++ t2) = entries_of t1 ++ entries_of t2.
Proof.
  induction t1 as [|e t1 IH]; simpl; [reflexivity|].
  destruct e; simpl; now rewrite ?IH.
Qed.

Lemma scan_loop_ref (fuel : nat) : forall (tbl : table) (p : nat) (b : buffers)
    (rh : ScanHandler) (c : Client),
  Forall (fun kv => size (snd kv) < 2 ^ 31) tbl ->
  buffers_sized b ->
  (List.length tbl - p < fuel)%nat ->
  entries_of (snd (scan_loop fuel (mkCursor tbl p) b rh c)) = skipn p tbl.
Proof.
  induction fuel as [|fuel IH]; intros tbl p b rh c Hall Hb Hfuel; [lia|].
  cbn [scan_loop].
  change (@unqlite_kv_cursor_valid_entry engine (mkCursor tbl p))
    with (p <? List.length tbl)%nat.
  destruct (Nat.ltb_spec p (List.length tbl)) as [Hp|Hp].
  - destruct (nth_error tbl p) as [[k v]|] eqn:Hnth;
      [|apply nth_error_None in Hnth; lia].
    assert (Hv : size v < 2 ^ 31).
    { rewrite Forall_forall in Hall. apply (Hall (k, v)). eapply nth_error_In; eauto. }
    pose proof (fetchCursorData_ref_reuse tbl p k v b rh c Hnth Hv Hb) as Hfetch.
    destruct (fetchCursorData _ b rh c) as [[b1 c1] t1].
    destruct Hfetch as [Hb1 Ht1].
    change (@unqlite_kv_cursor_next_entry engine (mkCursor tbl p))
      with (OK, mkCursor tbl (S p)).
    cbv iota beta.
    specialize (IH tbl (S p) b1 rh c1 Hall Hb1 ltac:(lia)).
    destruct (scan_loop fuel _ b1 rh c1) as [[[cursor2 b2] c2] t2].
    simpl in IH. simpl. rewrite entries_of_app, Ht1. simpl. rewrite IH.
    symmetry. now apply skipn_nth.
  - simpl. symmetry. apply skipn_all2. lia.
Qed.
Lemma result_count_entries (t : trace) : result_count t = List.length (entries_of t).
Proof.
  unfold result_count. induction t as [|e t IH]; [reflexivity|].
  destruct e; simpl; now rewrite ?IH.
Qed.

Lemma values_of_entries (t : trace) : values_of t = map snd (entries_of t).
Proof.
  induction t as [|e t IH]; [reflexivity|]. destruct e; simpl; now rewrite ?IH.
Qed.

Lemma full_scan_entries (d : Private) (h : handle) (keyData : pointer)
    (keySize : Z) (rh : ScanHandler) (eh : ErrorHandler) (c : Client) :
  db d = Some h ->
  is_null keyData || (keySize =? 0) = true ->
  Forall (fun kv => size (snd kv) < 2 ^ 31) (entries h) ->
  entries_of (snd (scan d keyData keySize rh eh c)) = entries h
  /\ fst (fst (scan d keyData keySize rh eh c)) = d.
Proof.
  intros Hdb Hfull Hall. split.
  - unfold scan. rewrite Hdb.
    change (@unqlite_kv_cursor_init engine h) with (OK, mkCursor (entries h) 0, h).
    cbv beta iota. change (OK =? @UNQLITE_OK engine) with true. cbn [negb]. cbv iota.
    rewrite Hfull.
    change (@unqlite_kv_cursor_first_entry engine (mkCursor (entries h) 0))
      with (OK, mkCursor (entries h) 0).
    cbv beta iota.
    change (@cursor_remaining engine (mkCursor (entries h) 0))
      with (List.length (entries h) - 0)%nat.
    pose proof (scan_loop_ref (S (List.length (entries h) - 0)) (entries h) 0
                  (mkBuffers None 0 None 0) rh c Hall) as Hloop.
    destruct (scan_loop _ _ (mkBuffers None 0 None 0) rh c) as [[[cursor1 b1] c1] t1].
    cbn [snd] in Hloop. cbv beta iota.
    destruct (@unqlite_kv_cursor_release engine h cursor1) as [rc2 h2].
    cbn [snd]. simpl entries_of. rewrite entries_of_app. simpl. rewrite app_nil_r.
    apply Hloop; [split; reflexivity | lia].
  - exact (scan_ref_store d h keyData keySize rh eh c Hdb).
Qed.

(** X11: on the reference engine a full scan (key pointer null or key size
    zero) of an open store hands every entry of the store to the result
    handler, once each, in the engine's order, with the key and the value
    unchanged, provided every value is shorter than 2^31 bytes.  The two
    buffers are reused from entry to entry, and the bytes a longer entry
    left behind never show. *)
Theorem full_scan_hands_every_entry (d : Private) (h : handle) (keyData : pointer)
    (keySize : Z) (rh : ScanHandler) (eh : ErrorHandler) (c : Client) :
  db d = Some h ->
  is_null keyData || (keySize =? 0) = true ->
  Forall (fun kv => size (snd kv) < 2 ^ 31) (entries h) ->
  let t := snd (scan d keyData keySize rh eh c) in
  entries_of t = entries h
  /\ result_count t = List.length (entries h)
  /\ existsb is_error t = false.
Proof.
  intros Hdb Hfull Hall. cbv zeta.
  destruct (full_scan_entries d h keyData keySize rh eh c Hdb Hfull Hall) as [Hentries _].
  split; [exact Hentries|]. split.
  - now rewrite result_count_entries, Hentries.
  - exact (scan_open_no_error d h h (mkCursor (entries h) 0) keyData keySize rh eh c
             Hdb eq_refl).
Qed.

End ReferenceScans.

(** ** Reads, removes and transactions on the reference engine *)

Section ReferenceLife.

Context {Client : Type}.
Variable basicErrorHandler : @ErrorHandler Client.


(** X12: reading the empty key is a full scan.  [read] passes the key's
    size, zero, to [scan], which takes it for "no key": on the reference
    engine the result handler receives every value of the store, in order,
    and not the value stored under the empty key alone. *)
Theorem read_empty_key_scans_everything (d : Private) (h : handle)
    (rh : RawValueHandler) (eh : ErrorHandler) (c : Client) :
  db d = Some h ->
  Forall (fun kv => size (snd kv) < 2 ^ 31) (entries h) ->
  values_of (snd (read d "" rh eh c)) = map snd (entries h).
Proof.
  intros Hdb Hall. unfold read. rewrite values_of_entries.
  match goal with
  | |- context [scan _ ?k ?n ?f _ _] =>
      destruct (full_scan_entries d h k n f eh c Hdb eq_refl Hall) as [Hentries _]
  end.
  now rewrite Hentries.
Qed.









(** X15: on the reference engine, [abortTransaction] discards what was
    written since [startTransaction].  On an open, idle store a transaction
    is started, the store is written to, removed from, read and scanned in
    any way short of committing or aborting, and the transaction is aborted:
    the store is idle again and holds exactly the entries it held when the
    transaction started, and a full scan hands over exactly those. *)
Theorem abort_discards_writes (d1 : Private) (h1 : handle) (during : list op)
    (rh : ScanHandler) (eh : ErrorHandler) (c : Client) :
  db d1 = Some h1 -> saved h1 = None -> inTransaction d1 = false ->
  forallb (fun o => negb (is_transaction_control o)) during = true ->
  Forall (fun kv => size (snd kv) < 2 ^ 31) (entries h1) ->
  let '(started, d2, _) := startTransaction d1 ReadWrite in
  let '(d3, c3, _) := run basicErrorHandler during d2 c in
  let '(d4, t) := abortTransaction d3 in
  started = true
  /\ isInTransaction d3 = true
  /\ t = [ev_engine (call_rollback UNQLITE_OK)]
  /\ isInTransaction d4 = false
  /\ table_of d4 = table_of d1
  /\ entries_of (snd (scan d4 None 0 rh eh c3)) = table_of d1.
Proof.
  intros Hdb1 Hsaved1 Hidle Hduring Hall.
  set (d2 := set_inTransaction
               (set_db d1 (Some (mkHandle (file h1) (entries h1) (Some (entries h1)))))
               true).
  assert (Hstart : startTransaction d1 ReadWrite
                   = (true, d2, [ev_engine (call_begin UNQLITE_OK)])).
  { unfold startTransaction. rewrite Hdb1, Hidle. simpl. unfold begin.
    now rewrite Hsaved1. }
  rewrite Hstart. cbv beta iota.
  assert (Hstate2 : ref_state (file h1) (Some (entries h1)) d2).
  { exists (mkHandle (file h1) (entries h1) (Some (entries h1))). now repeat split. }
  pose proof (run_ref basicErrorHandler during d2 c (file h1) (Some (entries h1)) Hstate2)
    as Hrun.
  destruct (run basicErrorHandler during d2 c) as [[d3 c3] t3].
  destruct Hrun as [Hquiet _].
  destruct (Hquiet Hduring) as (h3 & Hdb3 & Hfile3 & Hsaved3 & Hflag3).
  rewrite (abortTransaction_active d3 h3 Hdb3 Hflag3).
  assert (Hrollback : @unqlite_rollback engine h3
                      = (OK, mkHandle (file h1) (entries h1) None)).
  { simpl. unfold rollback. now rewrite Hsaved3, Hfile3. }
  rewrite Hrollback. cbn [fst snd].
  set (h4 := mkHandle (file h1) (entries h1) None).
  set (d4 := set_inTransaction (set_db d3 (Some h4)) false).
  assert (Htable : table_of d4 = table_of d1).
  { unfold table_of. now rewrite Hdb1. }
  repeat split; try assumption.
  destruct (full_scan_entries d4 h4 None 0 rh eh c3 eq_refl eq_refl Hall) as [Hentries _].
  change (entries_of (snd (scan d4 None 0 rh eh c3)) = table_of d1).
  rewrite Hentries. unfold table_of. now rewrite Hdb1.
Qed.

(** X16: on the reference engine, what a transaction wrote and committed
    survives the destruction of the store.  After [startTransaction], any
    writes, removes, reads and scans, and [commitTransaction], the commit
    returns true, the destructor only closes the handle, and the store
    constructed next on the same file holds the entries the store held at
    the commit. *)
Theorem commit_then_destroy_persists
    (fs : disk) (storageRoot name : string) (mode : AccessMode) (allowDuplicates : bool)
    (before during : list op) (c : Client)
    (d0 : Private) (fs0 : disk) (t0 : trace) (d1 : Private) (c1 : Client) (t1 : trace) :
  Storage_ctor fs storageRoot name mode allowDuplicates = (d0, fs0, t0) ->
  run basicErrorHandler before d0 c = (d1, c1, t1) ->
  inTransaction d1 = false ->
  forallb (fun o => negb (is_transaction_control o)) during = true ->
  let '(started, d2, _) := startTransaction d1 ReadWrite in
  let '(d3, c3, _) := run basicErrorHandler during d2 c1 in
  let '(committed, d4, _) := commitTransaction d3 in
  let '(fs', t) := Storage_dtor d4 fs0 in
  let '(d5, _, _) := Storage_ctor fs' storageRoot name mode allowDuplicates in
  started = true
  /\ committed = true
  /\ t = [ev_engine call_close]
  /\ table_of d5 = table_of d3.
Proof.
  intros Hctor Hrun Hidle Hduring.
  set (path := (storageRoot ++ s_unqliteDir ++ name)%string).
  destruct (Storage_ctor_ref fs storageRoot name mode allowDuplicates)
    as (d0' & t0' & Hctor' & Hstate0 & _).
  rewrite Hctor in Hctor'. injection Hctor' as <- <- <-.
  fold path in Hstate0.
  pose proof (run_ref basicErrorHandler before d0 c path None Hstate0) as Hbefore.
  rewrite Hrun in Hbefore.
  destruct Hbefore as [_ [tx1 (h1 & Hdb1 & Hfile1 & Hsaved1 & Hflag1)]].
  destruct tx1 as [tx1|]; [congruence|].
  set (d2 := set_inTransaction
               (set_db d1 (Some (mkHandle (file h1) (entries h1) (Some (entries h1)))))
               true).
  assert (Hstart : startTransaction d1 ReadWrite
                   = (true, d2, [ev_engine (call_begin UNQLITE_OK)])).
  { unfold startTransaction. rewrite Hdb1, Hidle. simpl. unfold begin.
    now rewrite Hsaved1. }
  rewrite Hstart. cbv beta iota.
  assert (Hstate2 : ref_state path (Some (entries h1)) d2).
  { exists (mkHandle (file h1) (entries h1) (Some (entries h1))). now repeat split. }
  pose proof (run_ref basicErrorHandler during d2 c1 path (Some (entries h1)) Hstate2)
    as Hrun2.
  destruct (run basicErrorHandler during d2 c1) as [[d3 c3] t3].
  destruct Hrun2 as [Hquiet _].
  destruct (Hquiet Hduring) as (h3 & Hdb3 & Hfile3 & Hsaved3 & Hflag3).
  set (h4 := mkHandle path (entries h3) None).
  set (d4 := set_inTransaction (set_db d3 (Some h4)) false).
  assert (Hcommit : commitTransaction d3 = (true, d4, [ev_engine (call_commit UNQLITE_OK)])).
  { unfold commitTransaction. rewrite Hdb3, Hflag3. simpl. unfold d4, h4.
    now rewrite Hfile3. }
  rewrite Hcommit. cbv beta iota.
  rewrite (Storage_dtor_idle d4 fs0 eq_refl).
  change (@unqlite_close engine (db d4) fs0) with (OK, save path (entries h3) fs0).
  cbn [fst snd].
  destruct (Storage_ctor_ref (save path (entries h3) fs0) storageRoot name mode
              allowDuplicates) as (d5 & t5 & Hctor5 & _ & Htable5).
  fold path in Htable5. rewrite Hctor5.
  repeat split.
  rewrite Htable5, load_save. unfold table_of. now rewrite Hdb3.
Qed.

End ReferenceLife.

(** ** The further properties on concrete stores *)

Section MoreConcreteStores.

Import Examples.
Import Faults.
Import Callers.

Lemma scan_without_cursor_witness :
  db inbox_no_cursor = Some inbox_handle
  /\ @unqlite_kv_cursor_init no_cursor_engine inbox_handle
     = (NOMEM, mkCursor [] 0, inbox_handle)
  /\ NOMEM <> @UNQLITE_OK no_cursor_engine
  /\ scan inbox_no_cursor (data "a") 1 (count_result true) count_error (0, 0)%nat
     = (inbox_no_cursor, (0, 1)%nat,
        [ev_engine (call_cursor_init NOMEM); ev_engine call_config_err_log;
         ev_error (mkError "inbox" NOMEM "unqlite_kv_cursor_init")]).
Proof.
  split; [reflexivity|]. split; [reflexivity|]. split; [discriminate|].
  apply (@scan_without_cursor no_cursor_engine counters inbox_no_cursor inbox_handle
           inbox_handle NOMEM (mkCursor [] 0) (data "a") 1 (count_result true)
           count_error (0, 0)%nat); [reflexivity | reflexivity | discriminate].
Defined.

Lemma exact_seek_hands_at_most_one_witness :
  is_null (data "a") = false /\ 1 <> 0
  /\ (result_count (snd (scan inbox (data "a") 1 keep_entry drop_error [])) <= 1)%nat
  /\ snd (fst (scan inbox (data "a") 1 keep_entry drop_error [])) = [("a", "1")].
Proof.
  split; [reflexivity|]. split; [discriminate|]. split; [|reflexivity].
  apply (exact_seek_hands_at_most_one inbox (data "a") 1 keep_entry drop_error []);
    [reflexivity | discriminate].
Defined.

Lemma scan_reports_nothing_after_init_witness :
  db inbox_unreadable = Some inbox_handle
  /\ @unqlite_kv_cursor_init unreadable_engine inbox_handle
     = (@UNQLITE_OK unreadable_engine, inbox_cursor, inbox_handle)
  /\ (let t := snd (scan inbox_unreadable None 0 (count_result true) count_error
                         (0, 0)%nat) in
      existsb is_error t = false
      /\ existsb (fun e => match e with ev_cerr _ => true | _ => false end) t = false)
  /\ snd (fst (scan inbox_unreadable None 0 (count_result true) count_error (0, 0)%nat))
     = (0, 0)%nat.
Proof.
  split; [reflexivity|]. split; [reflexivity|]. split; [|reflexivity].
  apply (@scan_reports_nothing_after_init unreadable_engine counters inbox_unreadable
           inbox_handle inbox_handle inbox_cursor); reflexivity.
Defined.

Lemma closed_store_stays_closed_witness :
  db (closed_store "inbox") = None
  /\ let '(d', c', t) := run count_error counted_use (closed_store "inbox") (0, 0)%nat in
     d' = closed_store "inbox"
     /\ Forall (is_not_open_error (closed_store "inbox")) t
     /\ existsb is_engine_call t = false.
Proof.
  split; [reflexivity|].
  apply (closed_store_stays_closed count_error counted_use (closed_store "inbox")
           (0, 0)%nat). reflexivity.
Defined.

Lemma commit_then_destroy_only_closes_witness :
  db inbox_active_read_only = Some inbox_active_handle
  /\ inTransaction inbox_active_read_only = true
  /\ let '(ok, d1, t1) := commitTransaction inbox_active_read_only in
     snd (Storage_dtor d1 []) = [ev_engine call_close]
     /\ existsb is_rollback t1 = false.
Proof.
  split; [reflexivity|]. split; [reflexivity|].
  apply (@commit_then_destroy_only_closes read_only_engine inbox_active_read_only
           inbox_active_handle []); reflexivity.
Defined.

Lemma inbox_values_fit : Forall (fun kv => size (snd kv) < 2 ^ 31) (entries inbox_handle).
Proof. repeat constructor. Defined.

Lemma full_scan_hands_every_entry_witness :
  db inbox = Some inbox_handle
  /\ is_null None || (0 =? 0) = true
  /\ Forall (fun kv => size (snd kv) < 2 ^ 31) (entries inbox_handle)
  /\ let t := snd (scan inbox None 0 keep_entry drop_error []) in
     entries_of t = entries inbox_handle
     /\ result_count t = List.length (entries inbox_handle)
     /\ existsb is_error t = false.
Proof.
  split; [reflexivity|]. split; [reflexivity|]. split; [exact inbox_values_fit|].
  apply (full_scan_hands_every_entry inbox inbox_handle None 0 keep_entry drop_error []);
    [reflexivity | reflexivity | exact inbox_values_fit].
Defined.

Lemma read_empty_key_scans_everything_witness :
  db inbox = Some inbox_handle
  /\ Forall (fun kv => size (snd kv) < 2 ^ 31) (entries inbox_handle)
  /\ values_of (snd (read inbox "" keep_raw drop_error [])) = map snd (entries inbox_handle).
Proof.
  split; [reflexivity|]. split; [exact inbox_values_fit|].
  apply (read_empty_key_scans_everything inbox inbox_handle keep_raw drop_error []);
    [reflexivity | exact inbox_values_fit].
Defined.




Lemma abort_discards_writes_witness :
  db inbox = Some inbox_handle /\ saved inbox_handle = None /\ inTransaction inbox = false
  /\ forallb (fun o => negb (is_transaction_control o)) during_transaction = true
  /\ Forall (fun kv => size (snd kv) < 2 ^ 31) (entries inbox_handle)
  /\ let '(started, d2, _) := startTransaction inbox ReadWrite in
     let '(d3, c3, _) := run (fun c _ => c) during_transaction d2 tt in
     let '(d4, t) := abortTransaction d3 in
     started = true
     /\ isInTransaction d3 = true
     /\ t = [ev_engine (call_rollback UNQLITE_OK)]
     /\ isInTransaction d4 = false
     /\ table_of d4 = table_of inbox
     /\ entries_of (snd (scan d4 None 0 (fun c _ _ _ _ => (true, c)) (fun c _ => c) c3))
        = table_of inbox.
Proof.
  split; [reflexivity|]. split; [reflexivity|]. split; [reflexivity|].
  split; [reflexivity|]. split; [exact inbox_values_fit|].
  apply (abort_discards_writes (fun c _ => c) inbox inbox_handle during_transaction
           (fun c _ _ _ _ => (true, c)) (fun c _ => c) tt);
    [reflexivity | reflexivity | reflexivity | reflexivity | exact inbox_values_fit].
Defined.

Lemma commit_then_destroy_persists_witness :
  Storage_ctor [] "/var" "inbox" ReadWrite false = (fresh_inbox, [], fresh_inbox_history)
  /\ run (fun c _ => c) before_transaction fresh_inbox tt
     = (inbox_with_a, tt, [ev_engine (call_kv_store (data "a") 1 (data "1") 1 0)])
  /\ inTransaction inbox_with_a = false
  /\ forallb (fun o => negb (is_transaction_control o)) during_transaction = true
  /\ let '(started, d2, _) := startTransaction inbox_with_a ReadWrite in
     let '(d3, c3, _) := run (fun c _ => c) during_transaction d2 tt in
     let '(committed, d4, _) := commitTransaction d3 in
     let '(fs', t) := Storage_dtor d4 [] in
     let '(d5, _, _) := Storage_ctor fs' "/var" "inbox" ReadWrite false in
     started = true
     /\ committed = true
     /\ t = [ev_engine call_close]
     /\ table_of d5 = table_of d3.
Proof.
  split; [reflexivity|]. split; [reflexivity|]. split; [reflexivity|].
  split; [reflexivity|].
  apply (commit_then_destroy_persists (fun c _ => c) [] "/var" "inbox" ReadWrite false
           before_transaction during_transaction tt fresh_inbox [] fresh_inbox_history
           inbox_with_a tt [ev_engine (call_kv_store (data "a") 1 (data "1") 1 0)]);
    reflexivity.
Defined.

(** The committed store of the scenario above holds the entry written
    inside the transaction and not the one removed there. *)
Lemma commit_then_destroy_persists_entries :
  let '(_, d2, _) := startTransaction inbox_with_a ReadWrite in
  let '(d3, _, _) := run (fun c _ => c) during_transaction d2 tt in
  table_of d3 = [("b", "22")].
Proof. reflexivity. Qed.

Lemma write_then_read_witness :
  db inbox = Some inbox_handle
  /\ "msg1" <> "" /\ size "msg1" < 2 ^ 32 /\ size "hello" < 2 ^ 31
  /\ let '(ok, d1, _) := write inbox (data "msg1") (size "msg1") (data "hello")
                               (size "hello") in
     ok = true /\ values_of (snd (read d1 "msg1" keep_raw drop_error [])) = ["hello"].
Proof.
  split; [reflexivity|]. split; [discriminate|]. split; [reflexivity|].
  split; [reflexivity|].
  apply (write_then_read inbox inbox_handle "msg1" "hello" keep_raw drop_error []);
    [reflexivity | discriminate | reflexivity | reflexivity].
Defined.

Lemma write_string_then_read_witness :
  db inbox = Some inbox_handle
  /\ "key" <> "" /\ size "key" < 2 ^ 31 /\ size "key" <= size "value" + 1
  /\ let stored := substring 0 (String.length "key") ("value" ++ NUL) in
     let '(ok, d1, t) := write_string inbox "key" "value" in
     ok = true
     /\ t = [ev_engine (call_kv_store (data "key") (size "key") (data "value")
                                      (size "key") OK)]
     /\ size (contents (data "value")) = size "value" + 1
     /\ values_of (snd (read d1 "key" keep_raw drop_error [])) = [stored]
     /\ (stored = "value" <-> String.length "key" = String.length "value").
Proof.
  split; [reflexivity|]. split; [discriminate|]. split; [reflexivity|].
  split; [discriminate|].
  generalize (write_string_then_read inbox inbox_handle "key" "value" keep_raw drop_error
                [] eq_refl).
  cbv zeta. destruct (write_string inbox "key" "value") as [[ok d1] t].
  intros (Hok & Ht & Hbuffer & Hread).
  destruct Hread as [Hvalues Hsame]; [discriminate | reflexivity | discriminate |].
  repeat split; try assumption; apply Hsame.
Defined.

End MoreConcreteStores.

(** * Scans whose handlers throw *)

Section UnwindingProperties.

Context {E : Engine}.
Context {Client : Type}.

(** Over handlers that return, the functions of [Unwinding] are the
    functions of [Storage] and return. *)
Lemma unwinding_fetch_returning (cursor : unqlite_kv_cursor) (b : buffers)
    (resultHandler : @ScanHandler Client) (c : Client) :
  Unwinding.fetchCursorData cursor b (returning_scan resultHandler) c
  = (fetchCursorData cursor b resultHandler c, returns tt).
Proof.
  unfold Unwinding.fetchCursorData, fetchCursorData, returning_scan.
  repeat break_match;
    repeat match goal with
           | H : (_, _) = (_, _) |- _ => inversion H; subst; clear H
           end; try reflexivity; try congruence.
Qed.

Lemma unwinding_loop_returning (fuel : nat) : forall (cursor : unqlite_kv_cursor)
    (b : buffers) (resultHandler : @ScanHandler Client) (c : Client),
  Unwinding.scan_loop fuel cursor b (returning_scan resultHandler) c
  = (scan_loop fuel cursor b resultHandler c, returns tt).
Proof.
  induction fuel as [|fuel IH]; intros cursor b resultHandler c; simpl; [reflexivity|].
  destruct (unqlite_kv_cursor_valid_entry cursor); [|reflexivity].
  rewrite unwinding_fetch_returning.
  destruct (fetchCursorData cursor b resultHandler c) as [[b1 c1] t1].
  destruct (unqlite_kv_cursor_next_entry cursor) as [rc cursor1].
  rewrite IH.
  now destruct (scan_loop fuel cursor1 b1 resultHandler c1) as [[[cursor2 b2] c2] t2].
Qed.

(** [Unwinding.scan] over handlers that return is [scan], and returns: what
    is proved of [scan] above is proved of the scans whose handlers do not
    throw. *)
Lemma unwinding_scan_returning (d : Private) (keyData : pointer) (keySize : Z)
    (resultHandler : @ScanHandler Client) (errorHandler : @ErrorHandler Client)
    (c : Client) :
  Unwinding.scan d keyData keySize (returning_scan resultHandler)
                 (returning_error errorHandler) c
  = (scan d keyData keySize resultHandler errorHandler c, returns tt).
Proof.
  unfold Unwinding.scan, scan.
  destruct (db d) as [h|]; [|reflexivity].
  destruct (unqlite_kv_cursor_init h) as [[rc cursor] h1].
  destruct (negb (rc =? UNQLITE_OK)).
  - unfold Unwinding.reportDbError_handler, reportDbError_handler, returning_error.
    cbn [db set_db name].
    destruct (unqlite_config_err_log h1) as [errorMessage length].
    now destruct (length >? 0).
  - destruct (is_null keyData || (keySize =? 0)).
    + destruct (unqlite_kv_cursor_first_entry cursor) as [rc0 cursor0].
      rewrite unwinding_loop_returning.
      destruct (scan_loop (S (cursor_remaining cursor0)) cursor0
                  (mkBuffers None 0 None 0) resultHandler c) as [[[cursor1 b1] c1] t1].
      now destruct (unqlite_kv_cursor_release h1 cursor1).
    + destruct (unqlite_kv_cursor_seek cursor keyData keySize UNQLITE_CURSOR_MATCH_EXACT)
        as [rc0 cursor0].
      destruct (rc0 =? UNQLITE_OK).
      * rewrite unwinding_fetch_returning.
        destruct (fetchCursorData cursor0 (mkBuffers None 0 None 0) resultHandler c)
          as [[b1 c1] t1].
        now destruct (unqlite_kv_cursor_release h1 cursor0).
      * now destruct (unqlite_kv_cursor_release h1 cursor0).
Qed.



(** With the fuel [Unwinding.scan] gives it, the loop ends because the engine
    reports the cursor invalid or because the handler throws, never because
    the fuel is used up. *)
Lemma unwinding_loop_ends (fuel : nat) : forall (cursor : unqlite_kv_cursor) (b : buffers)
    (resultHandler : @Unwinding.ScanHandler Client) (c : Client),
  (cursor_remaining cursor < fuel)%nat ->
  let '(_, _, _, t, exit) := Unwinding.scan_loop fuel cursor b resultHandler c in
  match exit with
  | returns _ => exists body, t = body ++ [ev_engine (call_cursor_valid_entry false)]
  | throws _ => True
  end.
Proof.
  induction fuel as [|fuel IH]; intros cursor b resultHandler c Hfuel; [lia|].
  simpl. destruct (unqlite_kv_cursor_valid_entry cursor) eqn:Hvalid; [|now exists []].
  destruct (Unwinding.fetchCursorData cursor b resultHandler c)
    as [[[b1 c1] t1] [[]|e]]; [|exact I].
  pose proof (cursor_next_decreases cursor Hvalid) as Hdec.
  destruct (unqlite_kv_cursor_next_entry cursor) as [rc cursor1]. simpl in Hdec.
  specialize (IH cursor1 b1 resultHandler c1 ltac:(lia)).
  destruct (Unwinding.scan_loop fuel cursor1 b1 resultHandler c1)
    as [[[[cursor2 b2] c2] t2] [[]|e]]; [|exact I].
  destruct IH as [body ->].
  exists (ev_engine (call_cursor_valid_entry true) :: t1
          ++ ev_engine call_cursor_next_entry :: body).
  simpl. now rewrite <- app_assoc.
Qed.


End UnwindingProperties.


(** ** A value too long for an [int], on the reference engine *)

Section ReferenceUnwinding.

Context {Client : Type}.

Lemma to_int_negative (z : Z) : 2 ^ 31 <= z < 2 ^ 32 -> to_int z < 0.
Proof.
  intros H. unfold to_int.
  replace (z + 2 ^ 31) with ((z - 2 ^ 31) + 1 * 2 ^ 32) by lia.
  rewrite Z.mod_add by lia. rewrite Z.mod_small; lia.
Qed.

(** One fetch on the reference engine, into the buffers of a scan that
    starts: both buffers are allocated to the sizes of the entry, filled, and
    handed to the handler, the value with its length converted to [int]. *)
Lemma unwinding_fetch_ref (items : table) (i : nat) (k v : string)
    (rh : @Unwinding.ScanHandler Client) (c : Client) :
  nth_error items i = Some (k, v) ->
  0 < size k -> 0 < size v ->
  exists fetched,
    filter is_realloc fetched = [ev_realloc KeyBuffer (size k); ev_realloc DataBuffer (size v)]
    /\ forallb is_scan_body fetched = true
    /\ existsb is_result fetched = false
    /\ Unwinding.fetchCursorData (mkCursor items i) (mkBuffers None 0 None 0) rh c
       = match rh c (Some k) (size k) (Some v) (to_int (size v)) with
         | (returns continue, c') =>
             (mkBuffers (Some k) (size k) (Some v) (size v), c',
              fetched ++ [ev_result (Some k) (size k) (Some v) (to_int (size v)) continue],
              returns tt)
         | (throws e, c') =>
             (mkBuffers (Some k) (size k) (Some v) (size v), c', fetched, throws e)
         end.
Proof.
  intros Hnth Hk Hv. eexists. split; [|split; [|split]].
  4: { unfold Unwinding.fetchCursorData.
       change (@unqlite_kv_cursor_key engine) with cursor_key.
       change (@unqlite_kv_cursor_data engine) with cursor_data.
       change (@UNQLITE_OK engine) with OK.
       unfold cursor_key, cursor_data, current. cbn [RefEngine.items RefEngine.pos].
       rewrite Hnth, !copy_out_size. change (OK =? OK) with true. cbn [negb]. cbv iota.
       cbn [keyBuffer keyBufferLength dataBuffer dataBufferLength].
       apply Z.gtb_lt in Hk, Hv. rewrite Hk. cbv iota beta.
       cbn [keyBuffer keyBufferLength dataBuffer dataBufferLength]. rewrite Hv.
       cbv iota beta. cbn [keyBuffer keyBufferLength dataBuffer dataBufferLength].
       rewrite !copy_out_fresh. cbv iota beta. change (OK =? OK) with true.
       cbn [negb]. cbv iota. cbn [keyBuffer keyBufferLength dataBuffer dataBufferLength].
       reflexivity. }
  all: reflexivity.
Qed.

(** X19: on the reference engine, a value of 2^31 to 2^32 - 1 bytes that was
    written under a key (not empty) cannot be read through the string
    overload of [read]: its length reaches the lambda of the overload as a
    negative [int], [std::string(ptr, size)] throws [std::length_error], and
    the exception leaves [read] and [scan].  The caller's result handler is
    not called, and the scan has allocated both buffers, freed neither and
    not released its cursor. *)
Theorem read_string_throws_on_huge_value (d : Private) (h : handle) (K V : string)
    (rh : @Unwinding.StringValueHandler Client) (eh : @Unwinding.ErrorHandler Client)
    (c : Client) :
  db d = Some h ->
  K <> "" -> size K < 2 ^ 32 ->
  2 ^ 31 <= size V < 2 ^ 32 ->
  let '(ok, d1, _) := write d (data K) (size K) (data V) (size V) in
  let '(d2, c', t, exit) := Unwinding.read_string d1 K rh eh c in
  ok = true
  /\ exit = throws std_length_error
  /\ c' = c
  /\ filter is_realloc t = [ev_realloc KeyBuffer (size K); ev_realloc DataBuffer (size V)]
  /\ existsb is_result t = false
  /\ existsb is_release t = false.
Proof.
  intros Hdb HK HsizeK HsizeV. unfold write. rewrite Hdb.
  change (@unqlite_kv_store engine h (data K) (size K) (data V) (size V))
    with (kv_store h (data K) (size K) (data V) (size V)).
  unfold kv_store. cbv beta iota. rewrite !bytes_at_data.
  destruct (index_of_insert K V (entries h)) as (i & Hi & Hnth).
  assert (Hsize : to_uint (size K) = size K).
  { unfold to_uint. apply Z.mod_small. pose proof (size_nonneg K). lia. }
  assert (HK0 : 0 < size K).
  { pose proof (size_nonneg K). destruct (Z.eq_dec (size K) 0) as [H0|H0]; [|lia].
    now apply size_zero in H0. }
  unfold Unwinding.read_string, Unwinding.read, Unwinding.scan. rewrite Hsize.
  cbn [db set_db].
  match goal with
  | |- context [@unqlite_kv_cursor_init engine ?h'] =>
      change (@unqlite_kv_cursor_init engine h') with (OK, mkCursor (entries h') 0, h')
  end.
  cbv beta iota. change (OK =? @UNQLITE_OK engine) with true. cbn [negb]. cbv iota.
  cbn [is_null data]. assert (Hnz : (size K =? 0) = false) by (apply Z.eqb_neq; lia).
  rewrite Hnz. cbn [orb]. cbv iota.
  match goal with
  | |- context [@unqlite_kv_cursor_seek engine ?cur ?p ?n ?m] =>
      change (@unqlite_kv_cursor_seek engine cur p n m) with (cursor_seek cur p n 1)
  end.
  unfold cursor_seek. cbn [RefEngine.items entries]. rewrite bytes_at_data, Hi.
  cbv beta iota. change (OK =? @UNQLITE_OK engine) with true. cbv iota.
  match goal with
  | |- context [Unwinding.fetchCursorData _ _ ?f c] =>
      destruct (unwinding_fetch_ref (insert K V (entries h)) i K V f c Hnth HK0
                  ltac:(lia)) as (fetched & Hgrow & Hbody & Hresult & Hfetch)
  end.
  rewrite Hfetch. cbn [is_null negb].
  pose proof (to_int_negative (size V) HsizeV) as Hneg. apply Z.ltb_lt in Hneg.
  rewrite Hneg. cbv beta iota.
  split; [reflexivity|]. split; [reflexivity|]. split; [reflexivity|].
  split; [exact Hgrow|]. split; [exact Hresult|].
  simpl. now apply scan_body_not_release.
Qed.

End ReferenceUnwinding.

(** ** On a concrete store *)

Section ThrowingCallers.

Import Examples.
Import Throwers.



Lemma size_huge_value : size huge_value = 2 ^ 31.
Proof. unfold size, huge_value. rewrite length_zeros. apply Z2Nat.id. lia. Qed.

Lemma read_string_throws_on_huge_value_witness :
  db inbox = Some inbox_handle
  /\ "a" <> ""
  /\ size "a" < 2 ^ 32
  /\ 2 ^ 31 <= size huge_value < 2 ^ 32
  /\ let '(ok, d1, _) :=
       write inbox (data "a") (size "a") (data huge_value) (size huge_value) in
     let '(d2, c', t, exit) := Unwinding.read_string d1 "a" keep_string ignore_error [] in
     ok = true
     /\ exit = throws std_length_error
     /\ c' = []
     /\ filter is_realloc t
        = [ev_realloc KeyBuffer (size "a"); ev_realloc DataBuffer (size huge_value)]
     /\ existsb is_result t = false
     /\ existsb is_release t = false.
Proof.
  split; [reflexivity|]. split; [discriminate|]. split; [reflexivity|].
  split; [rewrite size_huge_value; lia|].
  apply (read_string_throws_on_huge_value inbox inbox_handle "a" huge_value);
    [reflexivity | discriminate | reflexivity | rewrite size_huge_value; lia].
Defined.

End ThrowingCallers.
